(** * Optimizely CMS SDK: GraphQL fragment composer, response normalizer
      and Graph client, embedded in Rocq.

    The development follows three source files of the SDK:
    - [graph/createQuery.ts]  (fragment composer and query builder),
    - [util/baseTypeUtil.ts]  (base-type helpers and fixed fragments),
    - [graph/index.ts] and [graph/filters.ts] (client and normalizer).

    JavaScript strings are [string], string sets ([Set<string>]) that are
    only tested for membership are [gset string], arrays are lists, and
    objects whose key order is observable are association lists in
    insertion order.  Shared mutable state (the [visited] set and the
    module-level cache of content types) is threaded explicitly. *)

From Stdlib Require Import ZArith Ascii String DecimalString.
From stdpp Require Import base strings list gmap sets.

Open Scope string_scope.
Open Scope list_scope.

Set Warnings "-register-all,-clear-no-such-hyp".

(* ================================================================= *)
(** * JavaScript primitives used by the code                          *)
(* ================================================================= *)

Module Js.

  (** [new Set(xs)] followed by a spread: the elements in the order of their
      first insertion.  [set_add] is [Set.prototype.add] on that order. *)
Definition set_add (s : list string) (x : string) : list string :=
    if decide (x ∈ s) then s else s ++ [x].

Definition uniq (xs : list string) : list string :=
    foldl set_add [] xs.

  (** [xs.join(sep)] *)
Definition join (sep : string) (xs : list string) : string :=
    String.concat sep xs.

  (** [s.endsWith(t)]: [t] is a suffix of [s]. *)
Fixpoint endsWith (s t : string) : bool :=
    if String.eqb s t then true
    else match s with
         | EmptyString => false
         | String _ s' => endsWith s' t
         end.

  (** [s.slice(n)] for [0 <= n] *)
Fixpoint slice_from (n : nat) (s : string) : string :=
    match n, s with
    | O, _ => s
    | S n', String _ s' => slice_from n' s'
    | S _, EmptyString => EmptyString
    end.

  (** [s.slice(0, -1)] *)
Fixpoint drop_last (s : string) : string :=
    match s with
    | EmptyString => EmptyString
    | String _ EmptyString => EmptyString
    | String c s' => String c (drop_last s')
    end.

  (** [c.toUpperCase()] on one ASCII character (the keys the SDK capitalises
      are ASCII identifiers). *)
Definition toUpperCase (c : ascii) : ascii :=
    let n := nat_of_ascii c in
    if (97 <=? n)%nat && (n <=? 122)%nat then ascii_of_nat (n - 32) else c.

End Js.

(* ================================================================= *)
(** * Data model: properties and content types                        *)
(* ================================================================= *)

(** [AnyProperty] of [model/properties.ts]: a tagged variant over the
    property kinds, each carrying the optional [indexingType].  A content
    type is referenced by the object itself ([contentType], [allowedTypes]),
    hence the mutual definition. *)
Inductive AnyProperty : Type :=
| Property (type : PropertyType) (indexingType : option string)
with PropertyType : Type :=
| TComponent (contentType : AnyContentType)
| TContent (allowedTypes restrictedTypes : option (list PermittedTypes))
| TRichText
| TUrl
| TLink
| TContentReference
| TArray (items : AnyProperty)
| TScalar (type : string)   (* 'string', 'boolean', 'integer', 'json', ... *)
with AnyContentType : Type :=
| ContentType (key : string) (baseType : string)
              (properties : option (list (string * AnyProperty)))
              (compositionBehaviors : option (list string))
with PermittedTypes : Type :=
| PString (s : string)            (* '_image', '_self', ... *)
| PObject (ct : AnyContentType).

Definition prop_type (p : AnyProperty) : PropertyType :=
  match p with Property t _ => t end.
Definition indexingType (p : AnyProperty) : option string :=
  match p with Property _ i => i end.

Definition ct_key (c : AnyContentType) : string :=
  match c with ContentType k _ _ _ => k end.
Definition ct_baseType (c : AnyContentType) : string :=
  match c with ContentType _ b _ _ => b end.
Definition ct_properties (c : AnyContentType)
  : option (list (string * AnyProperty)) :=
  match c with ContentType _ _ ps _ => ps end.
Definition ct_compositionBehaviors (c : AnyContentType) : option (list string) :=
  match c with ContentType _ _ _ cb => cb end.

(** [prop.indexingType === 'disabled'] *)
Definition isDisabled (p : AnyProperty) : bool :=
  bool_decide (indexingType p = Some "disabled").

(* ================================================================= *)
(** * util/baseTypeUtil.ts                                            *)
(* ================================================================= *)

Definition getKeyName (t : PermittedTypes) : string :=
  match t with
  | PString s => s
  | PObject ct => ct_key ct
  end.

(** [/^_/.test(key)] *)
Definition isBaseType (key : string) : bool :=
  match key with
  | String c _ => bool_decide (c = "_"%char)
  | EmptyString => false
  end.

(** ["_" + key.charAt(1).toUpperCase() + key.slice(2)] for a base type. *)
Definition toBaseTypeFragmentKey (key : string) : string :=
  if isBaseType key then
    match key with
    | String _ (String c rest) => String "_" (String (Js.toUpperCase c) rest)
    | _ => "_"
    end
  else key.

Definition CONTENT_URL_FRAGMENT : string :=
  "fragment ContentUrl on ContentUrl { type default hierarchical internal graph base }".

Definition DAM_ASSET_FRAGMENTS : list string :=
  [ "fragment PublicImageAsset on cmp_PublicImageAsset { Url Title AltText Description MimeType Height Width Renditions { Id Name Url Width Height } FocalPoint { X Y } Tags { Guid Name } }";
    "fragment PublicVideoAsset on cmp_PublicVideoAsset { Url Title AltText Description MimeType Renditions { Id Name Url Width Height } Tags { Guid Name } }";
    "fragment PublicRawFileAsset on cmp_PublicRawFileAsset { Url Title Description MimeType Tags { Guid Name } }";
    "fragment ContentReferenceItem on ContentReference { item { ...PublicImageAsset ...PublicVideoAsset ...PublicRawFileAsset } }" ].

Definition COMMON_FRAGMENTS : list string :=
  [ "fragment MediaMetadata on MediaMetadata { mimeType thumbnail content }";
    "fragment ItemMetadata on ItemMetadata { changeset displayOption }";
    "fragment InstanceMetadata on InstanceMetadata { changeset locales expired container owner routeSegment lastModifiedBy path createdBy }";
    CONTENT_URL_FRAGMENT;
    "fragment IContentMetadata on IContentMetadata { key locale fallbackForLocale version displayName url {...ContentUrl} types published status created lastModified sortOrder ...MediaMetadata ...ItemMetadata ...InstanceMetadata }";
    "fragment _IContent on _IContent { _id _metadata {...IContentMetadata} }" ].

Definition COMMON_FIELDS : string := "..._IContent".

(** [buildBaseTypeFragments()] returns [{fields, extraFragments}]. *)
Definition buildBaseTypeFragments : list string * list string :=
  ([COMMON_FIELDS], COMMON_FRAGMENTS).

(** Modelled from the spec: [MAIN_BASE_TYPES] of [model/contentTypes.ts] is
    not among the sources; the specification names the members: "the
    top-level structural base types (page/experience/section/component
    themselves are never directly returned as concrete union members)". *)
Definition MAIN_BASE_TYPES : list string :=
  ["_page"; "_experience"; "_section"; "_component"].

(* ================================================================= *)
(** * Errors and the composer monad                                   *)
(* ================================================================= *)

(** JavaScript values as they occur in Graph requests and responses.
    Object properties are kept in insertion order, the order of [for...in]
    for the string keys GraphQL produces. *)
Inductive JsValue : Type :=
| JUndefined
| JNull
| JBool (b : bool)
| JNumber (n : Z)
| JString (s : string)
| JArray (elements : list JsValue)
| JObject (props : list (string * JsValue)).

(** The error classes of [graph/error.ts] that the modelled code throws,
    with the runtime's [TypeError] and a rejection of [fetch] by anything
    else. *)
Inductive GraphError : Type :=
| GraphMissingContentTypeError (contentType : string)
| OptimizelyGraphError (message : string)
| GraphResponseError (message : string) (query : string) (variables : JsValue)
| GraphHttpResponseError (message : string) (status : Z)
    (query : string) (variables : JsValue)
| GraphContentResponseError (errors : JsValue) (status : Z)
    (query : string) (variables : JsValue)
| TypeError
| Rejected (reason : string).

(** Outcome of running composer code: a value, a thrown error, or the
    recursion budget of the embedding exhausted. *)
Inductive Result (A : Type) : Type :=
| Ok (a : A)
| Throw (e : GraphError)
| OutOfFuel.
Arguments Ok {A} a.
Arguments Throw {A} e.
Arguments OutOfFuel {A}.

(** The two pieces of mutable state the composer shares across its
    recursion: the [visited] set passed by reference and the module-level
    [allContentTypes] cache. *)
Record ComposerState : Type := mkState {
  visited : gset string;
  allContentTypes : list AnyContentType
}.

Definition M (A : Type) : Type := ComposerState -> Result (A * ComposerState).

Definition ret {A} (a : A) : M A := fun st => Ok (a, st).

Definition bind {A B} (c : M A) (k : A -> M B) : M B :=
  fun st =>
    match c st with
    | Ok (a, st') => k a st'
    | Throw e => Throw e
    | OutOfFuel => OutOfFuel
    end.

Definition throw {A} (e : GraphError) : M A := fun _ => Throw e.

Definition get_visited : M (gset string) := fun st => Ok (visited st, st).

Definition visited_add (name : string) : M unit :=
  fun st => Ok (tt, mkState ({[name]} ∪ visited st) (allContentTypes st)).

Notation "'let*' x ':=' c 'in' k" := (bind c (fun x => k))
  (at level 10, x pattern, c at level 100, k at level 200).

(** Sequential loop with an accumulator: [for (const x of xs) { ... }]. *)
Fixpoint foldM {A B} (f : B -> A -> M B) (xs : list A) (b : B) : M B :=
  match xs with
  | [] => ret b
  | x :: xs' => let* b' := f b x in foldM f xs' b'
  end.

(* ================================================================= *)
(** * graph/createQuery.ts: the fragment composer                     *)
(* ================================================================= *)

(** What [convertProperty] returns. *)
Record PropertyResult : Type := mkPropertyResult {
  fields : list string;
  extraFragments : list string;
  includesDamAssetsFragments : bool
}.

Section Composer.

  (** The content-type registry ([model/contentTypeRegistry.ts]) holds the
      list given to [initContentTypeRegistry]; it does not change while a
      fragment is composed. *)
Variable registry : list AnyContentType.

  (** Modelled from the spec: the registry module is not among the sources.
      "lookup(key) -> ContentTypeDefinition | not-found". *)
Definition getContentType (key : string) : option AnyContentType :=
    List.find (fun c => bool_decide (ct_key c = key)) registry.

  (** Modelled from the spec: the registry module is not among the sources.
      The registry is an "in-memory catalog of content-type definitions";
      [getAllContentTypes] returns it. *)
Definition getAllContentTypes : list AnyContentType := registry.

  (** Modelled from the spec: the registry module is not among the sources.
      "lookupByBaseType(baseType) -> ContentTypeDefinition[]". *)
Definition getContentTypeByBaseType (base : string) : list AnyContentType :=
    List.filter (fun c => bool_decide (ct_baseType c = base)) registry.

  (** [getCachedContentTypes]: fills the cache when it is empty. *)
Definition getCachedContentTypes : M (list AnyContentType) :=
    fun st =>
      match allContentTypes st with
      | [] => Ok (getAllContentTypes, mkState (visited st) getAllContentTypes)
      | cached => Ok (cached, st)
      end.

Definition refreshCache : M unit :=
    fun st => Ok (tt, mkState (visited st) getAllContentTypes).

  (** [allPropertiesAreDisabled(ct)]: [false] without a property object,
      otherwise "at least one property and every one disabled". *)
Definition allPropertiesAreDisabled (ct : AnyContentType) : bool :=
    match ct_properties ct with
    | None => false
    | Some ps =>
        (fix loop (ps : list (string * AnyProperty)) (hasProperties : bool) :=
           match ps with
           | [] => hasProperties
           | (_, p) :: ps' => if isDisabled p then loop ps' true else false
           end) ps false
    end.

  (** The [restricted?.forEach] loop of [resolveAllowedTypes]: the skip set. *)
Definition restrictedSkip (restricted : option (list PermittedTypes))
    : gset string :=
    foldl (fun skip r =>
             let key := getKeyName r in
             let skip := {[key]} ∪ skip in
             if isBaseType key
             then foldl (fun skip ct => {[ct_key ct]} ∪ skip) skip
                        (getContentTypeByBaseType key)
             else skip)
          ∅ (default [] restricted).

  (** The closure [add] of [resolveAllowedTypes]; its captured variables
      [seen] and [result] are the accumulator. *)
Definition add (skip : gset string)
      (acc : gset string * list PermittedTypes) (ct : PermittedTypes)
    : gset string * list PermittedTypes :=
    let '(seen, result) := acc in
    let key := getKeyName ct in
    let ctObj := match ct with
                 | PObject o => Some o
                 | PString _ => getContentType key
                 end in
    if match ctObj with Some o => allPropertiesAreDisabled o | None => false end
    then acc
    else if bool_decide (key ∈ skip) || bool_decide (key ∈ seen)
            || bool_decide (key ∈ MAIN_BASE_TYPES)
    then acc
    else ({[key]} ∪ seen, result ++ [ct]).

  (** [allowed?.length] *)
Definition hasLength (allowed : option (list PermittedTypes)) : bool :=
    match allowed with
    | Some (_ :: _) => true
    | _ => false
    end.

(** The [for (const entry of baseline)] loop of [resolveAllowedTypes];
    [explicit] is [allowed?.length] as a boolean. *)
Definition resolveFrom (explicit : bool) (skip : gset string)
    (baseline : list PermittedTypes) : list PermittedTypes :=
  snd (foldl (fun acc entry =>
                let key := getKeyName entry in
                let acc :=
                  if explicit && isBaseType key
                  then foldl (add skip) acc
                         (map PObject (getContentTypeByBaseType key))
                  else acc in
                add skip acc entry)
             (∅, []) baseline).

Definition resolveAllowedTypes
    (allowed restricted : option (list PermittedTypes))
  : M (list PermittedTypes) :=
  let* baseline :=
    (if hasLength allowed then ret (default [] allowed)
     else let* cts := getCachedContentTypes in ret (map PObject cts)) in
  ret (resolveFrom (hasLength allowed) (restrictedSkip restricted) baseline).

Section Body.

    (** The recursive reference to [createFragment]:
        [(contentTypeName, suffix, includeBaseFragments, damEnabled)]. *)
Variable createFragment_rec : string -> string -> bool -> bool -> M (list string).

    (** The body of [for (const t of allowed)] in [convertPropertyField]; the
    accumulator is [(extraFragments, subfields)]. *)
Definition contentStep (rootName : string) (damEnabled : bool)
    (acc : list string * list string) (t : PermittedTypes)
  : M (list string * list string) :=
      let '(extra, subfields) := acc in
      let key := getKeyName t in
      let key := if bool_decide (key = "_self") then rootName else key in
      let* frags := createFragment_rec key "" true damEnabled in
      ret (extra ++ frags, subfields ++ ["..." +:+ key]).

(** [convertPropertyField].  [convertProperty] wraps it and only logs a
    warning ([checkTypeConstraintIssues]); the returned value is the same,
    so the array case calls this function directly. *)
Fixpoint convertPropertyField (name : string) (property : AnyProperty)
        (rootName suffix : string) (damEnabled : bool) : M PropertyResult :=
      let nameInFragment := rootName +:+ suffix +:+ "__" +:+ name +:+ ":" +:+ name in
      match prop_type property with
      | TComponent contentType =>
          let key := ct_key contentType in
          let fragmentName := key +:+ "Property" in
          let* frags := createFragment_rec key "Property" false damEnabled in
          ret (mkPropertyResult
                 [nameInFragment +:+ " { ..." +:+ fragmentName +:+ " }"]
                 (Js.uniq frags) false)
      | TContent allowedTypes restrictedTypes =>
          let* allowed := resolveAllowedTypes allowedTypes restrictedTypes in
          let* (extra, subfields) :=
            foldM (contentStep rootName damEnabled) allowed ([], []) in
          let uniqueSubfields := Js.join " " ("__typename" :: Js.uniq subfields) in
          ret (mkPropertyResult
                 [nameInFragment +:+ " { " +:+ uniqueSubfields +:+ " }"]
                 (Js.uniq extra) false)
      | TRichText =>
          ret (mkPropertyResult [nameInFragment +:+ " { html, json }"] [] false)
      | TUrl =>
          ret (mkPropertyResult [nameInFragment +:+ " { ...ContentUrl }"]
                 (Js.uniq [CONTENT_URL_FRAGMENT]) false)
      | TLink =>
          ret (mkPropertyResult
                 [nameInFragment +:+ " { text title target url { ...ContentUrl }}"]
                 (Js.uniq [CONTENT_URL_FRAGMENT]) false)
      | TContentReference =>
          let itemFragment := if damEnabled then " ...ContentReferenceItem" else "" in
          ret (mkPropertyResult
                 [name +:+ " { key url { ...ContentUrl }" +:+ itemFragment +:+ " }"]
                 (Js.uniq [CONTENT_URL_FRAGMENT]) damEnabled)
      | TArray items =>
          let* f := convertPropertyField name items rootName suffix damEnabled in
          ret (mkPropertyResult (fields f) (Js.uniq (extraFragments f))
                 (false || includesDamAssetsFragments f))
      | TScalar _ =>
          ret (mkPropertyResult [nameInFragment] [] false)
      end.

Definition convertProperty := convertPropertyField.

Definition fixedFragments : list string :=
      [ "fragment _IExperience on _IExperience { composition {...ICompositionNode }}";
        "fragment ICompositionNode on ICompositionNode { __typename key type nodeType layoutType displayName displayTemplateKey displaySettings {key value} ...on CompositionStructureNode { nodes @recursive } ...on CompositionComponentNode { nodeType component { ..._IComponent } } }" ].

    (** The filter of [createExperienceFragments]: components that declare at
        least one composition behavior. *)
Definition isExperienceNode (c : AnyContentType) : bool :=
      if bool_decide (ct_baseType c = "_component")
      then match ct_compositionBehaviors c with
           | Some (_ :: _) => true
           | _ => false
           end
      else false.

(** The callback of [flatMap] in [createExperienceFragments]. *)
Definition experienceStep (damEnabled : bool) (extra : list string) (n : string)
  : M (list string) :=
      let* frags := createFragment_rec n "" true damEnabled in
      ret (extra ++ frags).

Definition createExperienceFragments (damEnabled : bool) : M (list string) :=
      let* cts := getCachedContentTypes in
      let experienceNodes := map ct_key (List.filter isExperienceNode cts) in
      let* v := get_visited in
      let todo := List.filter (fun n => negb (bool_decide (n ∈ v))) experienceNodes in
      let* extra := foldM (experienceStep damEnabled) todo [] in
      let nodeNames := Js.join " " (map (fun n => "..." +:+ n) experienceNodes) in
      let componentFragment :=
        "fragment _IComponent on _IComponent { __typename " +:+ nodeNames +:+ " }" in
      ret (fixedFragments ++ extra ++ [componentFragment]).

(** The body of the [for ... of Object.entries(ct.properties ?? {})] loop of
    [createFragment]; the accumulator is
    [(fields, extraFragments, includesDamAssetsFragments)]. *)
Definition gatherStep (contentTypeName suffix : string) (damEnabled : bool)
    (acc : list string * list string * bool) (entry : string * AnyProperty)
  : M (list string * list string * bool) :=
      let '(fs, es, dam) := acc in
      let '(propKey, prop) := entry in
      if isDisabled prop then ret (fs, es, dam)
      else
        let* r := convertProperty propKey prop contentTypeName suffix damEnabled in
        ret (fs ++ fields r, es ++ extraFragments r,
             dam || includesDamAssetsFragments r).

Definition gatherProperties (props : list (string * AnyProperty))
        (contentTypeName suffix : string) (damEnabled : bool)
        (acc : list string * list string * bool)
      : M (list string * list string * bool) :=
      foldM (gatherStep contentTypeName suffix damEnabled) props acc.

(** The body of [createFragment] between [visited.add] and the DAM check:
        the locals [(fields, extraFragments, includesDamAssetsFragments)]. *)
Definition composeParts (contentTypeName suffix : string)
        (includeBaseFragments damEnabled : bool)
      : M (list string * list string * bool) :=
      if isBaseType contentTypeName then
        let '(f, e) := buildBaseTypeFragments in
        ret (["__typename"] ++ f, e, false)
      else
        match getContentType contentTypeName with
        | None => throw (GraphMissingContentTypeError contentTypeName)
        | Some ct =>
            let* (fs, es, dam) :=
              gatherProperties (default [] (ct_properties ct))
                contentTypeName suffix damEnabled (["__typename"], [], false) in
            let '(fs, es) :=
              if includeBaseFragments
              then (fs ++ fst buildBaseTypeFragments,
                    snd buildBaseTypeFragments ++ es)
              else (fs, es) in
            if bool_decide (ct_baseType ct = "_experience") then
              let* ex := createExperienceFragments damEnabled in
              ret (fs ++ ["..._IExperience"], es ++ ex, dam)
            else ret (fs, es, dam)
        end.

Definition fragmentText (fragmentName : string) (fs : list string) : string :=
      "fragment " +:+ fragmentName +:+ " on " +:+ toBaseTypeFragmentKey fragmentName
        +:+ " { " +:+ Js.join " " (Js.uniq fs) +:+ " }".

Definition createFragment_body (contentTypeName suffix : string)
        (includeBaseFragments damEnabled : bool) : M (list string) :=
      let fragmentName := contentTypeName +:+ suffix in
      let* v := get_visited in
      if bool_decide (fragmentName ∈ v) then ret []
      else
        let* _ := (if bool_decide (size v = 0) then refreshCache else ret tt) in
        let* _ := visited_add fragmentName in
        let* (fs, es, dam) :=
          composeParts contentTypeName suffix includeBaseFragments damEnabled in
        let es := if dam then DAM_ASSET_FRAGMENTS ++ es else es in
        ret (Js.uniq es ++ [fragmentText fragmentName fs]).

End Body.

  (** [createFragment].  JavaScript recursion is unbounded; the embedding
      bounds the nesting depth of calls by [fuel]. *)
Fixpoint createFragment (fuel : nat) (contentTypeName suffix : string)
      (includeBaseFragments damEnabled : bool) : M (list string) :=
    match fuel with
    | O => fun _ => OutOfFuel
    | S fuel' =>
        createFragment_body (createFragment fuel') contentTypeName suffix
          includeBaseFragments damEnabled
    end.

End Composer.

(* ================================================================= *)
(** * graph/createQuery.ts: the query builder                         *)
(* ================================================================= *)

Definition nl : string := String (ascii_of_nat 10) EmptyString.
Definition dquote : string := String (ascii_of_nat 34) EmptyString.

(** Every key a composition over [registry] can reach: the registered keys,
    the keys of embedded component types and the keys of allow-lists. *)
Fixpoint propertyKeys (p : AnyProperty) : list string :=
  match prop_type p with
  | TComponent ct => [ct_key ct]
  | TContent allowed _ => map getKeyName (default [] allowed)
  | TArray items => propertyKeys items
  | _ => []
  end.

Definition contentTypeKeys (ct : AnyContentType) : list string :=
  ct_key ct :: flat_map (fun np => propertyKeys (snd np)) (default [] (ct_properties ct)).

Definition knownKeys (registry : list AnyContentType) : list string :=
  flat_map contentTypeKeys registry.

(** A nesting depth no composition over [registry] exceeds: every nested
    call adds a new fragment name, a key followed by [""] or ["Property"]. *)
Definition fragmentFuel (registry : list AnyContentType) : nat :=
  S (2 * S (length (knownKeys registry))).

(** [createFragment(contentType, new Set(), '', true, damEnabled)] as the
    query builders call it: a fresh [visited] set, the cache as the module
    left it. *)
Definition createFragmentRoot (registry cache : list AnyContentType)
    (contentType : string) (damEnabled : bool) : Result (list string) :=
  match createFragment registry (fragmentFuel registry) contentType "" true damEnabled
          (mkState ∅ cache) with
  | Ok (fragment, _) => Ok fragment
  | Throw e => Throw e
  | OutOfFuel => OutOfFuel
  end.

Definition rbind {A B} (r : Result A) (k : A -> Result B) : Result B :=
  match r with
  | Ok a => k a
  | Throw e => Throw e
  | OutOfFuel => OutOfFuel
  end.

Notation "'await' x ':=' c 'in' k" := (rbind c (fun x => k))
  (at level 10, x pattern, c at level 100, k at level 200).

Definition createSingleContentQuery (registry cache : list AnyContentType)
    (contentType : string) (damEnabled : bool) : Result string :=
  await fragment := createFragmentRoot registry cache contentType damEnabled in
  let fragmentName :=
    if (0 <? length fragment)%nat then "..." +:+ contentType else "" in
  Ok (nl +:+ Js.join nl fragment +:+ nl
      +:+ "query GetContent($where: _ContentWhereInput) {" +:+ nl
      +:+ "  _Content(where: $where) {" +:+ nl
      +:+ "    item {" +:+ nl
      +:+ "      __typename" +:+ nl
      +:+ "      " +:+ fragmentName +:+ nl
      +:+ "    }" +:+ nl
      +:+ "  }" +:+ nl
      +:+ "}" +:+ nl
      +:+ "  ").

Definition createMultipleContentQuery (registry cache : list AnyContentType)
    (contentType : string) (damEnabled : bool) : Result string :=
  await fragment := createFragmentRoot registry cache contentType damEnabled in
  let fragmentName :=
    if (0 <? length fragment)%nat then "..." +:+ contentType else "" in
  Ok (nl +:+ Js.join nl fragment +:+ nl
      +:+ "query ListContent($where: _ContentWhereInput) {" +:+ nl
      +:+ "  _Content(where: $where) {" +:+ nl
      +:+ "    items {" +:+ nl
      +:+ nl
      +:+ "      " +:+ fragmentName +:+ nl
      +:+ "    }" +:+ nl
      +:+ "  }" +:+ nl
      +:+ "}" +:+ nl
      +:+ "  ").

(* ================================================================= *)
(** * graph/filters.ts                                                *)
(* ================================================================= *)

(** [normalizePath(path)]: [(pathWithTrailingSlash, pathWithoutTrailingSlash)]. *)
Definition normalizePath (path : string) : string * string :=
  if Js.endsWith path "/"
  then (path, Js.drop_last path)
  else (path +:+ "/", path).

(** [host ? { eq: host } : undefined] *)
Definition hostEq (host : option string) : JsValue :=
  match host with
  | Some h => if bool_decide (h = "") then JUndefined else JObject [("eq", JString h)]
  | None => JUndefined
  end.

Definition urlClause (default : string) (host : option string) : JsValue :=
  JObject [("_metadata",
     JObject [("url",
        JObject [("default", JObject [("eq", JString default)]);
                 ("base", hostEq host)])])].

(** [pathFilter(path, host)].  [APPLICATION_HOST] is the value of
    [process.env.APPLICATION_HOST], read when [path] is the empty string;
    calling [endsWith] on [undefined] is a [TypeError]. *)
Definition pathFilter (APPLICATION_HOST : option string)
    (path : string) (host : option string) : Result JsValue :=
  await p :=
    (if bool_decide (path = "")
     then match APPLICATION_HOST with
          | Some h => Ok h
          | None => Throw TypeError
          end
     else Ok path) in
  let '(pathWithTrailingSlash, pathWithoutTrailingSlash) := normalizePath p in
  Ok (JObject [("where",
        JObject [("_or",
           JArray [urlClause pathWithTrailingSlash host;
                   urlClause pathWithoutTrailingSlash host])])]).

Record PreviewParams : Type := mkPreviewParams {
  preview_token : string;
  key : string;
  ctx : string;
  ver : string;
  loc : string
}.

Definition previewFilter (params : PreviewParams) : JsValue :=
  JObject [("where",
     JObject [("_metadata",
        JObject [("key", JObject [("eq", JString (key params))]);
                 ("version", JObject [("eq", JString (ver params))]);
                 ("locale", JObject [("eq", JString (loc params))])])])].

(* ================================================================= *)
(** * graph/index.ts: the response normalizer                         *)
(* ================================================================= *)

Module Obj.

  (** ['k' in obj] for an own property. *)
Definition has (k : string) (props : list (string * JsValue)) : bool :=
    existsb (fun kv => bool_decide (fst kv = k)) props.

  (** [obj[k]] *)
Fixpoint get (k : string) (props : list (string * JsValue)) : JsValue :=
    match props with
    | [] => JUndefined
    | (k', v) :: props' => if bool_decide (k' = k) then v else get k props'
    end.

  (** [obj[k] = v]: an existing key keeps its position, a new one goes last. *)
Fixpoint set (k : string) (v : JsValue) (props : list (string * JsValue))
    : list (string * JsValue) :=
    match props with
    | [] => [(k, v)]
    | (k', v') :: props' =>
        if bool_decide (k' = k) then (k', v) :: props'
        else (k', v') :: set k v props'
    end.

End Obj.

Fixpoint removeTypePrefix (obj : JsValue) : JsValue :=
  match obj with
  | JArray elements => JArray (map removeTypePrefix elements)
  | JObject props =>
      let rename : string -> string :=
        match Obj.get "__typename" props with
        | JString typename =>
            let prefix := typename +:+ "__" in
            fun k => if String.prefix prefix k
                     then Js.slice_from (String.length prefix) k
                     else k
        | _ => fun k => k
        end in
      JObject
        (foldl (fun obj2 kv => Obj.set (rename (fst kv)) (snd kv) obj2) []
           (map (fun '(k, v) => (k, removeTypePrefix v)) props))
  | _ => obj
  end.

(** [decorateWithContext] assigns into its argument; on a tree (no object
    reachable twice) the value it returns is the one computed here. *)
Fixpoint decorateWithContext (obj : JsValue) (params : PreviewParams) : JsValue :=
  match obj with
  | JArray elements =>
      JArray (map (fun e => decorateWithContext e params) elements)
  | JObject props =>
      let props' := map (fun '(k, v) => (k, decorateWithContext v params)) props in
      if Obj.has "__typename" props'
      then JObject
             (Obj.set "__context"
                (JObject [("edit", JBool (bool_decide (ctx params = "edit")));
                          ("preview_token", JString (preview_token params))])
                props')
      else JObject props'
  | _ => obj
  end.

(* ================================================================= *)
(** * graph/index.ts: the Graph client                                *)
(* ================================================================= *)

Module Value.

Definition nullish (v : JsValue) : bool :=
    match v with
    | JUndefined | JNull => true
    | _ => false
    end.

  (** [v === null] *)
Definition is_null (v : JsValue) : bool :=
    match v with
    | JNull => true
    | _ => false
    end.

  (** [v.k] for the property names the client reads ([data], [errors],
      [_Content], [item], [items], [_metadata], [types], [damAssetType]):
      none is a property of an array, string, number or boolean. *)
Definition member (v : JsValue) (k : string) : Result JsValue :=
    match v with
    | JUndefined | JNull => Throw TypeError
    | JObject props => Ok (Obj.get k props)
    | _ => Ok JUndefined
    end.

  (** [v?.k] *)
Definition opt_member (v : JsValue) (k : string) : JsValue :=
    match v with
    | JObject props => Obj.get k props
    | _ => JUndefined
    end.

  (** [v?.[0]] *)
Definition opt_index0 (v : JsValue) : JsValue :=
    match v with
    | JArray (e :: _) => e
    | JString (String c _) => JString (String c EmptyString)
    | JObject props => Obj.get "0" props
    | _ => JUndefined
    end.

  (** Truthiness, as [!v] and [v ? a : b] test it. *)
Definition truthy (v : JsValue) : bool :=
    match v with
    | JUndefined | JNull => false
    | JBool b => b
    | JNumber n => negb (n =? 0)%Z
    | JString s => negb (bool_decide (s = ""))
    | JArray _ | JObject _ => true
    end.

End Value.

Definition GET_CONTENT_METADATA_QUERY : string :=
  nl +:+ "query GetContentMetadata($where: _ContentWhereInput) {" +:+ nl
  +:+ "  _Content(where: $where) {" +:+ nl
  +:+ "    item {" +:+ nl
  +:+ "      _metadata {" +:+ nl
  +:+ "        types" +:+ nl
  +:+ "      }" +:+ nl
  +:+ "    }" +:+ nl
  +:+ "  }" +:+ nl
  +:+ "  # Check if " +:+ dquote +:+ "cmp_Asset" +:+ dquote
  +:+ " type exists which indicates that DAM is enabled" +:+ nl
  +:+ "  damAssetType: __type(name: " +:+ dquote +:+ "cmp_Asset" +:+ dquote +:+ ") {" +:+ nl
  +:+ "    __typename" +:+ nl
  +:+ "  }" +:+ nl
  +:+ "}" +:+ nl.

(** What the client passes to [fetch]. *)
Record FetchRequest : Type := mkFetchRequest {
  url : string;                  (* [this.graphUrl] *)
  auth : option string;          (* the [auth] search parameter *)
  authorization : string;        (* the [Authorization] header *)
  body_query : string;
  body_variables : JsValue
}.

(** What the client reads of a [Response]; [text] and [json] are promises. *)
Record Response : Type := mkResponse {
  ok : bool;
  status : Z;
  statusText : string;
  text : Result string;
  json : Result JsValue
}.

Section GraphClient.

  (** [this.key], [this.graphUrl] and the environment of the client. *)
Variable apiKey : string.
Variable graphUrl : string.
Variable fetch : FetchRequest -> Result Response.
Variable JSON_parse : string -> Result JsValue.
Variable APPLICATION_HOST : option string.

  (** The registry and the composer's cache when a client method starts. *)
Variable registry : list AnyContentType.
Variable cache : list AnyContentType.

  (** [!previewToken] holds for [undefined] and for the empty string. *)
Definition hasToken (previewToken : option string) : bool :=
    match previewToken with
    | Some t => negb (bool_decide (t = ""))
    | None => false
    end.

Definition request (query : string) (variables : JsValue)
      (previewToken : option string) : Result JsValue :=
    let req :=
      mkFetchRequest graphUrl
        (if hasToken previewToken then None else Some apiKey)
        (if hasToken previewToken
         then "Bearer " +:+ default "" previewToken else "")
        query variables in
    await response :=
      (match fetch req with
       | Throw TypeError =>
           Throw (OptimizelyGraphError
             "Error when calling `fetch`. Ensure the Graph URL is correct or try again later.")
       | r => r
       end) in
    if negb (ok response) then
      await text :=
        (match text response with
         | Throw _ => Ok (statusText response)
         | r => r
         end) in
      await json :=
        (match JSON_parse text with
         | Throw _ => Throw (GraphHttpResponseError text (status response) query variables)
         | r => r
         end) in
      await errors := Value.member json "errors" in
      if Value.truthy errors
      then Throw (GraphContentResponseError errors (status response) query variables)
      else Throw (GraphHttpResponseError (statusText response) (status response)
                    query variables)
    else
      await json := json response in
      Value.member json "data".

  (** [getContentMetaData]: [(contentTypeName, damEnabled)], the name being
      [None] for [null]. *)
Definition getContentMetaData (input : JsValue) (previewToken : option string)
    : Result (option string * bool) :=
    await data := request GET_CONTENT_METADATA_QUERY input previewToken in
    await content := Value.member data "_Content" in
    let contentTypeName :=
      Value.opt_index0
        (Value.opt_member
           (Value.opt_member (Value.opt_member content "item") "_metadata")
           "types") in
    await damAssetType := Value.member data "damAssetType" in
    let damEnabled := negb (Value.is_null damAssetType) in
    if negb (Value.truthy contentTypeName) then Ok (None, damEnabled)
    else
      match contentTypeName with
      | JString name => Ok (Some name, damEnabled)
      | _ =>
          Throw (GraphResponseError
            "Returned type is not 'string'. This might be a bug in the SDK. Try again later. If the error persists, contact Optimizely support"
            GET_CONTENT_METADATA_QUERY input)
      end.

  (** [response?._Content?.items.map(removeTypePrefix)] *)
Definition mapItems (response : JsValue) : Result JsValue :=
    let content := Value.opt_member response "_Content" in
    if Value.nullish content then Ok JUndefined
    else
      await items := Value.member content "items" in
      match items with
      | JArray elements => Ok (JArray (map removeTypePrefix elements))
      | _ => Throw TypeError
      end.

Definition getContentByPath (path : string) (host : option string)
    : Result JsValue :=
    await input := pathFilter APPLICATION_HOST path host in
    await (contentTypeName, damEnabled) := getContentMetaData input None in
    match contentTypeName with
    | None => Ok (JArray [])
    | Some contentTypeName =>
        await query := createMultipleContentQuery registry cache contentTypeName damEnabled in
        await response := request query input None in
        mapItems response
    end.

Definition getPreviewContent (params : PreviewParams) : Result JsValue :=
    let input := previewFilter params in
    await (contentTypeName, damEnabled) :=
      getContentMetaData input (Some (preview_token params)) in
    match contentTypeName with
    | None =>
        Throw (GraphResponseError
          ("No content found for key [" +:+ key params
             +:+ "]. Check that your CMS contains something there")
          GET_CONTENT_METADATA_QUERY input)
    | Some contentTypeName =>
        await query := createSingleContentQuery registry cache contentTypeName damEnabled in
        await response := request query input (Some (preview_token params)) in
        Ok (decorateWithContext
              (removeTypePrefix
                 (Value.opt_member (Value.opt_member response "_Content") "item"))
              params)
    end.

End GraphClient.

(* ================================================================= *)
(** * graph/filters.ts and graph/index.ts: links                      *)
(* ================================================================= *)

(** [localeFilter(locale)]: [{ locale }]. *)
Definition localeFilter (locale : option (list string)) : JsValue :=
  JObject [("locale",
            match locale with
            | Some l => JArray (map JString l)
            | None => JUndefined
            end)].

Definition GET_PATH_QUERY : string :=
  nl +:+ "query GetPath($where: _ContentWhereInput, $locale: [Locales]) {"
  +:+ nl +:+ "  _Content(where: $where, locale: $locale) {"
  +:+ nl +:+ "    item {"
  +:+ nl +:+ "      _id"
  +:+ nl +:+ "      _metadata {"
  +:+ nl +:+ "        ...on InstanceMetadata {"
  +:+ nl +:+ "          path"
  +:+ nl +:+ "        }"
  +:+ nl +:+ "      }"
  +:+ nl +:+ "      _link(type: PATH) {"
  +:+ nl +:+ "        _Page {"
  +:+ nl +:+ "          items {"
  +:+ nl +:+ "            _metadata {"
  +:+ nl +:+ "              key"
  +:+ nl +:+ "              sortOrder"
  +:+ nl +:+ "              displayName"
  +:+ nl +:+ "              locale"
  +:+ nl +:+ "              types"
  +:+ nl +:+ "              url {"
  +:+ nl +:+ "                base"
  +:+ nl +:+ "                hierarchical"
  +:+ nl +:+ "                default"
  +:+ nl +:+ "              }"
  +:+ nl +:+ "            }"
  +:+ nl +:+ "          }"
  +:+ nl +:+ "        }"
  +:+ nl +:+ "      }"
  +:+ nl +:+ "    }"
  +:+ nl +:+ "  }"
  +:+ nl +:+ "}".

Definition GET_ITEMS_QUERY : string :=
  nl +:+ "query GetPath($where: _ContentWhereInput, $locale: [Locales]) {"
  +:+ nl +:+ "  _Content(where: $where, locale: $locale) {"
  +:+ nl +:+ "    item {"
  +:+ nl +:+ "      _id"
  +:+ nl +:+ "      _metadata {"
  +:+ nl +:+ "        ...on InstanceMetadata {"
  +:+ nl +:+ "          path"
  +:+ nl +:+ "        }"
  +:+ nl +:+ "      }"
  +:+ nl +:+ "      _link(type: ITEMS) {"
  +:+ nl +:+ "        _Page {"
  +:+ nl +:+ "          items {"
  +:+ nl +:+ "            _metadata {"
  +:+ nl +:+ "              key"
  +:+ nl +:+ "              sortOrder"
  +:+ nl +:+ "              displayName"
  +:+ nl +:+ "              locale"
  +:+ nl +:+ "              types"
  +:+ nl +:+ "              url {"
  +:+ nl +:+ "                base"
  +:+ nl +:+ "                hierarchical"
  +:+ nl +:+ "                default"
  +:+ nl +:+ "              }"
  +:+ nl +:+ "            }"
  +:+ nl +:+ "          }"
  +:+ nl +:+ "        }"
  +:+ nl +:+ "      }"
  +:+ nl +:+ "    }"
  +:+ nl +:+ "  }"
  +:+ nl +:+ "}".

Module JsMap.

  (** The key comparison of [Map]: primitives by value; an object or array
      only equals itself, and the keys compared here are read from different
      places of a parsed response, so two of them are never the same
      object. *)
Definition sameValueZero (a b : JsValue) : bool :=
    match a, b with
    | JUndefined, JUndefined => true
    | JNull, JNull => true
    | JBool x, JBool y => Bool.eqb x y
    | JNumber x, JNumber y => (x =? y)%Z
    | JString x, JString y => bool_decide (x = y)
    | _, _ => false
    end.

  (** [map.set(k, v)]: an existing key keeps its position. *)
Fixpoint set (k v : JsValue) (m : list (JsValue * JsValue))
    : list (JsValue * JsValue) :=
    match m with
    | [] => [(k, v)]
    | (k', v') :: m' =>
        if sameValueZero k' k then (k', v) :: m' else (k', v') :: set k v m'
    end.

  (** [map.get(k)] *)
Fixpoint get (k : JsValue) (m : list (JsValue * JsValue)) : JsValue :=
    match m with
    | [] => JUndefined
    | (k', v') :: m' => if sameValueZero k' k then v' else get k m'
    end.

  (** [new Map(entries)] *)
Definition ofEntries (entries : list (JsValue * JsValue))
    : list (JsValue * JsValue) :=
    foldl (fun m kv => set (fst kv) (snd kv) m) [] entries.

End JsMap.

(** [xs.map(f)] for a callback that may throw. *)
Fixpoint mapResult {A B} (f : A -> Result B) (xs : list A) : Result (list B) :=
  match xs with
  | [] => Ok []
  | x :: xs' =>
      await y := f x in
      await ys := mapResult f xs' in
      Ok (y :: ys)
  end.

(** [v !== undefined] *)
Definition isDefined (v : JsValue) : bool :=
  match v with
  | JUndefined => false
  | _ => true
  end.

(** The decimal digits of an array index. *)
Definition indexKey (i : nat) : string :=
  NilZero.string_of_uint (Nat.to_uint i).

(** The own enumerable properties an object spread [{...v}] copies: those
    of an object, the elements of an array and the characters of a string
    under their indices, nothing for any other value. *)
Definition spreadOf (v : JsValue) : list (string * JsValue) :=
  match v with
  | JObject props => props
  | JArray elements => imap (fun i e => (indexKey i, e)) elements
  | JString s =>
      imap (fun i c => (indexKey i, JString (String c EmptyString)))
           (list_ascii_of_string s)
  | _ => []
  end.

(** [{...a, ...b}] *)
Definition spread2 (a b : JsValue) : JsValue :=
  JObject (foldl (fun obj kv => Obj.set (fst kv) (snd kv) obj) []
             (spreadOf a ++ spreadOf b)).

(** [links.map((link) => [link._metadata?.key, link])] *)
Definition linkEntries (links : JsValue) : Result (list (JsValue * JsValue)) :=
  match links with
  | JArray ls =>
      mapResult (fun link =>
                   await metadata := Value.member link "_metadata" in
                   Ok (Value.opt_member metadata "key", link)) ls
  | _ => Throw TypeError
  end.

Section GraphClientLinks.

Variable apiKey : string.
Variable graphUrl : string.
Variable fetch : FetchRequest -> Result Response.
Variable JSON_parse : string -> Result JsValue.
Variable APPLICATION_HOST : option string.

(** The variables of the two link queries:
    [{...pathFilter(path, options?.host), ...localeFilter(options?.locales)}]. *)
Definition linksInput (path : string) (host : option string)
    (locales : option (list string)) : Result JsValue :=
  await filter := pathFilter APPLICATION_HOST path host in
  Ok (spread2 filter (localeFilter locales)).

Definition getPath (path : string) (host : option string)
    (locales : option (list string)) : Result JsValue :=
  await variables := linksInput path host locales in
  await data := request apiKey graphUrl fetch JSON_parse GET_PATH_QUERY variables None in
  await content := Value.member data "_Content" in
  await item := Value.member content "item" in
  await id := Value.member item "_id" in
  if negb (Value.truthy id) then Ok JNull
  else
    await link := Value.member item "_link" in
    await page := Value.member link "_Page" in
    await links := Value.member page "items" in
    await metadata := Value.member item "_metadata" in
    await sortedKeys := Value.member metadata "path" in
    if negb (Value.truthy sortedKeys) then
      await variables' := linksInput path host locales in
      Throw (GraphResponseError
        "The `_metadata` does not contain any `path` field. Ensure that the path you requested is an actual page and not a block. If the problem persists, contact Optimizely support"
        GET_PATH_QUERY variables')
    else
      await entries := linkEntries links in
      let linkMap := JsMap.ofEntries entries in
      match sortedKeys with
      | JArray keys =>
          Ok (JArray (List.filter isDefined
                        (map (fun key => JsMap.get key linkMap) keys)))
      | _ => Throw TypeError
      end.

Definition getItems (path : string) (host : option string)
    (locales : option (list string)) : Result JsValue :=
  await variables := linksInput path host locales in
  await data := request apiKey graphUrl fetch JSON_parse GET_ITEMS_QUERY variables None in
  await content := Value.member data "_Content" in
  await item := Value.member content "item" in
  await id := Value.member item "_id" in
  if negb (Value.truthy id) then Ok JNull
  else
    await link := Value.member item "_link" in
    await page := Value.member link "_Page" in
    Value.member page "items".

End GraphClientLinks.

(* ================================================================= *)
(** * render/assets.ts                                                *)
(* ================================================================= *)

(** ['k' in v] for a value that is not falsy: a [TypeError] for a string,
    number or boolean; the keys asked for are no property of an array. *)
Definition hasProperty (k : string) (v : JsValue) : Result bool :=
  match v with
  | JObject props => Ok (Obj.has k props)
  | JArray _ => Ok false
  | _ => Throw TypeError
  end.

(** The string a template literal inserts for [v]: [String(v)].  Numbers are
    the integers of the model, printed in decimal; an object prints as
    [[object Object]] unless it has a [toString] property of its own, which
    in parsed JSON is no function, so the conversion is a [TypeError]. *)
Fixpoint toStringJs (v : JsValue) : Result string :=
  match v with
  | JUndefined => Ok "undefined"
  | JNull => Ok "null"
  | JBool b => Ok (if b then "true" else "false")
  | JNumber n => Ok (NilZero.string_of_int (Z.to_int n))
  | JString s => Ok s
  | JArray elements =>
      await parts :=
        (fix each (es : list JsValue) : Result (list string) :=
           match es with
           | [] => Ok []
           | e :: es' =>
               await s := (if Value.nullish e then Ok "" else toStringJs e) in
               await ss := each es' in
               Ok (s :: ss)
           end) elements in
      Ok (Js.join "," parts)
  | JObject props =>
      if Obj.has "toString" props then Throw TypeError else Ok "[object Object]"
  end.

(** The callback of [renditions.filter] in [getSrcset], with the set
    [seenWidths] it updates: the renditions it keeps, in order. *)
Fixpoint keepRenditions (seenWidths : list JsValue) (renditions : list JsValue)
  : Result (list JsValue) :=
  match renditions with
  | [] => Ok []
  | r :: rest =>
      await url := Value.member r "Url" in
      if negb (Value.truthy url) then keepRenditions seenWidths rest
      else
        let width := Value.opt_member r "Width" in
        if negb (Value.truthy width) then keepRenditions seenWidths rest
        else if existsb (fun w => JsMap.sameValueZero w width) seenWidths
        then keepRenditions seenWidths rest
        else
          await kept := keepRenditions (seenWidths ++ [width]) rest in
          Ok (r :: kept)
  end.

(** [`${r.Url!} ${r.Width}w`] *)
Definition srcsetEntry (r : JsValue) : Result string :=
  await url := toStringJs (Value.opt_member r "Url") in
  await width := toStringJs (Value.opt_member r "Width") in
  Ok (url +:+ " " +:+ width +:+ "w").

Section Assets.

(** [appendToken] of [util/preview.ts], which is not among the sources: the
    code is modelled for whatever that function returns or throws. *)
Variable appendToken : JsValue -> JsValue -> Result JsValue.

(** The callback of [Renditions.map] in [appendPreviewTokenToRenditions]. *)
Definition withToken (previewToken : JsValue) (r : JsValue) : Result JsValue :=
  await url := Value.member r "Url" in
  await url' := (if Value.truthy url then appendToken url previewToken else Ok url) in
  Ok (JObject (Obj.set "Url" url' (spreadOf r))).

Definition appendPreviewTokenToRenditions (input previewToken : JsValue)
  : Result JsValue :=
  if negb (Value.truthy input) || negb (Value.truthy previewToken) then Ok input
  else
    let result := spreadOf input in
    let item := Obj.get "item" result in
    await hasRenditions :=
      (if Value.truthy item then hasProperty "Renditions" item else Ok false) in
    let renditions := Value.opt_member item "Renditions" in
    if hasRenditions && Value.truthy renditions then
      match renditions with
      | JArray rs =>
          await rs' := mapResult (withToken previewToken) rs in
          Ok (JObject
                (Obj.set "item"
                   (JObject (Obj.set "Renditions" (JArray rs') (spreadOf item)))
                   result))
      | _ => Throw TypeError
      end
    else Ok (JObject result).

Definition getSrcset (content property : JsValue) : Result JsValue :=
  let input := property in
  let previewToken :=
    Value.opt_member (Value.opt_member content "__context") "preview_token" in
  await processedInput :=
    (if Value.truthy previewToken
     then appendPreviewTokenToRenditions input previewToken
     else Ok input) in
  let item := Value.opt_member processedInput "item" in
  if negb (Value.truthy item) then Ok JUndefined
  else
    await hasRenditions := hasProperty "Renditions" item in
    if negb hasRenditions then Ok JUndefined
    else
      let renditions := Value.opt_member item "Renditions" in
      if negb (Value.truthy renditions) then Ok JUndefined
      else
        match renditions with
        | JArray [] => Ok JUndefined
        | JArray rs =>
            await kept := keepRenditions [] rs in
            await srcsetEntries := mapResult srcsetEntry kept in
            match srcsetEntries with
            | [] => Ok JUndefined
            | _ => Ok (JString (Js.join ", " srcsetEntries))
            end
        | JObject props =>
            (* [renditions.length === 0] can hold for an object with a
               [length] property; otherwise [filter] is no function of it *)
            match Obj.get "length" props with
            | JNumber 0 => Ok JUndefined
            | _ => Throw TypeError
            end
        | _ => Throw TypeError
        end.

End Assets.

(** [getAlt(input, fallback)] *)
Definition getAlt (input : JsValue) (fallback : string) : Result JsValue :=
  if negb (Value.truthy input) then Ok (JString fallback)
  else
    let item := Value.opt_member input "item" in
    await hasAlt := (if Value.truthy item then hasProperty "AltText" item else Ok false) in
    if hasAlt then
      let rawAlt := Value.opt_member item "AltText" in
      Ok (if Value.truthy rawAlt then rawAlt else JString fallback)
    else Ok (JString fallback).

(** [property?.item?.__typename === name] *)
Definition itemTypeIs (name : string) (property : JsValue) : bool :=
  match Value.opt_member (Value.opt_member property "item") "__typename" with
  | JString s => bool_decide (s = name)
  | _ => false
  end.

Definition isDamImageAsset (property : JsValue) : bool :=
  itemTypeIs "cmp_PublicImageAsset" property.

Definition isDamVideoAsset (property : JsValue) : bool :=
  itemTypeIs "cmp_PublicVideoAsset" property.

Definition isDamRawFileAsset (property : JsValue) : bool :=
  itemTypeIs "cmp_PublicRawFileAsset" property.

Definition isDamAsset (property : JsValue) : bool :=
  isDamImageAsset property || isDamVideoAsset property || isDamRawFileAsset property.

Definition getDamAssetType (property : JsValue) : string :=
  if isDamImageAsset property then "image"
  else if isDamVideoAsset property then "video"
  else if isDamRawFileAsset property then "file"
  else "unknown".

(* ================================================================= *)
(** * Vocabulary of the statements                                    *)
(* ================================================================= *)

(** The [where] clause that selects content stored under [base] with or
    without a trailing slash. *)
Definition bothFormsFilter (base : string) (host : option string) : JsValue :=
  JObject [("where",
     JObject [("_or",
        JArray [urlClause (base +:+ "/") host; urlClause base host])])].

(** [filter] selects both forms of [path]: [path] is one of the two forms of
    some [base] and the filter lists both. *)
Definition matchesBothForms (path : string) (host : option string)
    (filter : JsValue) : Prop :=
  exists base, (path = base \/ path = base +:+ "/")
               /\ filter = bothFormsFilter base host.

(** A Graph endpoint that answers every request with the same JSON body. *)
Definition constantEndpoint (body : JsValue) (_ : FetchRequest) : Result Response :=
  Ok (mkResponse true 200 "OK" (Ok "") (Ok body)).

(** A Graph endpoint that answers the metadata probe with [probe] and every
    other query with [content]. *)
Definition probeEndpoint (probe content : JsValue) (req : FetchRequest)
  : Result Response :=
  Ok (mkResponse true 200 "OK" (Ok "")
        (Ok (if bool_decide (body_query req = GET_CONTENT_METADATA_QUERY)
             then probe else content))).

Definition noParse (_ : string) : Result JsValue := Throw (Rejected "SyntaxError").

(** The metadata answer for a path or key under which nothing is stored. *)
Definition emptyProbe : JsValue :=
  JObject [("data",
     JObject [("_Content", JObject [("item", JNull)]);
              ("damAssetType", JNull)])].

(** A registry with one page type, used to exercise the client. *)
Definition pageRegistry : list AnyContentType :=
  [ContentType "Page1" "_page"
     (Some [("title", Property (TScalar "string") None)]) None].

(** The metadata answer for an item of type [name]. *)
Definition typeProbe (name : string) : JsValue :=
  JObject [("data",
     JObject [("_Content",
        JObject [("item",
           JObject [("_metadata",
              JObject [("types", JArray [JString name; JString "_Page"])])])]);
              ("damAssetType", JNull)])].

(** ** The composition graph

    A node is a fragment the composer may emit: a content-type key together
    with the way it is reached, at top level (suffix [""], base fragments
    included) or embedded as a component property (suffix ["Property"]). *)

Inductive Mode : Type := Direct | Embedded.

Definition suffixOf (m : Mode) : string :=
  match m with Direct => "" | Embedded => "Property" end.

Definition includeBaseOf (m : Mode) : bool :=
  match m with Direct => true | Embedded => false end.

Definition Node : Type := string * Mode.

Definition nodeName (n : Node) : string := fst n +:+ suffixOf (snd n).

(** The allow-list [resolveAllowedTypes] computes once the cache holds the
    registry. *)
Definition resolved (registry : list AnyContentType)
    (allowed restricted : option (list PermittedTypes)) : list PermittedTypes :=
  resolveFrom registry (hasLength allowed) (restrictedSkip registry restricted)
    (if hasLength allowed then default [] allowed else map PObject registry).

Definition selfKey (rootName key : string) : string :=
  if bool_decide (key = "_self") then rootName else key.

(** The fragments a property makes [convertPropertyField] ask for. *)
Fixpoint propertyTargets (registry : list AnyContentType) (rootName : string)
    (p : AnyProperty) : list Node :=
  match prop_type p with
  | TComponent ct => [(ct_key ct, Embedded)]
  | TContent allowed restricted =>
      map (fun t => (selfKey rootName (getKeyName t), Direct))
          (resolved registry allowed restricted)
  | TArray items => propertyTargets registry rootName items
  | _ => []
  end.

(** The properties [createFragment] does not skip. *)
Definition enabledProperties (ct : AnyContentType) : list (string * AnyProperty) :=
  List.filter (fun np => negb (isDisabled (snd np))) (default [] (ct_properties ct)).

Definition experienceNodes (registry : list AnyContentType) : list string :=
  map ct_key (List.filter isExperienceNode registry).

(** The edges of the composition graph. *)
Definition successors (registry : list AnyContentType) (n : Node) : list Node :=
  if isBaseType (fst n) then []
  else match getContentType registry (fst n) with
       | None => []
       | Some ct =>
           flat_map (fun np => propertyTargets registry (fst n) (snd np))
                    (enabledProperties ct)
           ++ (if bool_decide (ct_baseType ct = "_experience")
               then map (fun k => (k, Direct)) (experienceNodes registry)
               else [])
       end.

Inductive Reach (registry : list AnyContentType) (root : Node) : Node -> Prop :=
| Reach_root : Reach registry root root
| Reach_step n n' :
    Reach registry root n -> n' ∈ successors registry n ->
    Reach registry root n'.

(** A [contentReference] property, directly or as the items of an array. *)
Fixpoint isContentReference (p : AnyProperty) : bool :=
  match prop_type p with
  | TContentReference => true
  | TArray items => isContentReference items
  | _ => false
  end.

(** The type has a [contentReference] among the properties that are not
    indexing-disabled. *)
Definition hasContentReference (ct : AnyContentType) : bool :=
  existsb (fun np => isContentReference (snd np)) (enabledProperties ct).


(** ** The text of the fragments, as a function of the schema *)

(** The spreads of a [content] property, in the order of the allow-list. *)
Definition contentSpreads (registry : list AnyContentType) (rootName : string)
    (allowed restricted : option (list PermittedTypes)) : list string :=
  Js.uniq (map (fun t => "..." +:+ selfKey rootName (getKeyName t))
               (resolved registry allowed restricted)).

(** The field selections of one property. *)
Fixpoint propertyFields (registry : list AnyContentType)
    (rootName suffix : string) (damEnabled : bool)
    (name : string) (p : AnyProperty) : list string :=
  let nameInFragment := rootName +:+ suffix +:+ "__" +:+ name +:+ ":" +:+ name in
  match prop_type p with
  | TComponent ct =>
      [nameInFragment +:+ " { ..." +:+ (ct_key ct +:+ "Property") +:+ " }"]
  | TContent allowed restricted =>
      [nameInFragment +:+ " { "
         +:+ Js.join " " ("__typename" :: contentSpreads registry rootName allowed restricted)
         +:+ " }"]
  | TRichText => [nameInFragment +:+ " { html, json }"]
  | TUrl => [nameInFragment +:+ " { ...ContentUrl }"]
  | TLink => [nameInFragment +:+ " { text title target url { ...ContentUrl }}"]
  | TContentReference =>
      [name +:+ " { key url { ...ContentUrl }"
         +:+ (if damEnabled then " ...ContentReferenceItem" else "") +:+ " }"]
  | TArray items => propertyFields registry rootName suffix damEnabled name items
  | TScalar _ => [nameInFragment]
  end.

(** The fragments a property contributes without composing another type. *)
Fixpoint propertyOwnFragments (p : AnyProperty) : list string :=
  match prop_type p with
  | TUrl | TLink | TContentReference => [CONTENT_URL_FRAGMENT]
  | TArray items => propertyOwnFragments items
  | _ => []
  end.

Definition componentFragment (registry : list AnyContentType) : string :=
  "fragment _IComponent on _IComponent { __typename "
    +:+ Js.join " " (map (fun n => "..." +:+ n) (experienceNodes registry)) +:+ " }".

(** The field list of the fragment of a node, before duplicates are dropped. *)
Definition nodeFields (registry : list AnyContentType) (damEnabled : bool)
    (n : Node) : list string :=
  "__typename" ::
  (if isBaseType (fst n) then [COMMON_FIELDS]
   else match getContentType registry (fst n) with
        | None => []
        | Some ct =>
            flat_map (fun np => propertyFields registry (fst n) (suffixOf (snd n))
                                  damEnabled (fst np) (snd np))
                     (enabledProperties ct)
            ++ (if includeBaseOf (snd n) then [COMMON_FIELDS] else [])
            ++ (if bool_decide (ct_baseType ct = "_experience")
                then ["..._IExperience"] else [])
        end).

(** The fragment of a node. *)
Definition nodeFragment (registry : list AnyContentType) (damEnabled : bool)
    (n : Node) : string :=
  fragmentText (nodeName n) (nodeFields registry damEnabled n).

(** The fixed fragments a node brings along. *)
Definition nodeLibrary (registry : list AnyContentType) (damEnabled : bool)
    (n : Node) : list string :=
  if isBaseType (fst n) then COMMON_FRAGMENTS
  else match getContentType registry (fst n) with
       | None => []
       | Some ct =>
           (if damEnabled && hasContentReference ct then DAM_ASSET_FRAGMENTS else [])
           ++ (if includeBaseOf (snd n) then COMMON_FRAGMENTS else [])
           ++ flat_map (fun np => propertyOwnFragments (snd np)) (enabledProperties ct)
           ++ (if bool_decide (ct_baseType ct = "_experience")
               then fixedFragments ++ [componentFragment registry] else [])
       end.

(** Everything the composition of one node adds to the fragment list. *)
Definition nodeStrings (registry : list AnyContentType) (damEnabled : bool)
    (n : Node) : list string :=
  nodeLibrary registry damEnabled n ++ [nodeFragment registry damEnabled n].

(** ** Fragment names *)

(** The characters of [s] up to the first space. *)
Fixpoint firstWord (s : string) : string :=
  match s with
  | EmptyString => EmptyString
  | String c s' => if bool_decide (c = " "%char) then EmptyString
                   else String c (firstWord s')
  end.

(** The name a fragment definition declares: the word after [fragment]. *)
Definition declaredName (s : string) : string :=
  firstWord (Js.slice_from 9 s).

(** The names of the fragments the composer takes from its fixed library. *)
Definition libraryNames : list string :=
  map declaredName (COMMON_FRAGMENTS ++ DAM_ASSET_FRAGMENTS ++ fixedFragments)
  ++ ["_IComponent"].

Fixpoint hasSpace (s : string) : bool :=
  match s with
  | EmptyString => false
  | String c s' => bool_decide (c = " "%char) || hasSpace s'
  end.

(** The keys from which the fragment names of a composition are built. *)
Definition compositionKeys (registry : list AnyContentType) (root : string)
  : list string :=
  root :: knownKeys registry.

(** ** Termination vocabulary *)

(** The fragment names a composition over the keys [K] can mark visited. *)
Definition universe (K : list string) : gset string :=
  list_to_set (flat_map (fun k => [k; k +:+ "Property"]) K).

(** The state invariant of a composition that started from the visited set
    [v0]: the cache holds the registry and [visited] only grows. *)
Definition composing (registry : list AnyContentType) (v0 : gset string)
    (st : ComposerState) : Prop :=
  allContentTypes st = registry /\ v0 ⊆ visited st.

(** [c] preserves the invariant [I], does not exhaust the recursion budget,
    throws only if [mayThrow], and its value satisfies [Q]. *)
Definition safe {A} (mayThrow : Prop) (I : ComposerState -> Prop) (c : M A)
    (Q : A -> Prop) : Prop :=
  forall st, I st ->
    match c st with
    | Ok (a, st') => I st' /\ Q a
    | Throw _ => mayThrow
    | OutOfFuel => False
    end.

(** Every key of [K] is a base type or is registered. *)
Definition closedSchema (registry : list AnyContentType) (K : list string) : Prop :=
  forall k, k ∈ K -> isBaseType k = false -> getContentType registry k <> None.

(** ** The effect of a composition *)

Definition nodeNames (N : list Node) : gset string :=
  list_to_set (map nodeName N).

(** Running from [st] to [st'] composed exactly the nodes [N], each one new,
    reachable from [R], and with all its successors visited at the end. *)
Definition effect (registry : list AnyContentType) (R : Node)
    (st : ComposerState) (N : list Node) (st' : ComposerState) : Prop :=
  allContentTypes st' = registry
  /\ visited st' = visited st ∪ nodeNames N
  /\ NoDup (map nodeName N)
  /\ (forall n, n ∈ N -> nodeName n ∉ visited st)
  /\ (forall n, n ∈ N ->
        Reach registry R n
        /\ forall n', n' ∈ successors registry n -> nodeName n' ∈ visited st').

(** The strings of [out] are those of [own] and of the nodes [N]. *)
Definition covers (registry : list AnyContentType) (damEnabled : bool)
    (N : list Node) (own out : list string) : Prop :=
  forall s, s ∈ out <->
            s ∈ own \/ exists n, n ∈ N /\ s ∈ nodeStrings registry damEnabled n.

(** What a call of [createFragment] for the node [(k, m)] does. *)
Definition composesNode (registry : list AnyContentType) (damEnabled : bool)
    (R : Node) (k : string) (m : Mode)
    (st : ComposerState) (out : list string) (st' : ComposerState) : Prop :=
  exists N,
    effect registry R st N st'
    /\ covers registry damEnabled N [] out
    /\ nodeName (k, m) ∈ visited st'
    /\ (out = [] \/
        exists es, out = Js.uniq es ++ [nodeFragment registry damEnabled (k, m)]).

(** The entries of a property list that are not indexing-disabled. *)
Definition enabledOnly (props : list (string * AnyProperty))
  : list (string * AnyProperty) :=
  List.filter (fun np => negb (isDisabled (snd np))) props.



(** ** Counting and well-formedness of keys *)



(** The fragments the composer copies from its fixed library. *)
Definition libraryFragments (registry : list AnyContentType) : list string :=
  COMMON_FRAGMENTS ++ DAM_ASSET_FRAGMENTS ++ fixedFragments
    ++ [componentFragment registry].

(** A key that contains no space and that, with or without the [Property]
    suffix, is not the name of a library fragment. *)
Definition plainKey (k : string) : bool :=
  negb (hasSpace k)
  && negb (bool_decide (k ∈ libraryNames))
  && negb (bool_decide (k +:+ "Property" ∈ libraryNames)).

(** No key is another key followed by [Property]: the two ways of reaching
    a type never produce the same fragment name. *)
Definition noNameClash (K : list string) : bool :=
  forallb (fun k1 => forallb (fun k2 => negb (bool_decide (k2 = k1 +:+ "Property"))) K) K.




(** ** Order of spreads *)

(** [x] occurs in [l] before an occurrence of [y]. *)
Definition listedBefore (x y : string) (l : list string) : Prop :=
  exists l1 l2 l3, l = l1 ++ x :: l2 ++ y :: l3.

(** The keys of the entries of an allow-list. *)
Definition keysOf (l : list PermittedTypes) : list string := map getKeyName l.

(** The accumulator of [resolveAllowedTypes] is consistent: [seen] holds
    exactly the keys of [result], none of them twice and none skipped. *)
Definition accOk (skip : gset string)
    (acc : gset string * list PermittedTypes) : Prop :=
  (forall k, k ∈ fst acc <-> k ∈ keysOf (snd acc))
  /\ NoDup (keysOf (snd acc))
  /\ forall k, k ∈ keysOf (snd acc) -> k ∉ skip.

(** Within the accumulator the key [ku] precedes the key [b], if [b] is
    there at all. *)
Definition ordered (b ku : string)
    (acc : gset string * list PermittedTypes) : Prop :=
  b ∈ keysOf (snd acc) -> listedBefore ku b (keysOf (snd acc)).

(** ** Example registries *)

(** A user-defined image type and a page with a [content] property without
    allow-list. *)
Definition imageRegistry : list AnyContentType :=
  [ContentType "MyImage" "_image"
     (Some [("alt", Property (TScalar "string") None)]) None;
   ContentType "Page1" "_page"
     (Some [("media", Property (TContent None None) None)]) None].






(** A page whose key is the name of a library fragment. *)
Definition reservedRegistry : list AnyContentType :=
  [ContentType "ContentUrl" "_page" None None].

(** A page with one enabled and one indexing-disabled property. *)
Definition mixedRegistry : list AnyContentType :=
  [ContentType "ct1" "_page"
     (Some [("title", Property (TScalar "string") None);
            ("secret", Property (TScalar "string") (Some "disabled"))]) None].

(** ** Vocabulary of the normalizer *)




(** [v] is the [__context] object of the preview parameters [params]. *)
Definition isContextOf (params : PreviewParams) (v : JsValue) : bool :=
  match v with
  | JObject [("edit", JBool e); ("preview_token", JString t)] =>
      Bool.eqb e (bool_decide (ctx params = "edit"))
      && bool_decide (t = preview_token params)
  | _ => false
  end.

(** Every object of [v] that has a [__typename] has the [__context] of
    [params] as well. *)
Fixpoint contextAttached (params : PreviewParams) (v : JsValue) : bool :=
  match v with
  | JArray elements => forallb (contextAttached params) elements
  | JObject props =>
      forallb (fun '(_, v') => contextAttached params v') props
      && (negb (Obj.has "__typename" props)
          || isContextOf params (Obj.get "__context" props))
  | _ => true
  end.

(** ** Vocabulary of the link queries *)

(** The [data] of a link response whose [_Content.item] is [item]. *)
Definition linksData (item : JsValue) : JsValue :=
  JObject [("_Content", JObject [("item", item)])].

(** An item as the link queries select it: its [_id], the [path] of its
    [_metadata] and the [items] of its [_link._Page]. *)
Definition pageItem (id path links : JsValue) : JsValue :=
  JObject [("_id", id);
           ("_metadata", JObject [("path", path)]);
           ("_link", JObject [("_Page", JObject [("items", links)])])].

(** [link._metadata?.key] of a link that is neither [null] nor [undefined]. *)
Definition linkKey (link : JsValue) : JsValue :=
  Value.opt_member (Value.opt_member link "_metadata") "key".

(** The last link of [links] stored under the key [k]. *)
Definition linkFor (links : list JsValue) (k : JsValue) : option JsValue :=
  List.find (fun l => JsMap.sameValueZero (linkKey l) k) (rev links).

(** A link with the metadata key [k]. *)
Definition pageLink (k : string) (displayName : string) : JsValue :=
  JObject [("_metadata",
            JObject [("key", JString k); ("displayName", JString displayName)])].

(** ** Vocabulary of the client *)

(** The request [request(query, variables, previewToken)] hands to [fetch]. *)
Definition fetchRequestOf (apiKey graphUrl query : string) (variables : JsValue)
    (previewToken : option string) : FetchRequest :=
  mkFetchRequest graphUrl
    (if hasToken previewToken then None else Some apiKey)
    (if hasToken previewToken then "Bearer " +:+ default "" previewToken else "")
    query variables.

(** The [data] of an answer to the metadata probe. *)
Definition probeData (types damAssetType : JsValue) : JsValue :=
  JObject [("_Content",
            JObject [("item", JObject [("_metadata", JObject [("types", types)])])]);
           ("damAssetType", damAssetType)].





(** ** Vocabulary of the composer's failures *)

(** [e] reports a content type that is not a base type and is not
    registered. *)
Definition missingType (registry : list AnyContentType) (e : GraphError) : Prop :=
  exists name,
    e = GraphMissingContentTypeError name
    /\ isBaseType name = false
    /\ getContentType registry name = None.

(** Every error [c] throws satisfies [P]. *)
Definition throwsOnly {A} (P : GraphError -> Prop) (c : M A) : Prop :=
  forall st e, c st = Throw e -> P e.

(** ** Vocabulary of the allow-list resolution *)

(** The entries [resolveAllowedTypes] offers to its [add], in order: every
    entry of the baseline, preceded, under an explicit allow-list, by the
    registered types that extend it when it is a base type. *)
Definition candidates (registry : list AnyContentType)
    (allowed : option (list PermittedTypes)) : list PermittedTypes :=
  if hasLength allowed
  then flat_map (fun entry =>
                   (if isBaseType (getKeyName entry)
                    then map PObject (getContentTypeByBaseType registry (getKeyName entry))
                    else [])
                   ++ [entry])
                (default [] allowed)
  else map PObject registry.

(** The content type [add] inspects for an entry: the entry itself when it
    is an object, the registered type of that key otherwise. *)
Definition definitionOf (registry : list AnyContentType) (t : PermittedTypes)
  : option AnyContentType :=
  match t with
  | PObject o => Some o
  | PString _ => getContentType registry (getKeyName t)
  end.

(** [add] keeps an entry with this property the first time its key occurs. *)
Definition admissible (registry : list AnyContentType) (skip : gset string)
    (t : PermittedTypes) : bool :=
  negb (match definitionOf registry t with
        | Some o => allPropertiesAreDisabled o
        | None => false
        end)
  && negb (bool_decide (getKeyName t ∈ skip))
  && negb (bool_decide (getKeyName t ∈ MAIN_BASE_TYPES)).

(** ** Example registries for experiences *)

(** An experience and a component that can be placed in it. *)
Definition experienceRegistry : list AnyContentType :=
  [ContentType "Landing" "_experience"
     (Some [("title", Property (TScalar "string") None)]) None;
   ContentType "Hero" "_component"
     (Some [("heading", Property (TScalar "string") None)])
     (Some ["sectionEnabled"])].

(** ** Vocabulary of the asset helpers *)

(** [r.Width] of a rendition that is neither [null] nor [undefined]. *)
Definition widthOf (r : JsValue) : JsValue := Value.opt_member r "Width".

(** [r.Url] of a rendition that is neither [null] nor [undefined]. *)
Definition urlOf (r : JsValue) : JsValue := Value.opt_member r "Url".


(** A rendition as Graph returns it. *)
Definition rendition (name url : string) (width height : Z) : JsValue :=
  JObject [("Id", JString name); ("Name", JString name); ("Url", JString url);
           ("Width", JNumber width); ("Height", JNumber height)].

(** An image reference with the renditions [rs] and the alternative text
    [alt]. *)
Definition imageReference (alt : JsValue) (rs : list JsValue) : JsValue :=
  JObject [("url", JObject [("default", JNull)]);
           ("item",
            JObject [("__typename", JString "cmp_PublicImageAsset");
                     ("Url", JString "https://assets.example/a.jpg");
                     ("AltText", alt);
                     ("Renditions", JArray rs)])].

(* ================================================================= *)
(** * Properties of the response normalizer                           *)
(* ================================================================= *)

Lemma has_map_values (f : JsValue -> JsValue) k props :
  Obj.has k (map (fun '(k', v) => (k', f v)) props) = Obj.has k props.
Proof.
  induction props as [|[k' v] props IH]; simpl; [reflexivity|].
  now rewrite IH.
Qed.

(** C5. The alias-prefix stripper maps
    [{__typename: "T", "T__a": 1, nested: {__typename: "U", "U__b": 2}}] to
    [{__typename: "T", a: 1, nested: {__typename: "U", b: 2}}], and a second
    application leaves that result unchanged. *)
Theorem removeTypePrefix_alias_round_trip :
  let input :=
    JObject [("__typename", JString "T"); ("T__a", JNumber 1);
             ("nested", JObject [("__typename", JString "U"); ("U__b", JNumber 2)])] in
  let output :=
    JObject [("__typename", JString "T"); ("a", JNumber 1);
             ("nested", JObject [("__typename", JString "U"); ("b", JNumber 2)])] in
  removeTypePrefix input = output
  /\ removeTypePrefix (removeTypePrefix input) = removeTypePrefix input.
Proof. split; vm_compute; reflexivity. Qed.

(** C9. With [ctx = "edit"] and [preview_token = "tok"], decoration of
    [{__typename: "T", child: {__typename: "U"}}] puts
    [__context = {edit: true, preview_token: "tok"}] beside the [__typename]
    of both nodes; an object without a [__typename] key gets nothing
    attached: it keeps its keys, with the values decorated recursively. *)
Theorem decorateWithContext_preview (k v l : string) :
  let params := mkPreviewParams "tok" k "edit" v l in
  let context := JObject [("edit", JBool true); ("preview_token", JString "tok")] in
  decorateWithContext
    (JObject [("__typename", JString "T");
              ("child", JObject [("__typename", JString "U")])]) params
  = JObject [("__typename", JString "T");
             ("child", JObject [("__typename", JString "U");
                                ("__context", context)]);
             ("__context", context)]
  /\ forall props params',
       Obj.has "__typename" props = false ->
       decorateWithContext (JObject props) params'
       = JObject (map (fun '(k', v') => (k', decorateWithContext v' params')) props).
Proof.
  split; [vm_compute; reflexivity|].
  intros props params' Hno. simpl.
  now rewrite has_map_values, Hno.
Qed.

Lemma decorateWithContext_preview_witness :
  Obj.has "__typename" [("title", JString "x"); ("n", JArray [JNumber 1])] = false
  /\ decorateWithContext
       (JObject [("title", JString "x"); ("n", JArray [JNumber 1])])
       (mkPreviewParams "tok" "k" "edit" "1" "en")
     = JObject [("title", JString "x"); ("n", JArray [JNumber 1])].
Proof.
  split; [reflexivity|].
  exact (proj2 (decorateWithContext_preview "k" "1" "en")
           [("title", JString "x"); ("n", JArray [JNumber 1])]
           (mkPreviewParams "tok" "k" "edit" "1" "en") eq_refl).
Defined.

(* ================================================================= *)
(** * Properties of the path filter and of the client                 *)
(* ================================================================= *)

Lemma eqb_slash_inv s : String.eqb s "/" = true -> s = "/".
Proof. apply String.eqb_eq. Qed.

Lemma endsWith_cons c s t :
  Js.endsWith (String c s) t
  = if String.eqb (String c s) t then true else Js.endsWith s t.
Proof. reflexivity. Qed.

Lemma drop_last_cons c c' s :
  Js.drop_last (String c (String c' s)) = String c (Js.drop_last (String c' s)).
Proof. reflexivity. Qed.

Lemma endsWith_slash_drop_last s :
  Js.endsWith s "/" = true -> s = Js.drop_last s +:+ "/".
Proof.
  induction s as [|c s IH]; [discriminate|].
  rewrite endsWith_cons.
  destruct (String.eqb (String c s) "/") eqn:E.
  - apply String.eqb_eq in E. rewrite E. reflexivity.
  - intros H. destruct s as [|c' s']; [discriminate|].
    rewrite drop_last_cons. specialize (IH H).
    change (String c (Js.drop_last (String c' s')) +:+ "/")
      with (String c (Js.drop_last (String c' s') +:+ "/")).
    now rewrite <- IH.
Qed.

Lemma normalizePath_forms path :
  exists base, (path = base \/ path = base +:+ "/")
               /\ normalizePath path = (base +:+ "/", base).
Proof.
  unfold normalizePath. destruct (Js.endsWith path "/") eqn:E.
  - exists (Js.drop_last path). apply endsWith_slash_drop_last in E.
    split; [right; exact E|]. now rewrite <- E.
  - exists path. split; [now left|reflexivity].
Qed.

Lemma pathFilter_nonempty env path host :
  path <> "" ->
  exists filter, pathFilter env path host = Ok filter
                 /\ matchesBothForms path host filter.
Proof.
  intros Hne. unfold pathFilter.
  rewrite bool_decide_eq_false_2 by exact Hne. simpl.
  destruct (normalizePath_forms path) as (base & Hbase & Hnorm).
  rewrite Hnorm. eexists. split; [reflexivity|].
  exists base. split; [exact Hbase|reflexivity].
Qed.

Section ClientProperties.

Variable apiKey : string.
Variable graphUrl : string.
Variable fetch : FetchRequest -> Result Response.
Variable JSON_parse : string -> Result JsValue.
Variable registry : list AnyContentType.
Variable cache : list AnyContentType.

(** C7 (amended). For every non-empty path, [getContentByPath] builds a
    [where] filter that lists both the trailing-slash and the
    non-trailing-slash form of the path, and when the metadata probe for that
    filter resolves no content type it returns the empty array. *)
Theorem getContentByPath_filter_and_miss env (path : string) (host : option string) :
  path <> "" ->
  exists filter,
    pathFilter env path host = Ok filter
    /\ matchesBothForms path host filter
    /\ forall damEnabled,
         getContentMetaData apiKey graphUrl fetch JSON_parse filter None
           = Ok (None, damEnabled) ->
         getContentByPath apiKey graphUrl fetch JSON_parse env registry cache path host
           = Ok (JArray []).
Proof.
  intros Hne.
  destruct (pathFilter_nonempty env path host Hne) as (filter & Hf & Hm).
  exists filter. split; [exact Hf|]. split; [exact Hm|].
  intros dam Hprobe. unfold getContentByPath.
  rewrite Hf. simpl. rewrite Hprobe. reflexivity.
Qed.

(** C8. When the metadata probe for the preview parameters resolves no
    content type, [getPreviewContent] throws a [GraphResponseError] whose
    message names the key. *)
Theorem getPreviewContent_not_found (params : PreviewParams) damEnabled :
  getContentMetaData apiKey graphUrl fetch JSON_parse (previewFilter params)
    (Some (preview_token params)) = Ok (None, damEnabled) ->
  getPreviewContent apiKey graphUrl fetch JSON_parse registry cache params
  = Throw (GraphResponseError
             ("No content found for key [" +:+ key params
                +:+ "]. Check that your CMS contains something there")
             GET_CONTENT_METADATA_QUERY (previewFilter params)).
Proof.
  intros Hprobe. unfold getPreviewContent. rewrite Hprobe. reflexivity.
Qed.

(** C10. When the metadata probe resolves a content type and the
    multi-item query answers with a response whose [_Content] is missing or
    null, [getContentByPath] returns [undefined]; the empty array is what the
    earlier probe miss returns. *)
Theorem getContentByPath_missing_content env (path : string) (host : option string)
    (input : JsValue) :
  pathFilter env path host = Ok input ->
  (forall name damEnabled query response,
     getContentMetaData apiKey graphUrl fetch JSON_parse input None
       = Ok (Some name, damEnabled) ->
     createMultipleContentQuery registry cache name damEnabled = Ok query ->
     request apiKey graphUrl fetch JSON_parse query input None = Ok response ->
     Value.nullish (Value.opt_member response "_Content") = true ->
     getContentByPath apiKey graphUrl fetch JSON_parse env registry cache path host
       = Ok JUndefined)
  /\ (forall damEnabled,
        getContentMetaData apiKey graphUrl fetch JSON_parse input None
          = Ok (None, damEnabled) ->
        getContentByPath apiKey graphUrl fetch JSON_parse env registry cache path host
          = Ok (JArray [])).
Proof.
  intros Hin. split.
  - intros name dam query response Hprobe Hq Hresp Hnull.
    unfold getContentByPath. rewrite Hin. simpl. rewrite Hprobe. simpl.
    rewrite Hq. simpl. rewrite Hresp. simpl.
    unfold mapItems. rewrite Hnull. reflexivity.
  - intros dam Hprobe. unfold getContentByPath.
    rewrite Hin. simpl. rewrite Hprobe. reflexivity.
Qed.

End ClientProperties.

(** C7 as stated fails at the empty path: the filter is then built from
    [APPLICATION_HOST] and lists neither [""] nor ["/"]. *)
Lemma pathFilter_empty_path_counterexample :
  ~ exists filter,
      pathFilter (Some "https://example.com") "" None = Ok filter
      /\ matchesBothForms "" None filter.
Proof.
  intros (filter & Hf & base & Hbase & Hshape).
  vm_compute in Hf. injection Hf as <-.
  assert (base = "") as ->.
  { destruct Hbase as [H|H]; [now symmetry|].
    destruct base; discriminate. }
  vm_compute in Hshape. discriminate.
Qed.

Lemma getContentByPath_filter_and_miss_witness :
  "/a/b" <> ""
  /\ getContentByPath "key" "https://cg.optimizely.com/content/v2"
       (constantEndpoint emptyProbe) noParse None pageRegistry [] "/a/b" None
     = Ok (JArray []).
Proof.
  split; [discriminate|].
  destruct (getContentByPath_filter_and_miss "key"
              "https://cg.optimizely.com/content/v2"
              (constantEndpoint emptyProbe) noParse pageRegistry [] None
              "/a/b" None ltac:(discriminate)) as (filter & Hf & _ & Hmiss).
  apply (Hmiss false).
  vm_compute in Hf. injection Hf as <-. vm_compute. reflexivity.
Defined.

Lemma getPreviewContent_not_found_witness :
  let params := mkPreviewParams "tok" "abc123" "edit" "7" "en" in
  getContentMetaData "key" "https://cg.optimizely.com/content/v2"
    (constantEndpoint emptyProbe) noParse (previewFilter params) (Some "tok")
    = Ok (None, false)
  /\ exists query variables,
       getPreviewContent "key" "https://cg.optimizely.com/content/v2"
         (constantEndpoint emptyProbe) noParse pageRegistry [] params
       = Throw (GraphResponseError
                  "No content found for key [abc123]. Check that your CMS contains something there"
                  query variables).
Proof.
  intros params. split; [vm_compute; reflexivity|].
  eexists _, _.
  exact (getPreviewContent_not_found "key" "https://cg.optimizely.com/content/v2"
           (constantEndpoint emptyProbe) noParse pageRegistry [] params false
           ltac:(vm_compute; reflexivity)).
Defined.

Lemma getContentByPath_missing_content_witness :
  let endpoint := probeEndpoint (typeProbe "Page1") (JObject [("data", JObject [])]) in
  getContentByPath "key" "https://cg.optimizely.com/content/v2"
    endpoint noParse None pageRegistry [] "/a/b" None
  = Ok JUndefined.
Proof.
  intros endpoint.
  refine (proj1 (getContentByPath_missing_content "key"
                   "https://cg.optimizely.com/content/v2"
                   endpoint noParse pageRegistry [] None "/a/b" None _ _)
            "Page1" false _ (JObject []) _ _ _ _).
  - vm_compute. reflexivity.
  - vm_compute. reflexivity.
  - vm_compute. reflexivity.
  - vm_compute. reflexivity.
  - reflexivity.
Defined.

(* ================================================================= *)
(** * Termination of the composer                                     *)
(* ================================================================= *)

Lemma property_array_ind (P : AnyProperty -> Prop) :
  (forall t i, (forall items, t <> TArray items) -> P (Property t i)) ->
  (forall items i, P items -> P (Property (TArray items) i)) ->
  forall p, P p.
Proof.
  intros Hbase Harr. fix IH 1. intros [t i].
  destruct t as [c|a r| | | | |items|s];
    try (apply Hbase; intros items' E; discriminate E).
  apply Harr. apply IH.
Qed.

Lemma string_app_cons c (s t : string) : String c s +:+ t = String c (s +:+ t).
Proof. reflexivity. Qed.

Lemma string_app_nil_r (s : string) : s +:+ "" = s.
Proof. induction s as [|c s IH]; [reflexivity|]. now rewrite string_app_cons, IH. Qed.

Lemma string_app_assoc (s t u : string) : (s +:+ t) +:+ u = s +:+ (t +:+ u).
Proof. induction s as [|c s IH]; [reflexivity|]. now rewrite !string_app_cons, IH. Qed.

Lemma safe_ret {A} (T : Prop) (I : ComposerState -> Prop) (a : A) (Q : A -> Prop) :
  Q a -> safe T I (ret a) Q.
Proof. intros HQ st HI. simpl. auto. Qed.

Lemma safe_throw {A} (T : Prop) (I : ComposerState -> Prop) e (Q : A -> Prop) :
  T -> safe T I (throw e) Q.
Proof. intros HT st HI. exact HT. Qed.

Lemma safe_bind {A B} (T : Prop) (I : ComposerState -> Prop) (c : M A) (k : A -> M B)
    (Q : A -> Prop) (R : B -> Prop) :
  safe T I c Q -> (forall a, Q a -> safe T I (k a) R) -> safe T I (bind c k) R.
Proof.
  intros Hc Hk st HI. unfold bind. specialize (Hc st HI).
  destruct (c st) as [[a st']| |]; [|exact Hc|exact Hc].
  destruct Hc as [HI' HQ]. exact (Hk a HQ st' HI').
Qed.

Lemma safe_weaken {A} (T : Prop) (I : ComposerState -> Prop) (c : M A) (Q R : A -> Prop) :
  safe T I c Q -> (forall a, Q a -> R a) -> safe T I c R.
Proof.
  intros Hc HQR st HI. specialize (Hc st HI).
  destruct (c st) as [[a st']| |]; auto. destruct Hc; auto.
Qed.

Lemma safe_foldM {A B} (T : Prop) (I : ComposerState -> Prop) (f : B -> A -> M B)
    (xs : list A) (P : B -> Prop) :
  (forall b x, x ∈ xs -> P b -> safe T I (f b x) P) ->
  forall b, P b -> safe T I (foldM f xs b) P.
Proof.
  induction xs as [|x xs IH]; intros Hf b Hb; simpl.
  - now apply safe_ret.
  - eapply safe_bind.
    + apply Hf; [left|exact Hb].
    + intros b' Hb'. apply IH; [|exact Hb'].
      intros b'' y Hy. apply Hf. now right.
Qed.

Section Termination.

Variable registry : list AnyContentType.
Variable K : list string.
Hypothesis K_known : forall k, k ∈ knownKeys registry -> k ∈ K.
Variable damEnabled : bool.
Variable mayThrow : Prop.
Hypothesis closed_or_throw : mayThrow \/ closedSchema registry K.

Lemma getContentType_Some k ct :
  getContentType registry k = Some ct -> ct ∈ registry /\ ct_key ct = k.
Proof.
  unfold getContentType. intros H. apply find_some in H as [Hin Hk].
  split; [now apply list_elem_of_In|]. now apply bool_decide_eq_true_1 in Hk.
Qed.

Lemma registry_key_known ct : ct ∈ registry -> ct_key ct ∈ K.
Proof.
  intros Hin. apply K_known. unfold knownKeys.
  apply list_elem_of_In, in_flat_map. exists ct.
  split; [now apply list_elem_of_In|]. now left.
Qed.

Lemma property_keys_known ct name p :
  ct ∈ registry -> (name, p) ∈ default [] (ct_properties ct) ->
  forall k, k ∈ propertyKeys p -> k ∈ K.
Proof.
  intros Hct Hp k Hk. apply K_known. unfold knownKeys.
  apply list_elem_of_In, in_flat_map. exists ct.
  split; [now apply list_elem_of_In|]. right.
  apply in_flat_map. exists (name, p).
  split; now apply list_elem_of_In.
Qed.

Lemma getCachedContentTypes_safe v0 :
  safe mayThrow (composing registry v0) (getCachedContentTypes registry)
       (fun cts => cts = registry).
Proof.
  intros [v cache] [Hc Hv]. simpl in *. subst cache.
  unfold getCachedContentTypes. simpl.
  destruct registry eqn:E; simpl; repeat split; auto.
Qed.

Lemma add_member skip acc t x :
  x ∈ snd (add registry skip acc t) -> x ∈ snd acc \/ x = t.
Proof.
  destruct acc as [seen result]. unfold add.
  repeat match goal with |- context [if ?b then _ else _] => destruct b end;
    simpl; auto.
  rewrite elem_of_app, list_elem_of_singleton. auto.
Qed.

Lemma foldl_add_member skip ts acc x :
  x ∈ snd (foldl (add registry skip) acc ts) -> x ∈ snd acc \/ x ∈ ts.
Proof.
  revert acc. induction ts as [|t ts IH]; intros acc; simpl; [auto|].
  intros H. apply IH in H as [H|H].
  - apply add_member in H as [H| ->]; [auto|]. right. left.
  - right. now right.
Qed.

Lemma resolveFrom_member explicit skip baseline x :
  x ∈ resolveFrom registry explicit skip baseline ->
  x ∈ baseline \/ exists c, c ∈ registry /\ x = PObject c.
Proof.
  unfold resolveFrom.
  assert (forall acc, x ∈ snd (foldl (fun acc entry =>
                let key := getKeyName entry in
                let acc0 :=
                  if explicit && isBaseType key
                  then foldl (add registry skip) acc
                         (map PObject (getContentTypeByBaseType registry key))
                  else acc in
                add registry skip acc0 entry) acc baseline) ->
          x ∈ snd acc \/ x ∈ baseline \/ exists c, c ∈ registry /\ x = PObject c) as Hgen.
  { induction baseline as [|e es IH]; intros acc; simpl; [auto|].
    intros H. apply IH in H as [H|[H|H]]; auto.
    - apply add_member in H as [H| ->].
      + destruct (explicit && isBaseType (getKeyName e)); [|auto].
        apply foldl_add_member in H as [H|H]; [auto|].
        right. right. apply list_elem_of_fmap in H as (c & -> & Hc).
        exists c. split; [|reflexivity].
        unfold getContentTypeByBaseType in Hc.
        apply list_elem_of_In, filter_In in Hc as [Hc _].
        now apply list_elem_of_In.
      + right. left. left.
    - right. left. now right. }
  intros H. apply Hgen in H as [H|H]; [|exact H].
  simpl in H. now apply elem_of_nil in H.
Qed.


Lemma resolveAllowedTypes_safe v0 allowed restricted :
  (forall t, t ∈ default [] allowed -> getKeyName t ∈ K) ->
  safe mayThrow (composing registry v0) (resolveAllowedTypes registry allowed restricted)
       (fun l => forall t, t ∈ l -> getKeyName t ∈ K).
Proof.
  intros Hallowed. unfold resolveAllowedTypes.
  eapply safe_bind with
    (Q := fun baseline => forall t, t ∈ baseline -> getKeyName t ∈ K).
  - destruct (hasLength allowed).
    + now apply safe_ret.
    + eapply safe_bind; [apply getCachedContentTypes_safe|].
      intros cts ->. apply safe_ret.
      intros t Ht. apply list_elem_of_fmap in Ht as (c & -> & Hc).
      now apply registry_key_known.
  - intros baseline Hb. apply safe_ret. intros t Ht.
    apply resolveFrom_member in Ht as [Ht|(c & Hc & ->)]; [auto|].
    now apply registry_key_known.
Qed.

Lemma get_visited_safe v0 :
  safe mayThrow (composing registry v0) get_visited (fun _ => True).
Proof. intros st HI. simpl. auto. Qed.

Section Step.

Variable rec : string -> string -> bool -> bool -> M (list string).
Variable f : nat.
Hypothesis rec_safe :
  forall k s inc v0,
    k ∈ K -> s = "" \/ s = "Property" -> size (universe K ∖ v0) < f ->
    safe mayThrow (composing registry v0) (rec k s inc damEnabled) (fun _ => True).

Section Budget.

Variable v0 : gset string.
Hypothesis v0_budget : size (universe K ∖ v0) < f.

Lemma convertPropertyField_safe p :
  forall name rootName suffix,
    rootName ∈ K -> (forall k, k ∈ propertyKeys p -> k ∈ K) ->
    safe mayThrow (composing registry v0)
         (convertPropertyField registry rec name p rootName suffix damEnabled)
         (fun _ => True).
Proof.
  induction p as [t i Hna|items i IH] using property_array_ind;
    intros name rootName suffix Hroot Hkeys.
  - destruct t as [c|a r| | | | |items|s]; simpl;
      try (now apply safe_ret).
    + eapply safe_bind.
      * apply rec_safe; [|now right|exact v0_budget].
        apply Hkeys. simpl. left.
      * intros frags _. now apply safe_ret.
    + eapply safe_bind.
      * apply resolveAllowedTypes_safe. intros t Ht. apply Hkeys. simpl.
        apply list_elem_of_fmap. now exists t.
      * intros l Hl. eapply safe_bind.
        -- apply safe_foldM with (P := fun _ => True); [|exact Logic.I].
           intros [extra subfields] t Ht _. unfold contentStep.
           eapply safe_bind.
           ++ apply rec_safe; [|now left|exact v0_budget].
              case_bool_decide; [exact Hroot|now apply Hl].
           ++ intros frags _. now apply safe_ret.
        -- intros [extra subfields] _. now apply safe_ret.
    + exfalso. now apply (Hna items).
  - simpl. eapply safe_bind.
    + apply IH; [exact Hroot|exact Hkeys].
    + intros r _. now apply safe_ret.
Qed.

Lemma gatherProperties_safe props rootName suffix acc :
  rootName ∈ K ->
  (forall name p, (name, p) ∈ props -> forall k, k ∈ propertyKeys p -> k ∈ K) ->
  safe mayThrow (composing registry v0)
       (gatherProperties registry rec props rootName suffix damEnabled acc)
       (fun _ => True).
Proof.
  intros Hroot Hprops. unfold gatherProperties.
  apply safe_foldM with (P := fun _ => True); [|exact Logic.I].
  intros [[fs es] dam] [name p] Hin _. unfold gatherStep.
  destruct (isDisabled p); [now apply safe_ret|].
  eapply safe_bind.
  - apply convertPropertyField_safe; [exact Hroot|]. now apply (Hprops name p).
  - intros r _. now apply safe_ret.
Qed.

Lemma createExperienceFragments_safe :
  safe mayThrow (composing registry v0)
       (createExperienceFragments registry rec damEnabled) (fun _ => True).
Proof.
  unfold createExperienceFragments.
  eapply safe_bind; [apply getCachedContentTypes_safe|]. intros cts ->.
  eapply safe_bind; [apply get_visited_safe|]. intros v _.
  eapply safe_bind.
  - apply safe_foldM with (P := fun _ => True); [|exact Logic.I].
    intros extra n Hn _. unfold experienceStep. eapply safe_bind.
    + apply rec_safe; [|now left|exact v0_budget].
      apply list_elem_of_In, filter_In in Hn as [Hn _].
      apply in_map_iff in Hn as (c & <- & Hc).
      apply filter_In in Hc as [Hc _].
      now apply registry_key_known, list_elem_of_In.
    + intros frags _. now apply safe_ret.
  - intros extra _. now apply safe_ret.
Qed.

Lemma composeParts_safe name suffix inc :
  name ∈ K ->
  safe mayThrow (composing registry v0)
       (composeParts registry rec name suffix inc damEnabled) (fun _ => True).
Proof.
  intros Hname. unfold composeParts.
  destruct (isBaseType name) eqn:Hbase; [now apply safe_ret|].
  destruct (getContentType registry name) as [ct|] eqn:Hct.
  2:{ apply safe_throw. destruct closed_or_throw as [HT|Hcl]; [exact HT|].
      now destruct (Hcl name Hname Hbase). }
  apply getContentType_Some in Hct as [Hin Hkey].
  eapply safe_bind.
  - apply gatherProperties_safe; [exact Hname|].
    intros pname p Hp. now apply (property_keys_known ct pname p).
  - intros [[fs es] dam] _.
    destruct inc; simpl.
    + destruct (bool_decide (ct_baseType ct = "_experience")).
      * eapply safe_bind; [apply createExperienceFragments_safe|].
        intros ex _. now apply safe_ret.
      * now apply safe_ret.
    + destruct (bool_decide (ct_baseType ct = "_experience")).
      * eapply safe_bind; [apply createExperienceFragments_safe|].
        intros ex _. now apply safe_ret.
      * now apply safe_ret.
Qed.

End Budget.

Lemma universe_member k s :
  k ∈ K -> s = "" \/ s = "Property" -> k +:+ s ∈ universe K.
Proof.
  intros Hk Hs. unfold universe. apply elem_of_list_to_set.
  apply list_elem_of_In, in_flat_map. exists k.
  split; [now apply list_elem_of_In|].
  destruct Hs as [-> | ->]; simpl.
  - left. now rewrite string_app_nil_r.
  - right. now left.
Qed.

Lemma budget_step (U v : gset string) name :
  name ∈ U -> name ∉ v -> size (U ∖ v) < S f -> size (U ∖ ({[name]} ∪ v)) < f.
Proof.
  intros HU Hv Hsz.
  assert (U ∖ ({[name]} ∪ v) ⊂ U ∖ v) as Hsub by set_solver.
  apply subset_size in Hsub. lia.
Qed.

Lemma createFragment_body_safe name suffix inc st :
  name ∈ K -> (suffix = "" \/ suffix = "Property") ->
  visited st = ∅ \/ allContentTypes st = registry ->
  size (universe K ∖ visited st) < S f ->
  match createFragment_body registry rec name suffix inc damEnabled st with
  | Ok (_, st') => allContentTypes st' = registry /\ visited st ⊆ visited st'
  | Throw _ => mayThrow
  | OutOfFuel => False
  end.
Proof.
  intros Hname Hs Hpre Hsz. destruct st as [v cache]. simpl in *.
  unfold createFragment_body, bind at 1, get_visited. simpl.
  destruct (bool_decide (name +:+ suffix ∈ v)) eqn:Hvis.
  - simpl. split; [|reflexivity].
    apply bool_decide_eq_true_1 in Hvis.
    destruct Hpre as [-> |H]; [|exact H]. set_solver.
  - apply bool_decide_eq_false_1 in Hvis.
    set (v1 := {[name +:+ suffix]} ∪ v).
    assert (size (universe K ∖ v1) < f) as Hbudget.
    { apply budget_step; [now apply universe_member|exact Hvis|exact Hsz]. }
    pose proof (composeParts_safe v1 Hbudget name suffix inc Hname
                  (mkState v1 registry)) as Hsafe.
    assert (composing registry v1 (mkState v1 registry)) as HI by (split; reflexivity).
    specialize (Hsafe HI).
    assert (forall cache',
      cache' = registry ->
      match
        (let* _ := visited_add (name +:+ suffix) in
         let* (fs, es, dam) :=
           composeParts registry rec name suffix inc damEnabled in
         let es0 := if dam then DAM_ASSET_FRAGMENTS ++ es else es in
         ret (Js.uniq es0 ++ [fragmentText (name +:+ suffix) fs]))
          (mkState v cache')
      with
      | Ok (_, st') => allContentTypes st' = registry /\ v ⊆ visited st'
      | Throw _ => mayThrow
      | OutOfFuel => False
      end) as Hrest.
    { intros cache' ->. unfold bind, visited_add. simpl. fold v1.
      destruct (composeParts registry rec name suffix inc damEnabled
                  (mkState v1 registry)) as [[[[fs es] dam] st']| |];
        [|exact Hsafe|exact Hsafe].
      simpl. destruct Hsafe as [[Hc Hv] _]. split; [exact Hc|].
      subst v1. set_solver. }
    unfold bind at 1.
    destruct (bool_decide (size v = 0)) eqn:Hsize; simpl.
    + now apply Hrest.
    + apply Hrest. apply bool_decide_eq_false_1 in Hsize.
      destruct Hpre as [-> |H]; [|exact H].
      now rewrite size_empty in Hsize.
Qed.

End Step.

Lemma createFragment_safe fuel :
  forall k s inc v0,
    k ∈ K -> (s = "" \/ s = "Property") -> size (universe K ∖ v0) < fuel ->
    safe mayThrow (composing registry v0)
         (createFragment registry fuel k s inc damEnabled) (fun _ => True).
Proof.
  induction fuel as [|fuel IH]; intros k s inc v0 Hk Hs Hsz; [lia|].
  intros st [Hc Hv]. simpl.
  pose proof (createFragment_body_safe (createFragment registry fuel) fuel IH
                k s inc st Hk Hs (or_intror Hc)) as Hbody.
  assert (size (universe K ∖ visited st) < S fuel) as Hsz'.
  { assert (universe K ∖ visited st ⊆ universe K ∖ v0) as Hsub by set_solver.
    apply subseteq_size in Hsub. lia. }
  specialize (Hbody Hsz').
  destruct (createFragment_body registry (createFragment registry fuel) k s inc
              damEnabled st) as [[out st']| |]; [|exact Hbody|exact Hbody].
  destruct Hbody as [Hc' Hv']. repeat split; [exact Hc'|set_solver].
Qed.

End Termination.

Lemma size_list_to_set_le (l : list string) :
  size (list_to_set l : gset string) <= length l.
Proof.
  induction l as [|x l IH].
  - rewrite list_to_set_nil, size_empty. reflexivity.
  - rewrite list_to_set_cons, size_union_alt, size_singleton. simpl.
    assert (list_to_set l ∖ {[x]} ⊆ (list_to_set l : gset string)) as Hsub
      by (clear; set_solver).
    apply subseteq_size in Hsub. lia.
Qed.

Lemma universe_size K : size (universe K) <= 2 * length K.
Proof.
  unfold universe. etransitivity; [apply size_list_to_set_le|].
  induction K as [|k K IH]; simpl; lia.
Qed.

Lemma compositionKeys_known registry root k :
  k ∈ knownKeys registry -> k ∈ compositionKeys registry root.
Proof. intros H. now right. Qed.

Lemma createFragment_root_safe registry root damEnabled cache fuel (mayThrow : Prop) :
  mayThrow \/ closedSchema registry (compositionKeys registry root) ->
  fragmentFuel registry <= fuel ->
  match createFragment registry fuel root "" true damEnabled (mkState ∅ cache) with
  | Ok _ => True
  | Throw _ => mayThrow
  | OutOfFuel => False
  end.
Proof.
  intros Hcl Hfuel. unfold fragmentFuel in Hfuel.
  destruct fuel as [|fuel]; [lia|]. simpl.
  pose proof (createFragment_body_safe registry (compositionKeys registry root)
                (compositionKeys_known registry root) damEnabled mayThrow Hcl
                (createFragment registry fuel) fuel
                (createFragment_safe registry (compositionKeys registry root)
                   (compositionKeys_known registry root) damEnabled mayThrow Hcl fuel)
                root "" true (mkState ∅ cache)) as Hbody.
  simpl in Hbody.
  assert (size (universe (compositionKeys registry root) ∖ ∅) < S fuel) as Hsz.
  { pose proof (universe_size (compositionKeys registry root)) as Hu.
    assert (universe (compositionKeys registry root) ∖ ∅
            ⊆ universe (compositionKeys registry root)) as Hsub by (clear; set_solver).
    apply subseteq_size in Hsub. unfold compositionKeys in Hu at 2. simpl in Hu. lia. }
  specialize (Hbody ltac:(now left) ltac:(now left) ltac:(now left) Hsz).
  destruct (createFragment_body registry (createFragment registry fuel) root ""
              true damEnabled (mkState ∅ cache)) as [[out st']| |]; auto.
Qed.

(* ================================================================= *)
(** * What a composition emits                                        *)
(* ================================================================= *)

Lemma bind_Ok {A B} (c : M A) (k : A -> M B) st b st'' :
  bind c k st = Ok (b, st'') ->
  exists a st', c st = Ok (a, st') /\ k a st' = Ok (b, st'').
Proof.
  unfold bind. destruct (c st) as [[a st']| |]; try discriminate.
  intros H. now exists a, st'.
Qed.

Lemma ret_Ok {A} (a b : A) st st' : ret a st = Ok (b, st') -> a = b /\ st = st'.
Proof. unfold ret. intros H. injection H as -> ->. auto. Qed.

(** ** [new Set] *)

Lemma set_add_member s x y : y ∈ Js.set_add s x <-> y ∈ s \/ y = x.
Proof.
  unfold Js.set_add. destruct (decide (x ∈ s)) as [Hin|Hnin].
  - split; [auto|]. intros [H| ->]; auto.
  - rewrite elem_of_app, list_elem_of_singleton. reflexivity.
Qed.

Lemma foldl_set_add_member xs : forall s y,
  y ∈ foldl Js.set_add s xs <-> y ∈ s \/ y ∈ xs.
Proof.
  induction xs as [|x xs IH]; intros s y; simpl.
  - rewrite elem_of_nil. tauto.
  - rewrite IH, set_add_member, elem_of_cons. tauto.
Qed.

Lemma uniq_member xs y : y ∈ Js.uniq xs <-> y ∈ xs.
Proof.
  unfold Js.uniq. rewrite foldl_set_add_member, elem_of_nil. tauto.
Qed.

Lemma set_add_NoDup s x : NoDup s -> NoDup (Js.set_add s x).
Proof.
  unfold Js.set_add. intros Hs. destruct (decide (x ∈ s)); [exact Hs|].
  apply NoDup_app. split_and!; try reflexivity; [exact Hs| |apply NoDup_singleton].
  intros y Hy Hy'. apply list_elem_of_singleton in Hy'. now subst.
Qed.

Lemma uniq_NoDup xs : NoDup (Js.uniq xs).
Proof.
  unfold Js.uniq. assert (forall s, NoDup s -> NoDup (foldl Js.set_add s xs)) as H.
  { induction xs as [|x xs IH]; intros s Hs; simpl; [exact Hs|].
    apply IH. now apply set_add_NoDup. }
  apply H. constructor.
Qed.

(** ** Effects compose *)

Section Effects.

Variable registry : list AnyContentType.
Variable damEnabled : bool.
Variable R : Node.

Lemma effect_nil st : allContentTypes st = registry -> effect registry R st [] st.
Proof.
  intros Hc. unfold effect, nodeNames. simpl.
  split; [exact Hc|]. split; [set_solver|]. split; [apply NoDup_nil_2|].
  split; intros n Hn; now apply elem_of_nil in Hn.
Qed.

Lemma effect_mono st N st' : effect registry R st N st' -> visited st ⊆ visited st'.
Proof. intros (_ & Hv & _). rewrite Hv. set_solver. Qed.

Lemma effect_cache st N st' : effect registry R st N st' -> allContentTypes st' = registry.
Proof. now intros (Hc & _). Qed.

Lemma nodeNames_member x N : x ∈ nodeNames N <-> exists n, n ∈ N /\ nodeName n = x.
Proof.
  unfold nodeNames. rewrite elem_of_list_to_set, list_elem_of_fmap.
  split; intros (n & H1 & H2); exists n; auto.
Qed.

Lemma nodeNames_app N1 N2 : nodeNames (N1 ++ N2) = nodeNames N1 ∪ nodeNames N2.
Proof. unfold nodeNames. rewrite map_app, list_to_set_app_L. reflexivity. Qed.

Lemma effect_app st N1 st1 N2 st2 :
  effect registry R st N1 st1 -> effect registry R st1 N2 st2 ->
  effect registry R st (N1 ++ N2) st2.
Proof.
  intros (Hc1 & Hv1 & Hd1 & Hf1 & Hr1) (Hc2 & Hv2 & Hd2 & Hf2 & Hr2).
  unfold effect. split; [exact Hc2|]. split.
  { rewrite Hv2, Hv1, nodeNames_app. set_solver. }
  split.
  { rewrite map_app. apply NoDup_app. split; [exact Hd1|]. split; [|exact Hd2].
    intros x Hx1 Hx2. apply list_elem_of_fmap in Hx2 as (n2 & -> & Hn2).
    apply (Hf2 n2 Hn2). rewrite Hv1. apply elem_of_union_r.
    unfold nodeNames. now apply elem_of_list_to_set. }
  split.
  { intros n Hn. apply elem_of_app in Hn as [Hn|Hn]; [now apply Hf1|].
    intros Hin. apply (Hf2 n Hn). rewrite Hv1. now apply elem_of_union_l. }
  intros n Hn. apply elem_of_app in Hn as [Hn|Hn].
  - destruct (Hr1 n Hn) as [Hre Hs]. split; [exact Hre|].
    intros n' Hn'. rewrite Hv2. apply elem_of_union_l. now apply Hs.
  - now apply Hr2.
Qed.

Lemma covers_nil : covers registry damEnabled [] [] [].
Proof.
  intros s. split.
  - intros H. now apply elem_of_nil in H.
  - intros [H|(n & H & _)]; now apply elem_of_nil in H.
Qed.

Lemma covers_app N1 own1 out1 N2 own2 out2 :
  covers registry damEnabled N1 own1 out1 ->
  covers registry damEnabled N2 own2 out2 ->
  covers registry damEnabled (N1 ++ N2) (own1 ++ own2) (out1 ++ out2).
Proof.
  intros H1 H2 s. rewrite !elem_of_app, (H1 s), (H2 s). split.
  - intros [[H|(n & Hn & Hs)]|[H|(n & Hn & Hs)]]; auto;
      right; exists n; rewrite elem_of_app; auto.
  - intros [[H|H]|(n & Hn & Hs)]; auto.
    apply elem_of_app in Hn as [Hn|Hn]; [left|right]; right; now exists n.
Qed.

Lemma covers_uniq N own out :
  covers registry damEnabled N own out ->
  covers registry damEnabled N own (Js.uniq out).
Proof. intros H s. rewrite uniq_member. apply H. Qed.

Lemma covers_self own : covers registry damEnabled [] own own.
Proof.
  intros s. split; [auto|]. intros [H|(n & Hn & _)]; [exact H|].
  now apply elem_of_nil in Hn.
Qed.

Lemma covers_out N own out out' :
  (forall s, s ∈ out <-> s ∈ out') ->
  covers registry damEnabled N own out -> covers registry damEnabled N own out'.
Proof. intros Ho H s. rewrite <- (Ho s). apply H. Qed.

Lemma covers_own N own own' out :
  (forall s, s ∈ own <-> s ∈ own') ->
  covers registry damEnabled N own out -> covers registry damEnabled N own' out.
Proof. intros Ho H s. rewrite (H s), (Ho s). reflexivity. Qed.

End Effects.

Section Emits.

Variable registry : list AnyContentType.
Variable damEnabled : bool.
Variable R : Node.

Lemma getCachedContentTypes_Ok st :
  allContentTypes st = registry ->
  getCachedContentTypes registry st = Ok (registry, st).
Proof.
  destruct st as [v cache]. simpl. intros ->.
  unfold getCachedContentTypes, getAllContentTypes. simpl.
  destruct registry; reflexivity.
Qed.

Lemma resolveAllowedTypes_Ok allowed restricted st l st' :
  allContentTypes st = registry ->
  resolveAllowedTypes registry allowed restricted st = Ok (l, st') ->
  l = resolved registry allowed restricted /\ st' = st.
Proof.
  intros Hc. unfold resolveAllowedTypes, resolved.
  destruct (hasLength allowed); intros H.
  - apply bind_Ok in H as (b & st1 & H1 & H2).
    apply ret_Ok in H1 as [<- <-]. apply ret_Ok in H2 as [<- <-]. auto.
  - apply bind_Ok in H as (b & st1 & H1 & H2).
    apply bind_Ok in H1 as (cts & st2 & H3 & H4).
    rewrite (getCachedContentTypes_Ok st Hc) in H3. injection H3 as <- <-.
    apply ret_Ok in H4 as [<- <-]. apply ret_Ok in H2 as [<- <-]. auto.
Qed.

Section Step.

Variable rec : string -> string -> bool -> bool -> M (list string).
Hypothesis rec_spec :
  forall k m st out st',
    Reach registry R (k, m) -> allContentTypes st = registry ->
    rec k (suffixOf m) (includeBaseOf m) damEnabled st = Ok (out, st') ->
    composesNode registry damEnabled R k m st out st'.

Lemma contentLoop_spec rootName ts :
  forall st e0 s0 e s st',
    allContentTypes st = registry ->
    (forall t, t ∈ ts -> Reach registry R (selfKey rootName (getKeyName t), Direct)) ->
    foldM (contentStep rec rootName damEnabled) ts (e0, s0) st = Ok ((e, s), st') ->
    exists N new,
      effect registry R st N st'
      /\ e = e0 ++ new
      /\ covers registry damEnabled N [] new
      /\ s = s0 ++ map (fun t => "..." +:+ selfKey rootName (getKeyName t)) ts
      /\ forall t, t ∈ ts ->
           nodeName (selfKey rootName (getKeyName t), Direct) ∈ visited st'.
Proof.
  induction ts as [|t ts IH]; intros st e0 s0 e s st' Hc Hreach H.
  - apply ret_Ok in H as [H <-]. injection H as <- <-.
    exists [], []. rewrite !app_nil_r.
    split_and!; try reflexivity; [now apply effect_nil|apply covers_nil|].
    intros t Ht. now apply elem_of_nil in Ht.
  - simpl in H. apply bind_Ok in H as ([e1 s1] & st1 & H1 & H2).
    unfold contentStep in H1.
    apply bind_Ok in H1 as (frags & st1' & Hrec & Hret).
    apply ret_Ok in Hret as [Hret <-]. injection Hret as <- <-.
    apply (rec_spec _ Direct) in Hrec as (N1 & Heff1 & Hcov1 & Hvis1 & _);
      [|apply Hreach; left|exact Hc].
    apply IH in H2 as (N2 & new2 & Heff2 & -> & Hcov2 & -> & Hvis2);
      [|exact (effect_cache _ _ _ _ _ Heff1)|intros t' Ht'; apply Hreach; now right].
    exists (N1 ++ N2), (frags ++ new2).
    split; [exact (effect_app _ _ _ _ _ _ _ Heff1 Heff2)|].
    split; [now rewrite app_assoc|].
    split; [exact (covers_app _ _ _ _ _ _ _ _ Hcov1 Hcov2)|].
    split; [simpl; now rewrite <- app_assoc|].
    intros t' Ht'. apply elem_of_cons in Ht' as [-> |Ht'].
    + apply (effect_mono _ _ _ _ _ Heff2). exact Hvis1.
    + now apply Hvis2.
Qed.

Lemma covers_own_uniq own :
  covers registry damEnabled [] own (Js.uniq own).
Proof.
  intros s. rewrite uniq_member. split; [auto|].
  intros [H|(n & Hn & _)]; [exact H|]. now apply elem_of_nil in Hn.
Qed.

Lemma convertPropertyField_spec p :
  forall name rootName suffix st r st',
    allContentTypes st = registry ->
    (forall n, n ∈ propertyTargets registry rootName p -> Reach registry R n) ->
    convertPropertyField registry rec name p rootName suffix damEnabled st
      = Ok (r, st') ->
    exists N,
      effect registry R st N st'
      /\ fields r = propertyFields registry rootName suffix damEnabled name p
      /\ includesDamAssetsFragments r = damEnabled && isContentReference p
      /\ covers registry damEnabled N (propertyOwnFragments p) (extraFragments r)
      /\ forall n, n ∈ propertyTargets registry rootName p ->
           nodeName n ∈ visited st'.
Proof.
  induction p as [t i Hna|items i IH] using property_array_ind;
    intros name rootName suffix st r st' Hc Hreach H.
  - destruct t as [c|a rs| | | | |items|ty]; simpl in H.
    + apply bind_Ok in H as (frags & st1 & Hrec & Hret).
      apply ret_Ok in Hret as [<- <-].
      apply (rec_spec _ Embedded) in Hrec as (N & Heff & Hcov & Hvis & _);
        [|apply Hreach; simpl; left|exact Hc].
      exists N. simpl. rewrite andb_false_r.
      split_and!; try reflexivity; [exact Heff|now apply covers_uniq|].
      intros n Hn. apply list_elem_of_singleton in Hn as ->. exact Hvis.
    + apply bind_Ok in H as (l & st1 & Hres & H).
      apply (resolveAllowedTypes_Ok _ _ _ _ _ Hc) in Hres as [-> ->].
      apply bind_Ok in H as ([e s] & st2 & Hloop & Hret).
      apply ret_Ok in Hret as [<- <-].
      apply contentLoop_spec in Hloop
        as (N & new & Heff & -> & Hcov & -> & Hvis); [|exact Hc|].
      2:{ intros t Ht. apply Hreach. simpl.
          apply list_elem_of_fmap. now exists t. }
      exists N. simpl. rewrite andb_false_r.
      split_and!; try reflexivity; [exact Heff|now apply covers_uniq|].
      intros n Hn. simpl in Hn.
      apply list_elem_of_fmap in Hn as (t & -> & Ht). now apply Hvis.
    + apply ret_Ok in H as [<- <-]. exists []. simpl. rewrite andb_false_r.
      split_and!; try reflexivity; [now apply effect_nil|apply covers_nil|].
      intros n Hn. now apply elem_of_nil in Hn.
    + apply ret_Ok in H as [<- <-]. exists []. simpl. rewrite andb_false_r.
      split_and!; try reflexivity; [now apply effect_nil|apply covers_own_uniq|].
      intros n Hn. now apply elem_of_nil in Hn.
    + apply ret_Ok in H as [<- <-]. exists []. simpl. rewrite andb_false_r.
      split_and!; try reflexivity; [now apply effect_nil|apply covers_own_uniq|].
      intros n Hn. now apply elem_of_nil in Hn.
    + apply ret_Ok in H as [<- <-]. exists []. simpl. rewrite andb_true_r.
      split_and!; try reflexivity; [now apply effect_nil|apply covers_own_uniq|].
      intros n Hn. now apply elem_of_nil in Hn.
    + exfalso. now apply (Hna items).
    + apply ret_Ok in H as [<- <-]. exists []. simpl. rewrite andb_false_r.
      split_and!; try reflexivity; [now apply effect_nil|apply covers_nil|].
      intros n Hn. now apply elem_of_nil in Hn.
  - simpl in H. apply bind_Ok in H as (f & st1 & Hrec & Hret).
    apply ret_Ok in Hret as [<- <-].
    apply IH in Hrec as (N & Heff & Hf & Hd & Hcov & Hvis); [|exact Hc|exact Hreach].
    exists N. simpl.
    split_and!; try reflexivity; [exact Heff|exact Hf|exact Hd|now apply covers_uniq|exact Hvis].
Qed.

Lemma gatherProperties_spec rootName suffix props :
  forall st fs0 es0 d0 fs es d st',
    allContentTypes st = registry ->
    (forall np n, np ∈ enabledOnly props ->
       n ∈ propertyTargets registry rootName (snd np) -> Reach registry R n) ->
    gatherProperties registry rec props rootName suffix damEnabled (fs0, es0, d0) st
      = Ok ((fs, es, d), st') ->
    exists N new,
      effect registry R st N st'
      /\ fs = fs0 ++ flat_map (fun np => propertyFields registry rootName suffix
                                          damEnabled (fst np) (snd np))
                              (enabledOnly props)
      /\ es = es0 ++ new
      /\ covers registry damEnabled N
           (flat_map (fun np => propertyOwnFragments (snd np)) (enabledOnly props)) new
      /\ d = d0 || (damEnabled
                    && existsb (fun np => isContentReference (snd np)) (enabledOnly props))
      /\ forall np n, np ∈ enabledOnly props ->
           n ∈ propertyTargets registry rootName (snd np) ->
           nodeName n ∈ visited st'.
Proof.
  unfold gatherProperties.
  induction props as [|[pname p] props IH]; intros st fs0 es0 d0 fs es d st' Hc Hreach H.
  - apply ret_Ok in H as [H <-]. injection H as <- <- <-.
    exists [], []. simpl. rewrite !app_nil_r, andb_false_r, orb_false_r.
    split_and!; try reflexivity; [now apply effect_nil|apply covers_nil|].
    intros np n Hnp. now apply elem_of_nil in Hnp.
  - simpl in H. apply bind_Ok in H as ([[fs1 es1] d1] & st1 & Hstep & Hrest).
    unfold gatherStep in Hstep. unfold enabledOnly in *. simpl in *.
    destruct (isDisabled p) eqn:Hdis; simpl in *.
    + apply ret_Ok in Hstep as [Hstep <-]. injection Hstep as <- <- <-.
      now apply IH in Hrest.
    + apply bind_Ok in Hstep as (r & st1' & Hconv & Hret).
      apply ret_Ok in Hret as [Hret <-]. injection Hret as <- <- <-.
      apply convertPropertyField_spec in Hconv
        as (N1 & Heff1 & Hf1 & Hd1 & Hcov1 & Hvis1); [|exact Hc|].
      2:{ intros n Hn. apply (Hreach (pname, p)); [left|exact Hn]. }
      apply IH in Hrest
        as (N2 & new2 & Heff2 & -> & -> & Hcov2 & -> & Hvis2);
        [|exact (effect_cache _ _ _ _ _ Heff1)|].
      2:{ intros np n Hnp Hn. apply (Hreach np); [now right|exact Hn]. }
      exists (N1 ++ N2), (extraFragments r ++ new2).
      split; [exact (effect_app _ _ _ _ _ _ _ Heff1 Heff2)|].
      split; [now rewrite Hf1, app_assoc|].
      split; [now rewrite app_assoc|].
      split; [exact (covers_app _ _ _ _ _ _ _ _ Hcov1 Hcov2)|].
      split.
      { rewrite Hd1. destruct d0, damEnabled, (isContentReference p); reflexivity. }
      intros np n Hnp Hn. apply elem_of_cons in Hnp as [-> |Hnp].
      * apply (effect_mono _ _ _ _ _ Heff2). now apply Hvis1.
      * now apply (Hvis2 np).
Qed.

Lemma experienceLoop_spec todo :
  forall st e0 e st',
    allContentTypes st = registry ->
    (forall k, k ∈ todo -> Reach registry R (k, Direct)) ->
    foldM (experienceStep rec damEnabled) todo e0 st = Ok (e, st') ->
    exists N new,
      effect registry R st N st'
      /\ e = e0 ++ new
      /\ covers registry damEnabled N [] new
      /\ forall k, k ∈ todo -> nodeName (k, Direct) ∈ visited st'.
Proof.
  induction todo as [|k todo IH]; intros st e0 e st' Hc Hreach H.
  - apply ret_Ok in H as [<- <-]. exists [], []. rewrite app_nil_r.
    split_and!; try reflexivity; [now apply effect_nil|apply covers_nil|].
    intros k Hk. now apply elem_of_nil in Hk.
  - simpl in H. apply bind_Ok in H as (e1 & st1 & Hstep & Hrest).
    unfold experienceStep in Hstep.
    apply bind_Ok in Hstep as (frags & st1' & Hrec & Hret).
    apply ret_Ok in Hret as [<- <-].
    apply (rec_spec _ Direct) in Hrec as (N1 & Heff1 & Hcov1 & Hvis1 & _);
      [|apply Hreach; left|exact Hc].
    apply IH in Hrest as (N2 & new2 & Heff2 & -> & Hcov2 & Hvis2);
      [|exact (effect_cache _ _ _ _ _ Heff1)|intros k' Hk'; apply Hreach; now right].
    exists (N1 ++ N2), (frags ++ new2).
    split; [exact (effect_app _ _ _ _ _ _ _ Heff1 Heff2)|].
    split; [now rewrite app_assoc|].
    split; [exact (covers_app _ _ _ _ _ _ _ _ Hcov1 Hcov2)|].
    intros k' Hk'. apply elem_of_cons in Hk' as [-> |Hk'].
    + apply (effect_mono _ _ _ _ _ Heff2). exact Hvis1.
    + now apply Hvis2.
Qed.

Lemma createExperienceFragments_spec st ex st' :
  allContentTypes st = registry ->
  (forall k, k ∈ experienceNodes registry -> Reach registry R (k, Direct)) ->
  createExperienceFragments registry rec damEnabled st = Ok (ex, st') ->
  exists N,
    effect registry R st N st'
    /\ covers registry damEnabled N (fixedFragments ++ [componentFragment registry]) ex
    /\ forall k, k ∈ experienceNodes registry -> nodeName (k, Direct) ∈ visited st'.
Proof.
  intros Hc Hreach H. unfold createExperienceFragments in H.
  apply bind_Ok in H as (cts & st1 & Hcache & H).
  rewrite (getCachedContentTypes_Ok st Hc) in Hcache. injection Hcache as <- <-.
  apply bind_Ok in H as (v & st1 & Hv & H).
  unfold get_visited in Hv. injection Hv as <- <-.
  apply bind_Ok in H as (extra & st2 & Hloop & Hret).
  apply ret_Ok in Hret as [<- <-].
  apply experienceLoop_spec in Hloop as (N & new & Heff & -> & Hcov & Hvis);
    [|exact Hc|].
  2:{ intros k Hk. apply Hreach.
      apply list_elem_of_In, filter_In in Hk as [Hk _]. now apply list_elem_of_In. }
  exists N. split; [exact Heff|]. split.
  - intros s. fold (experienceNodes registry). fold (componentFragment registry).
    rewrite !elem_of_app, (Hcov s).
    pose proof (elem_of_nil s) as Hnil. tauto.
  - intros k Hk.
    destruct (decide (k ∈ visited st)) as [Hin|Hnin].
    + apply (effect_mono _ _ _ _ _ Heff). unfold nodeName. simpl.
      now rewrite string_app_nil_r.
    + apply Hvis. apply list_elem_of_In, filter_In. split.
      * now apply list_elem_of_In.
      * now rewrite bool_decide_eq_false_2.
Qed.

Lemma successors_registered k m ct :
  isBaseType k = false -> getContentType registry k = Some ct ->
  successors registry (k, m)
  = flat_map (fun np => propertyTargets registry k (snd np)) (enabledProperties ct)
    ++ (if bool_decide (ct_baseType ct = "_experience")
        then map (fun k' => (k', Direct)) (experienceNodes registry) else []).
Proof. intros Hb Hct. unfold successors. simpl. now rewrite Hb, Hct. Qed.

Lemma composeParts_spec k m st fs es d st' :
  Reach registry R (k, m) -> allContentTypes st = registry ->
  composeParts registry rec k (suffixOf m) (includeBaseOf m) damEnabled st
    = Ok ((fs, es, d), st') ->
  exists N,
    effect registry R st N st'
    /\ fs = nodeFields registry damEnabled (k, m)
    /\ covers registry damEnabled N (nodeLibrary registry damEnabled (k, m))
         (if d then DAM_ASSET_FRAGMENTS ++ es else es)
    /\ forall n', n' ∈ successors registry (k, m) -> nodeName n' ∈ visited st'.
Proof.
  intros Hreach Hc H. unfold composeParts in H.
  unfold nodeFields, nodeLibrary. simpl fst. simpl snd.
  destruct (isBaseType k) eqn:Hb.
  - simpl in H. apply ret_Ok in H as [H <-]. injection H as <- <- <-.
    exists []. split_and!; try reflexivity;
      [now apply effect_nil|apply covers_self|].
    intros n' Hn'. unfold successors in Hn'. simpl in Hn'. rewrite Hb in Hn'.
    now apply elem_of_nil in Hn'.
  - destruct (getContentType registry k) as [ct|] eqn:Hct; [|discriminate].
    rewrite (successors_registered k m ct Hb Hct).
    apply bind_Ok in H as ([[fs1 es1] d1] & st1 & Hg & H).
    apply gatherProperties_spec in Hg
      as (N1 & new & Heff1 & -> & -> & Hcov1 & -> & Hvis1); [|exact Hc|].
    2:{ intros np n Hnp Hn. apply (Reach_step _ _ (k, m)); [exact Hreach|].
        rewrite (successors_registered k m ct Hb Hct).
        apply elem_of_app. left. apply list_elem_of_In, in_flat_map.
        exists np. split; now apply list_elem_of_In. }
    fold (enabledProperties ct) in *. fold (hasContentReference ct) in *.
    simpl orb in *. simpl app in Hcov1.
    assert (forall n', n' ∈ flat_map (fun np => propertyTargets registry k (snd np))
                             (enabledProperties ct) ->
                       nodeName n' ∈ visited st1) as Hvis1'.
    { intros n' Hn'. apply list_elem_of_In, in_flat_map in Hn' as (np & Hnp & Hn').
      apply (Hvis1 np); now apply list_elem_of_In. }
    set (Ldam := if damEnabled && hasContentReference ct
                 then DAM_ASSET_FRAGMENTS else []).
    set (Lc := if includeBaseOf m then COMMON_FRAGMENTS else []).
    pose proof (covers_self registry damEnabled Ldam) as Cdam.
    pose proof (covers_self registry damEnabled Lc) as Cc.
    destruct (bool_decide (ct_baseType ct = "_experience")) eqn:Hexp.
    + assert (exists ex st2,
                createExperienceFragments registry rec damEnabled st1 = Ok (ex, st2)
                /\ st' = st2
                /\ fs = (["__typename"]
                         ++ flat_map (fun np => propertyFields registry k (suffixOf m)
                                                  damEnabled (fst np) (snd np))
                                     (enabledProperties ct)
                         ++ (if includeBaseOf m then [COMMON_FIELDS] else []))
                        ++ ["..._IExperience"]
                /\ es = (Lc ++ new) ++ ex
                /\ d = damEnabled && hasContentReference ct) as Hex.
      { destruct m; simpl in H;
          apply bind_Ok in H as (ex & st2 & Hex & Hret);
          apply ret_Ok in Hret as [Hret <-]; injection Hret as <- <- <-;
          eexists ex, _; split_and!; try reflexivity; try exact Hex;
          try (rewrite <- ?app_assoc, ?app_nil_r; reflexivity). }
      destruct Hex as (ex & st2 & Hex & -> & -> & -> & ->).
      apply createExperienceFragments_spec in Hex as (N2 & Heff2 & Hcov2 & Hvis2);
        [|exact (effect_cache _ _ _ _ _ Heff1)|].
      2:{ intros k' Hk'. apply (Reach_step _ _ (k, m)); [exact Hreach|].
          rewrite (successors_registered k m ct Hb Hct), Hexp.
          apply elem_of_app. right. apply list_elem_of_fmap. now exists k'. }
      exists (N1 ++ N2).
      split; [exact (effect_app _ _ _ _ _ _ _ Heff1 Heff2)|].
      split; [now rewrite <- !app_assoc|].
      split.
      * pose proof (covers_app _ _ _ _ _ _ _ _ Cdam
                      (covers_app _ _ _ _ _ _ _ _ Cc
                         (covers_app _ _ _ _ _ _ _ _ Hcov1 Hcov2))) as Hall.
        simpl app in Hall. eapply covers_out; [|exact Hall].
        intros s. subst Ldam. destruct (damEnabled && hasContentReference ct);
          rewrite ?elem_of_app; pose proof (elem_of_nil s); tauto.
      * intros n' Hn'. apply elem_of_app in Hn' as [Hn'|Hn'].
        -- apply (effect_mono _ _ _ _ _ Heff2). now apply Hvis1'.
        -- apply list_elem_of_fmap in Hn' as (k' & -> & Hk'). now apply Hvis2.
    + assert (st' = st1
              /\ fs = ["__typename"]
                      ++ flat_map (fun np => propertyFields registry k (suffixOf m)
                                               damEnabled (fst np) (snd np))
                                  (enabledProperties ct)
                      ++ (if includeBaseOf m then [COMMON_FIELDS] else [])
              /\ es = Lc ++ new
              /\ d = damEnabled && hasContentReference ct) as Hex.
      { destruct m; simpl in H;
          apply ret_Ok in H as [Hret <-]; injection Hret as <- <- <-;
          split_and!; try reflexivity;
          try (rewrite <- ?app_assoc, ?app_nil_r; reflexivity). }
      destruct Hex as (-> & -> & -> & ->).
      exists N1. split; [exact Heff1|].
      split; [now rewrite !app_nil_r|].
      split.
      * pose proof (covers_app _ _ _ _ _ _ _ _ Cdam
                      (covers_app _ _ _ _ _ _ _ _ Cc Hcov1)) as Hall.
        simpl app in Hall. rewrite app_nil_r.
        eapply covers_out; [|exact Hall].
        intros s. subst Ldam. destruct (damEnabled && hasContentReference ct);
          rewrite ?elem_of_app; pose proof (elem_of_nil s); tauto.
      * intros n' Hn'. rewrite app_nil_r in Hn'. now apply Hvis1'.
Qed.

Lemma createFragment_body_spec k m st out st' :
  Reach registry R (k, m) ->
  visited st = ∅ \/ allContentTypes st = registry ->
  createFragment_body registry rec k (suffixOf m) (includeBaseOf m) damEnabled st
    = Ok (out, st') ->
  composesNode registry damEnabled R k m st out st'.
Proof.
  intros Hreach Hpre H. destruct st as [v cache]. simpl in Hpre.
  unfold createFragment_body in H.
  apply bind_Ok in H as (v' & st0 & Hv & H).
  unfold get_visited in Hv. simpl in Hv. injection Hv as <- <-.
  change (k +:+ suffixOf m) with (nodeName (k, m)) in H.
  destruct (bool_decide (nodeName (k, m) ∈ v)) eqn:Hvis.
  - apply bool_decide_eq_true_1 in Hvis.
    apply ret_Ok in H as [<- <-].
    assert (cache = registry) as ->.
    { destruct Hpre as [-> |Hc]; [|exact Hc]. set_solver. }
    exists []. split_and!; [now apply effect_nil|apply covers_nil|exact Hvis|now left].
  - apply bool_decide_eq_false_1 in Hvis.
    apply bind_Ok in H as (u & st1 & Hrefresh & H).
    assert (st1 = mkState v registry) as ->.
    { destruct (bool_decide (size v = 0)) eqn:Hsz.
      - unfold refreshCache in Hrefresh. simpl in Hrefresh. now injection Hrefresh as _ <-.
      - apply ret_Ok in Hrefresh as [_ <-].
        apply bool_decide_eq_false_1 in Hsz.
        destruct Hpre as [-> |Hc]; [now rewrite size_empty in Hsz|now rewrite Hc]. }
    apply bind_Ok in H as (u' & st2 & Hadd & H).
    unfold visited_add in Hadd. simpl in Hadd. injection Hadd as _ <-.
    apply bind_Ok in H as ([[fs es] d] & st3 & Hparts & Hret).
    apply ret_Ok in Hret as [<- <-].
    apply composeParts_spec in Hparts as (N & Heff & -> & Hcov & Hsucc);
      [|exact Hreach|reflexivity].
    destruct Heff as (Hc3 & Hv3 & Hnd & Hfresh & Hnodes). simpl in Hv3, Hfresh.
    exists ((k, m) :: N). split_and!.
    + unfold effect. simpl. split_and!.
      * exact Hc3.
      * rewrite Hv3. unfold nodeNames. simpl. set_solver.
      * constructor; [|exact Hnd].
        intros Hin. apply list_elem_of_fmap in Hin as (n & Hname & Hn).
        apply (Hfresh n Hn). rewrite <- Hname. set_solver.
      * intros n Hn. apply elem_of_cons in Hn as [-> |Hn]; [exact Hvis|].
        intros Hin. apply (Hfresh n Hn). set_solver.
      * intros n Hn. apply elem_of_cons in Hn as [-> |Hn]; [|now apply Hnodes].
        split; [exact Hreach|exact Hsucc].
    + intros s. rewrite elem_of_app, uniq_member, (Hcov s), list_elem_of_singleton.
      unfold nodeStrings. split.
      * intros [[Hs|(n & Hn & Hs)]| ->].
        -- right. exists (k, m). split; [left|]. apply elem_of_app. now left.
        -- right. exists n. split; [now right|exact Hs].
        -- right. exists (k, m). split; [left|]. apply elem_of_app. right. left.
      * intros [Hs|(n & Hn & Hs)]; [now apply elem_of_nil in Hs|].
        apply elem_of_cons in Hn as [-> |Hn].
        -- apply elem_of_app in Hs as [Hs|Hs]; [auto|].
           right. now apply list_elem_of_singleton in Hs.
        -- left. right. now exists n.
    + rewrite Hv3. set_solver.
    + right. eexists. reflexivity.
Qed.

End Step.

Lemma createFragment_composes fuel :
  forall k m st out st',
    Reach registry R (k, m) ->
    visited st = ∅ \/ allContentTypes st = registry ->
    createFragment registry fuel k (suffixOf m) (includeBaseOf m) damEnabled st
      = Ok (out, st') ->
    composesNode registry damEnabled R k m st out st'.
Proof.
  induction fuel as [|fuel IH]; intros k m st out st' Hreach Hpre H;
    [discriminate|].
  simpl in H. eapply createFragment_body_spec; [|exact Hreach|exact Hpre|exact H].
  intros k' m' st1 out1 st1' Hr Hc Hrec. apply IH; [exact Hr|now right|exact Hrec].
Qed.

End Emits.


(* ================================================================= *)
(** * Indexing-disabled properties                                    *)
(* ================================================================= *)

Lemma propertyFields_nonempty registry rootName suffix damEnabled name p :
  propertyFields registry rootName suffix damEnabled name p <> [].
Proof.
  induction p as [t i Hna|items i IH] using property_array_ind.
  - destruct t; simpl; try discriminate. exfalso. now apply (Hna items).
  - exact IH.
Qed.

Lemma nodeStrings_nonempty registry damEnabled n :
  nodeStrings registry damEnabled n <> [].
Proof. unfold nodeStrings. now destruct (nodeLibrary registry damEnabled n). Qed.

Lemma composesNode_fragment registry damEnabled R k m st out st' :
  nodeName (k, m) ∉ visited st ->
  composesNode registry damEnabled R k m st out st' ->
  exists es, out = Js.uniq es ++ [nodeFragment registry damEnabled (k, m)].
Proof.
  intros Hfresh (N & Heff & Hcov & Hvis & [-> |Hshape]); [|exact Hshape].
  exfalso. destruct Heff as (_ & Hv & _).
  destruct N as [|n N].
  - apply Hfresh. rewrite Hv in Hvis. unfold nodeNames in Hvis. simpl in Hvis.
    set_solver.
  - pose proof (nodeStrings_nonempty registry damEnabled n) as Hne.
    destruct (nodeStrings registry damEnabled n) as [|s ss] eqn:Hs; [now apply Hne|].
    assert (s ∈ @nil string) as Hin.
    { apply (Hcov s). right. exists n. split; [left|]. rewrite Hs. left. }
    now apply elem_of_nil in Hin.
Qed.

(** C6. In the fragment composed for a registered content type, every
    field other than the fixed ones is a field of a property that is not
    indexing-disabled, and every property that is not disabled contributes
    its fields. *)
Theorem disabled_properties_excluded registry fuel key m damEnabled st out st' ct :
  isBaseType key = false ->
  getContentType registry key = Some ct ->
  key +:+ suffixOf m ∉ visited st ->
  visited st = ∅ \/ allContentTypes st = registry ->
  createFragment registry fuel key (suffixOf m) (includeBaseOf m) damEnabled st
    = Ok (out, st') ->
  exists es fs,
    out = Js.uniq es ++ [fragmentText (key +:+ suffixOf m) fs]
    /\ (forall name p,
          (name, p) ∈ default [] (ct_properties ct) -> isDisabled p = false ->
          propertyFields registry key (suffixOf m) damEnabled name p <> []
          /\ forall f, f ∈ propertyFields registry key (suffixOf m) damEnabled name p ->
                       f ∈ Js.uniq fs)
    /\ (forall f, f ∈ Js.uniq fs ->
          f ∈ ["__typename"; "..._IContent"; "..._IExperience"]
          \/ exists name p,
               (name, p) ∈ default [] (ct_properties ct)
               /\ isDisabled p = false
               /\ f ∈ propertyFields registry key (suffixOf m) damEnabled name p).
Proof.
  intros Hb Hct Hfresh Hpre H.
  apply (createFragment_composes registry damEnabled (key, m)) in H;
    [|apply Reach_root|exact Hpre].
  apply composesNode_fragment in H as (es & ->); [|exact Hfresh].
  exists es, (nodeFields registry damEnabled (key, m)).
  split; [reflexivity|].
  unfold nodeFields. simpl fst. simpl snd. rewrite Hb, Hct.
  split.
  - intros name p Hin Hen. split; [apply propertyFields_nonempty|].
    intros f Hf. rewrite uniq_member. right. apply elem_of_app. left.
    apply list_elem_of_In, in_flat_map. exists (name, p). split.
    + unfold enabledProperties. apply filter_In. split.
      * now apply list_elem_of_In.
      * simpl. now rewrite Hen.
    + now apply list_elem_of_In.
  - intros f Hf. rewrite uniq_member in Hf.
    apply elem_of_cons in Hf as [-> |Hf]; [left; left|].
    apply elem_of_app in Hf as [Hf|Hf].
    + right. apply list_elem_of_In, in_flat_map in Hf as ([name p] & Hin & Hf).
      unfold enabledProperties in Hin. apply filter_In in Hin as [Hin Hen].
      exists name, p. split_and!.
      * now apply list_elem_of_In.
      * simpl in Hen. now destruct (isDisabled p).
      * now apply list_elem_of_In.
    + left. apply elem_of_app in Hf as [Hf|Hf].
      * destruct (includeBaseOf m); [|now apply elem_of_nil in Hf].
        apply list_elem_of_singleton in Hf as ->. right. left.
      * destruct (bool_decide (ct_baseType ct = "_experience"));
          [|now apply elem_of_nil in Hf].
        apply list_elem_of_singleton in Hf as ->. right. right. left.
Qed.


(* ================================================================= *)
(** * A composition from a fresh visited set                          *)
(* ================================================================= *)

Lemma root_composition registry damEnabled root cache fuel out st' :
  createFragment registry fuel root "" true damEnabled (mkState ∅ cache)
    = Ok (out, st') ->
  exists N,
    NoDup (map nodeName N)
    /\ (forall n, n ∈ N -> Reach registry (root, Direct) n)
    /\ (forall n n', n ∈ N -> n' ∈ successors registry n ->
          exists n'', n'' ∈ N /\ nodeName n'' = nodeName n')
    /\ (exists n, n ∈ N /\ nodeName n = nodeName (root, Direct))
    /\ (forall s, s ∈ out <-> exists n, n ∈ N /\ s ∈ nodeStrings registry damEnabled n)
    /\ (exists es, out = Js.uniq es ++ [nodeFragment registry damEnabled (root, Direct)]).
Proof.
  intros H.
  apply (createFragment_composes registry damEnabled (root, Direct) fuel root Direct)
    in H as Hc; [|apply Reach_root|now left].
  pose proof (composesNode_fragment _ _ _ _ _ _ _ _ (not_elem_of_empty _) Hc) as Hshape.
  destruct Hc as (N & (Hcache & Hv & Hnd & Hfresh & Hnodes) & Hcov & Hvis & _).
  simpl in Hv. rewrite union_empty_l_L in Hv.
  exists N. split_and!.
  - exact Hnd.
  - intros n Hn. now apply Hnodes.
  - intros n n' Hn Hn'. apply nodeNames_member. rewrite <- Hv.
    now apply (Hnodes n Hn).
  - apply nodeNames_member. now rewrite <- Hv.
  - intros s. rewrite (Hcov s). split; [|auto].
    intros [Hs|Hs]; [now apply elem_of_nil in Hs|exact Hs].
  - exact Hshape.
Qed.

(** ** Strings *)

Lemma hasSpace_app a b : hasSpace (a +:+ b) = hasSpace a || hasSpace b.
Proof.
  induction a as [|c a IH]; [reflexivity|].
  rewrite string_app_cons. simpl. rewrite IH. now rewrite orb_assoc.
Qed.

Lemma firstWord_app a b : hasSpace a = false -> firstWord (a +:+ String " " b) = a.
Proof.
  induction a as [|c a IH]; intros Ha.
  - reflexivity.
  - rewrite string_app_cons. simpl in *. apply orb_false_iff in Ha as [Hc Ha].
    rewrite Hc. now rewrite IH.
Qed.

Lemma declaredName_fragmentText name fs :
  hasSpace name = false -> declaredName (fragmentText name fs) = name.
Proof.
  intros Hn. unfold declaredName, fragmentText.
  change (Js.slice_from 9 ("fragment " +:+ ?x)) with x.
  change (" on " +:+ ?x) with (String " " ("on " +:+ x)).
  now apply firstWord_app.
Qed.

Lemma string_length_app (a b : string) :
  String.length (a +:+ b) = String.length a + String.length b.
Proof. induction a as [|c a IH]; [reflexivity|]. rewrite string_app_cons. simpl. now rewrite IH. Qed.

Lemma string_app_inv_tail (a b t : string) : a +:+ t = b +:+ t -> a = b.
Proof.
  revert b. induction a as [|c a IH]; intros [|c' b] H.
  - reflexivity.
  - exfalso. apply (f_equal String.length) in H.
    rewrite !string_length_app in H. simpl in H. lia.
  - exfalso. apply (f_equal String.length) in H.
    rewrite !string_length_app in H. simpl in H. lia.
  - rewrite !string_app_cons in H. injection H as -> H. f_equal. now apply IH.
Qed.

(** ** The keys of reachable nodes *)

Lemma propertyTargets_keys registry rootName p n :
  n ∈ propertyTargets registry rootName p ->
  fst n = rootName \/ fst n ∈ propertyKeys p
  \/ exists c, c ∈ registry /\ fst n = ct_key c.
Proof.
  induction p as [t i Hna|items i IH] using property_array_ind.
  - destruct t as [c|a r| | | | |items|ty]; simpl; intros Hn;
      try (now apply elem_of_nil in Hn).
    + apply list_elem_of_singleton in Hn as ->. right. left. simpl. left.
    + apply list_elem_of_fmap in Hn as (t & -> & Ht). simpl.
      unfold selfKey. case_bool_decide; [now left|]. right.
      unfold resolved in Ht. apply resolveFrom_member in Ht as [Ht|(c & Hc & ->)].
      * destruct (hasLength a).
        -- left. apply list_elem_of_fmap. now exists t.
        -- right. apply list_elem_of_fmap in Ht as (c & -> & Hc). now exists c.
      * right. now exists c.
    + exfalso. now apply (Hna items).
  - exact IH.
Qed.

Lemma successors_keys registry (K : list string) n n' :
  (forall k, k ∈ knownKeys registry -> k ∈ K) ->
  fst n ∈ K -> n' ∈ successors registry n -> fst n' ∈ K.
Proof.
  intros HK Hn Hn'. unfold successors in Hn'.
  destruct (isBaseType (fst n)); [now apply elem_of_nil in Hn'|].
  destruct (getContentType registry (fst n)) as [ct|] eqn:Hct;
    [|now apply elem_of_nil in Hn'].
  apply getContentType_Some in Hct as [Hin Hkey].
  apply elem_of_app in Hn' as [Hn'|Hn'].
  - apply list_elem_of_In, in_flat_map in Hn' as ([name p] & Hp & Hn').
    unfold enabledProperties in Hp. apply filter_In in Hp as [Hp _].
    apply list_elem_of_In in Hn'. simpl in Hn'.
    apply propertyTargets_keys in Hn' as [-> |[Hk|(c & Hc & ->)]].
    + exact Hn.
    + apply (property_keys_known registry K HK ct name p Hin); [|exact Hk].
      now apply list_elem_of_In.
    + now apply (registry_key_known registry K HK).
  - destruct (bool_decide (ct_baseType ct = "_experience"));
      [|now apply elem_of_nil in Hn'].
    apply list_elem_of_fmap in Hn' as (k & -> & Hk). simpl.
    unfold experienceNodes in Hk. apply list_elem_of_fmap in Hk as (c & -> & Hc).
    apply list_elem_of_In, filter_In in Hc as [Hc _].
    apply (registry_key_known registry K HK). now apply list_elem_of_In.
Qed.

Lemma reach_keys registry root n :
  Reach registry (root, Direct) n -> fst n ∈ compositionKeys registry root.
Proof.
  induction 1 as [|n n' Hreach IH Hsucc].
  - left.
  - eapply successors_keys; [apply compositionKeys_known|exact IH|exact Hsucc].
Qed.

(** ** Library fragments *)

Lemma propertyOwnFragments_url p s :
  s ∈ propertyOwnFragments p -> s = CONTENT_URL_FRAGMENT.
Proof.
  induction p as [t i Hna|items i IH] using property_array_ind.
  - destruct t; simpl; intros Hs;
      try (now apply elem_of_nil in Hs);
      try (now apply list_elem_of_singleton in Hs).
    exfalso. now apply (Hna items).
  - exact IH.
Qed.

Lemma nodeLibrary_library registry damEnabled n s :
  s ∈ nodeLibrary registry damEnabled n -> s ∈ libraryFragments registry.
Proof.
  unfold nodeLibrary, libraryFragments. intros Hs.
  destruct (isBaseType (fst n)).
  { apply elem_of_app. now left. }
  destruct (getContentType registry (fst n)) as [ct|]; [|now apply elem_of_nil in Hs].
  rewrite !elem_of_app in Hs. rewrite !elem_of_app.
  destruct Hs as [Hs|[Hs|[Hs|Hs]]].
  - destruct (damEnabled && hasContentReference ct); [auto|now apply elem_of_nil in Hs].
  - destruct (includeBaseOf (snd n)); [auto|now apply elem_of_nil in Hs].
  - apply list_elem_of_In, in_flat_map in Hs as (np & _ & Hs).
    apply list_elem_of_In, propertyOwnFragments_url in Hs as ->.
    left. unfold COMMON_FRAGMENTS. set_solver.
  - destruct (bool_decide (ct_baseType ct = "_experience"));
      [|now apply elem_of_nil in Hs].
    rewrite elem_of_app in Hs. tauto.
Qed.

Lemma library_declaredNames registry :
  map declaredName (libraryFragments registry) = libraryNames.
Proof.
  unfold libraryFragments, libraryNames. rewrite !app_assoc, map_app.
  reflexivity.
Qed.

Lemma libraryNames_NoDup : NoDup libraryNames.
Proof. apply (bool_decide_unpack _). vm_compute. exact Logic.I. Qed.

Lemma NoDup_map_inj {A B} (f : A -> B) (l : list A) x y :
  NoDup (map f l) -> x ∈ l -> y ∈ l -> f x = f y -> x = y.
Proof.
  induction l as [|a l IH]; intros Hnd Hx Hy Hf.
  - now apply elem_of_nil in Hx.
  - simpl in Hnd. apply NoDup_cons in Hnd as [Ha Hnd].
    apply elem_of_cons in Hx as [-> |Hx]; apply elem_of_cons in Hy as [-> |Hy].
    + reflexivity.
    + exfalso. apply Ha. rewrite Hf. apply list_elem_of_fmap. now exists y.
    + exfalso. apply Ha. rewrite <- Hf. apply list_elem_of_fmap. now exists x.
    + now apply IH.
Qed.

Lemma library_name_member registry s :
  s ∈ libraryFragments registry -> declaredName s ∈ libraryNames.
Proof.
  intros Hs. rewrite <- (library_declaredNames registry).
  apply list_elem_of_fmap. now exists s.
Qed.

Lemma library_injective registry s1 s2 :
  s1 ∈ libraryFragments registry -> s2 ∈ libraryFragments registry ->
  declaredName s1 = declaredName s2 -> s1 = s2.
Proof.
  apply NoDup_map_inj. rewrite library_declaredNames. apply libraryNames_NoDup.
Qed.

Lemma plainKey_name k m :
  plainKey k = true ->
  hasSpace (nodeName (k, m)) = false /\ nodeName (k, m) ∉ libraryNames.
Proof.
  unfold plainKey, nodeName. simpl. intros H.
  apply andb_true_iff in H as [H H3]. apply andb_true_iff in H as [H1 H2].
  apply negb_true_iff in H1, H2, H3.
  apply bool_decide_eq_false_1 in H2, H3.
  rewrite hasSpace_app, H1. destruct m; simpl.
  - split; [reflexivity|]. now rewrite string_app_nil_r.
  - split; [reflexivity|exact H3].
Qed.

(* ================================================================= *)
(** * Fragment names                                                  *)
(* ================================================================= *)

(** C4 (amended). When no key of the composition contains a space or
    coincides, with or without the [Property] suffix, with the name of a
    library fragment, the list returned by one top-level call never holds
    two different fragments that declare the same name. *)
Theorem fragment_names_unique registry root damEnabled cache fuel out st' :
  forallb plainKey (compositionKeys registry root) = true ->
  createFragment registry fuel root "" true damEnabled (mkState ∅ cache)
    = Ok (out, st') ->
  forall s1 s2,
    s1 ∈ out -> s2 ∈ out -> declaredName s1 = declaredName s2 -> s1 = s2.
Proof.
  intros Hplain H s1 s2 H1 H2 Hname.
  apply root_composition in H as (N & Hnd & Hreach & _ & _ & Hcov & _).
  apply Hcov in H1 as (n1 & Hn1 & Hs1). apply Hcov in H2 as (n2 & Hn2 & Hs2).
  assert (forall n, n ∈ N ->
            hasSpace (nodeName n) = false /\ nodeName n ∉ libraryNames) as Hkeys.
  { intros [k m] Hn. apply plainKey_name.
    rewrite forallb_forall in Hplain. apply Hplain, list_elem_of_In.
    exact (reach_keys _ _ _ (Hreach _ Hn)). }
  unfold nodeStrings in Hs1, Hs2.
  apply elem_of_app in Hs1 as [Hs1|Hs1]; apply elem_of_app in Hs2 as [Hs2|Hs2].
  - apply (library_injective registry); [| |exact Hname];
      eapply nodeLibrary_library; eassumption.
  - exfalso. apply list_elem_of_singleton in Hs2 as ->.
    destruct (Hkeys n2 Hn2) as [Hsp Hlib]. apply Hlib.
    unfold nodeFragment in Hname. rewrite declaredName_fragmentText in Hname by exact Hsp.
    rewrite <- Hname. apply (library_name_member registry).
    eapply nodeLibrary_library; eassumption.
  - exfalso. apply list_elem_of_singleton in Hs1 as ->.
    destruct (Hkeys n1 Hn1) as [Hsp Hlib]. apply Hlib.
    unfold nodeFragment in Hname. rewrite declaredName_fragmentText in Hname by exact Hsp.
    rewrite Hname. apply (library_name_member registry).
    eapply nodeLibrary_library; eassumption.
  - apply list_elem_of_singleton in Hs1 as ->. apply list_elem_of_singleton in Hs2 as ->.
    unfold nodeFragment in Hname.
    rewrite !declaredName_fragmentText in Hname
      by (apply Hkeys; assumption).
    now rewrite (NoDup_map_inj nodeName N n1 n2 Hnd Hn1 Hn2 Hname).
Qed.


(* ================================================================= *)
(** * DAM fragments                                                   *)
(* ================================================================= *)



Lemma foldl_set_add_prefix xs : forall s, exists rest, foldl Js.set_add s xs = s ++ rest.
Proof.
  induction xs as [|x xs IH]; intros s; simpl.
  - exists []. now rewrite app_nil_r.
  - destruct (IH (Js.set_add s x)) as (rest & ->). unfold Js.set_add.
    destruct (decide (x ∈ s)).
    + now exists rest.
    + exists (x :: rest). now rewrite <- app_assoc.
Qed.







(** ** Every reachable node is composed *)

Lemma nodeName_inj K n1 n2 :
  noNameClash K = true -> fst n1 ∈ K -> fst n2 ∈ K ->
  nodeName n1 = nodeName n2 -> n1 = n2.
Proof.
  intros Hclash H1 H2 Hname.
  assert (forall k1 k2, k1 ∈ K -> k2 ∈ K -> k2 <> k1 +:+ "Property") as Hne.
  { intros k1 k2 Hk1 Hk2. unfold noNameClash in Hclash.
    rewrite forallb_forall in Hclash.
    specialize (Hclash k1 (proj1 (list_elem_of_In _ _) Hk1)).
    rewrite forallb_forall in Hclash.
    specialize (Hclash k2 (proj1 (list_elem_of_In _ _) Hk2)).
    apply negb_true_iff in Hclash. now apply bool_decide_eq_false_1 in Hclash. }
  destruct n1 as [k1 m1], n2 as [k2 m2]. unfold nodeName in Hname. simpl in *.
  destruct m1, m2; simpl in Hname; rewrite ?string_app_nil_r in Hname.
  - now subst.
  - exfalso. now apply (Hne k2 k1).
  - exfalso. now apply (Hne k1 k2).
  - apply string_app_inv_tail in Hname. now subst.
Qed.

Lemma reach_composed registry root (N : list Node) :
  noNameClash (compositionKeys registry root) = true ->
  (forall n, n ∈ N -> Reach registry (root, Direct) n) ->
  (forall n n', n ∈ N -> n' ∈ successors registry n ->
     exists n'', n'' ∈ N /\ nodeName n'' = nodeName n') ->
  (exists n, n ∈ N /\ nodeName n = nodeName (root, Direct)) ->
  forall n, Reach registry (root, Direct) n -> n ∈ N.
Proof.
  intros Hclash Hreach Hclosed (n0 & Hn0 & Hname0) n Hn.
  induction Hn as [|n n' Hr IH Hsucc].
  - assert (n0 = (root, Direct)) as <-; [|exact Hn0].
    apply (nodeName_inj _ _ _ Hclash); [|left|exact Hname0].
    exact (reach_keys _ _ _ (Hreach _ Hn0)).
  - destruct (Hclosed n n' IH Hsucc) as (n'' & Hn'' & Hname).
    assert (n'' = n') as <-; [|exact Hn''].
    apply (nodeName_inj _ _ _ Hclash); [| |exact Hname].
    + exact (reach_keys _ _ _ (Hreach _ Hn'')).
    + exact (reach_keys _ _ _ (Reach_step _ _ _ _ Hr Hsucc)).
Qed.

(** ** Counting *)






(* ================================================================= *)
(** * Cycles                                                          *)
(* ================================================================= *)


Lemma createFragment_visited registry fuel k s inc damEnabled st :
  k +:+ s ∈ visited st ->
  createFragment registry (S fuel) k s inc damEnabled st = Ok ([], st).
Proof.
  intros Hin. simpl. unfold createFragment_body, bind, get_visited.
  now rewrite bool_decide_eq_true_2.
Qed.




(* ================================================================= *)
(** * The resolved allow-list                                         *)
(* ================================================================= *)

Section Resolve.

Variable registry : list AnyContentType.
Variable skip : gset string.

Lemma add_step acc t :
  accOk skip acc ->
  accOk skip (add registry skip acc t)
  /\ (keysOf (snd (add registry skip acc t)) = keysOf (snd acc)
      \/ keysOf (snd (add registry skip acc t)) = keysOf (snd acc) ++ [getKeyName t]
         /\ getKeyName t ∉ keysOf (snd acc)).
Proof.
  destruct acc as [seen result]. intros (Hsync & Hnd & Hskip). unfold add.
  destruct (match match t with
                  | PString _ => getContentType registry (getKeyName t)
                  | PObject o => Some o
                  end with
            | Some o => allPropertiesAreDisabled o
            | None => false
            end); [split; [now split_and!|now left]|].
  destruct (bool_decide (getKeyName t ∈ skip)) eqn:Hs;
    [split; [now split_and!|now left]|].
  destruct (bool_decide (getKeyName t ∈ seen)) eqn:Hseen;
    [split; [now split_and!|now left]|].
  destruct (bool_decide (getKeyName t ∈ MAIN_BASE_TYPES));
    [split; [now split_and!|now left]|].
  cbn [orb fst snd] in *. apply bool_decide_eq_false_1 in Hs, Hseen.
  assert (getKeyName t ∉ keysOf result) as Hfresh.
  { intros Hin. apply Hseen. now apply Hsync. }
  unfold keysOf in *.
  split; [|right; split; [now rewrite map_app|exact Hfresh]].
  unfold accOk. cbn [fst snd]. unfold keysOf. rewrite map_app. cbn [map].
  split_and!.
  - intros k. rewrite elem_of_union, elem_of_singleton, elem_of_app,
      list_elem_of_singleton, (Hsync k). tauto.
  - apply NoDup_app. split_and!; [exact Hnd| |apply NoDup_singleton].
    intros k Hk Hk'. apply list_elem_of_singleton in Hk'. now subst.
  - intros k Hk. apply elem_of_app in Hk as [Hk|Hk]; [now apply Hskip|].
    apply list_elem_of_singleton in Hk. now subst.
Qed.

Lemma add_admits acc (u : AnyContentType) :
  accOk skip acc ->
  allPropertiesAreDisabled u = false ->
  ct_key u ∉ skip -> ct_key u ∉ MAIN_BASE_TYPES ->
  ct_key u ∈ keysOf (snd (add registry skip acc (PObject u))).
Proof.
  destruct acc as [seen result]. intros (Hsync & _) Hen Hs Hm. unfold add. simpl.
  rewrite Hen. rewrite (bool_decide_eq_false_2 _ Hs).
  rewrite (bool_decide_eq_false_2 _ Hm). simpl. rewrite orb_false_r.
  destruct (bool_decide (ct_key u ∈ seen)) eqn:Hseen; simpl.
  - apply bool_decide_eq_true_1 in Hseen. now apply Hsync.
  - unfold keysOf. rewrite map_app. apply elem_of_app. right. simpl. left.
Qed.

(** Ordering: the user type [ku] is listed before the base key [b]. *)
Section Ordering.

Variables b ku : string.

Lemma listedBefore_snoc x y l z :
  listedBefore x y l -> listedBefore x y (l ++ [z]).
Proof.
  intros (l1 & l2 & l3 & ->). exists l1, l2, (l3 ++ [z]).
  rewrite <- app_assoc. simpl. rewrite <- app_assoc. reflexivity.
Qed.

Lemma add_ordered_other acc t :
  accOk skip acc -> ordered b ku acc -> getKeyName t <> b ->
  ordered b ku (add registry skip acc t).
Proof.
  intros Hok Hord Hne. destruct (add_step acc t Hok) as [_ [Heq|[Heq _]]];
    unfold ordered; rewrite Heq; [exact Hord|].
  intros Hb. apply elem_of_app in Hb as [Hb|Hb].
  - apply listedBefore_snoc. now apply Hord.
  - apply list_elem_of_singleton in Hb. congruence.
Qed.

Lemma add_ordered_base acc t :
  accOk skip acc -> ordered b ku acc -> ku ∈ keysOf (snd acc) ->
  ordered b ku (add registry skip acc t).
Proof.
  intros Hok Hord Hku. destruct (add_step acc t Hok) as [_ [Heq|[Heq Hfresh]]];
    unfold ordered; rewrite Heq; [exact Hord|].
  intros Hb. apply elem_of_app in Hb as [Hb|Hb].
  - apply listedBefore_snoc. now apply Hord.
  - apply list_elem_of_singleton in Hb. rewrite <- Hb.
    apply list_elem_of_split in Hku as (l1 & l2 & ->).
    exists l1, l2, []. now rewrite <- app_assoc.
Qed.

Lemma add_keeps acc t k :
  accOk skip acc -> k ∈ keysOf (snd acc) ->
  k ∈ keysOf (snd (add registry skip acc t)).
Proof.
  intros Hok Hk. destruct (add_step acc t Hok) as [_ [Heq|[Heq _]]]; rewrite Heq;
    [exact Hk|]. apply elem_of_app. now left.
Qed.

Lemma splice_ordered cts : forall acc,
  accOk skip acc -> ordered b ku acc ->
  (forall c, c ∈ cts -> ct_key c <> b) ->
  accOk skip (foldl (add registry skip) acc (map PObject cts))
  /\ ordered b ku (foldl (add registry skip) acc (map PObject cts))
  /\ forall k, k ∈ keysOf (snd acc) ->
       k ∈ keysOf (snd (foldl (add registry skip) acc (map PObject cts))).
Proof.
  induction cts as [|c cts IH]; intros acc Hok Hord Hne; simpl; [auto|].
  destruct (IH (add registry skip acc (PObject c))) as (Hok' & Hord' & Hkeep).
  - now apply add_step.
  - apply add_ordered_other; [exact Hok|exact Hord|]. simpl. apply Hne. left.
  - intros c' Hc'. apply Hne. now right.
  - split_and!; [exact Hok'|exact Hord'|].
    intros k Hk. apply Hkeep. now apply add_keeps.
Qed.

Lemma splice_admits cts (u : AnyContentType) : forall acc,
  accOk skip acc -> u ∈ cts ->
  allPropertiesAreDisabled u = false ->
  ct_key u ∉ skip -> ct_key u ∉ MAIN_BASE_TYPES ->
  (forall c, c ∈ cts -> ct_key c <> b) -> ordered b ku acc ->
  ct_key u ∈ keysOf (snd (foldl (add registry skip) acc (map PObject cts))).
Proof.
  induction cts as [|c cts IH]; intros acc Hok Hu Hen Hs Hm Hne Hord;
    [now apply elem_of_nil in Hu|].
  simpl. apply elem_of_cons in Hu as [<- |Hu].
  - destruct (splice_ordered cts (add registry skip acc (PObject u)))
      as (_ & _ & Hkeep).
    + now apply add_step.
    + apply add_ordered_other; [exact Hok|exact Hord|]. apply Hne. left.
    + intros c' Hc'. apply Hne. now right.
    + apply Hkeep. now apply add_admits.
  - apply IH; auto.
    + now apply add_step.
    + intros c' Hc'. apply Hne. now right.
    + apply add_ordered_other; [exact Hok|exact Hord|]. apply Hne. left.
Qed.

Hypothesis registry_keys : forall c, c ∈ registry -> ct_key c <> b.

Lemma byBaseType_member c k :
  c ∈ getContentTypeByBaseType registry k <-> c ∈ registry /\ ct_baseType c = k.
Proof.
  unfold getContentTypeByBaseType. split.
  - intros H. apply list_elem_of_In, filter_In in H as [H1 H2].
    split; [now apply list_elem_of_In|now apply bool_decide_eq_true_1 in H2].
  - intros [H1 H2]. apply list_elem_of_In, filter_In.
    split; [now apply list_elem_of_In|now apply bool_decide_eq_true_2].
Qed.

Lemma resolveLoop_ordered (u : AnyContentType) baseline :
  isBaseType b = true ->
  u ∈ registry -> ct_baseType u = b -> ct_key u = ku ->
  allPropertiesAreDisabled u = false ->
  ku ∉ skip -> ku ∉ MAIN_BASE_TYPES ->
  forall acc,
    accOk skip acc -> ordered b ku acc ->
    ordered b ku
      (foldl (fun acc entry =>
                let key := getKeyName entry in
                let acc :=
                  if true && isBaseType key
                  then foldl (add registry skip) acc
                         (map PObject (getContentTypeByBaseType registry key))
                  else acc in
                add registry skip acc entry) acc baseline).
Proof.
  intros Hb Hu Hbase Hku Hen Hs Hm.
  induction baseline as [|e es IH]; intros acc Hok Hord; simpl; [exact Hord|].
  assert (forall k c, c ∈ getContentTypeByBaseType registry k -> ct_key c <> b) as Hne.
  { intros k c Hc. apply byBaseType_member in Hc as [Hc _]. now apply registry_keys. }
  destruct (decide (getKeyName e = b)) as [He|He].
  - rewrite He, Hb.
    destruct (splice_ordered (getContentTypeByBaseType registry b) acc Hok Hord
                (Hne b)) as (Hok1 & Hord1 & _).
    assert (ku ∈ keysOf (snd (foldl (add registry skip) acc
                               (map PObject (getContentTypeByBaseType registry b)))))
      as Hpresent.
    { rewrite <- Hku. apply splice_admits; auto.
      - apply byBaseType_member. auto.
      - now rewrite Hku.
      - now rewrite Hku.
      - apply Hne. }
    apply IH.
    + now apply add_step.
    + now apply add_ordered_base.
  - destruct (isBaseType (getKeyName e)).
    + destruct (splice_ordered (getContentTypeByBaseType registry (getKeyName e))
                  acc Hok Hord (Hne _)) as (Hok1 & Hord1 & _).
      apply IH.
      * now apply add_step.
      * now apply add_ordered_other.
    + apply IH.
      * now apply add_step.
      * now apply add_ordered_other.
Qed.

End Ordering.

Lemma foldl_add_ok ts : forall acc,
  accOk skip acc -> accOk skip (foldl (add registry skip) acc ts).
Proof.
  induction ts as [|t ts IH]; intros acc Hok; simpl; [exact Hok|].
  apply IH. now apply add_step.
Qed.

Lemma resolveLoop_ok explicit baseline : forall acc,
  accOk skip acc ->
  accOk skip
    (foldl (fun acc entry =>
              let key := getKeyName entry in
              let acc :=
                if explicit && isBaseType key
                then foldl (add registry skip) acc
                       (map PObject (getContentTypeByBaseType registry key))
                else acc in
              add registry skip acc entry) acc baseline).
Proof.
  induction baseline as [|e es IH]; intros acc Hok; simpl; [exact Hok|].
  apply IH. apply add_step.
  destruct (explicit && isBaseType (getKeyName e)); [|exact Hok].
  now apply foldl_add_ok.
Qed.

Lemma accOk_empty : accOk skip (∅, []).
Proof.
  unfold accOk, keysOf. simpl. split_and!.
  - intros k. rewrite elem_of_nil. set_solver.
  - apply NoDup_nil_2.
  - intros k Hk. now apply elem_of_nil in Hk.
Qed.

End Resolve.

Lemma resolved_not_skipped registry allowed restricted k :
  k ∈ keysOf (resolved registry allowed restricted) ->
  k ∉ restrictedSkip registry restricted.
Proof.
  unfold resolved, resolveFrom. intros Hk.
  destruct (resolveLoop_ok registry (restrictedSkip registry restricted)
              (hasLength allowed)
              (if hasLength allowed then default [] allowed else map PObject registry)
              (∅, []) (accOk_empty _)) as (_ & _ & Hskip).
  now apply Hskip.
Qed.

Lemma resolved_NoDup registry allowed restricted :
  NoDup (keysOf (resolved registry allowed restricted)).
Proof.
  unfold resolved, resolveFrom.
  now destruct (resolveLoop_ok registry (restrictedSkip registry restricted)
              (hasLength allowed)
              (if hasLength allowed then default [] allowed else map PObject registry)
              (∅, []) (accOk_empty _)) as (_ & Hnd & _).
Qed.

Lemma restrictedSkip_member registry restricted r :
  r ∈ default [] restricted ->
  getKeyName r ∈ restrictedSkip registry restricted
  /\ (isBaseType (getKeyName r) = true ->
      forall u, u ∈ registry -> ct_baseType u = getKeyName r ->
                ct_key u ∈ restrictedSkip registry restricted).
Proof.
  unfold restrictedSkip. generalize (default [] restricted). intros rs.
  set (step := fun skip r0 =>
                 let key := getKeyName r0 in
                 let skip0 := {[key]} ∪ skip in
                 if isBaseType key
                 then foldl (fun skip1 ct => {[ct_key ct]} ∪ skip1) skip0
                        (getContentTypeByBaseType registry key)
                 else skip0).
  assert (forall cts (s : gset string) k,
            k ∈ s -> k ∈ foldl (fun skip1 ct => {[ct_key ct]} ∪ skip1) s cts) as Hin1.
  { induction cts as [|c cts IH]; intros s k Hk; simpl; [exact Hk|].
    apply IH. set_solver. }
  assert (forall cts (s : gset string) c,
            c ∈ cts -> ct_key c ∈ foldl (fun skip1 ct => {[ct_key ct]} ∪ skip1) s cts)
    as Hin2.
  { induction cts as [|c' cts IH]; intros s c Hc; [now apply elem_of_nil in Hc|].
    simpl. apply elem_of_cons in Hc as [-> |Hc]; [|now apply IH].
    apply Hin1. set_solver. }
  assert (forall s r0 k, k ∈ s -> k ∈ step s r0) as Hstep.
  { intros s r0 k Hk. unfold step. destruct (isBaseType (getKeyName r0)).
    - apply Hin1. set_solver.
    - set_solver. }
  assert (forall rs0 s k, k ∈ s -> k ∈ foldl step s rs0) as Hmono.
  { induction rs0 as [|r0 rs0 IH]; intros s k Hk; simpl; [exact Hk|].
    apply IH. now apply Hstep. }
  intros Hr. generalize (∅ : gset string).
  induction rs as [|r0 rs IH]; intros s; [now apply elem_of_nil in Hr|].
  simpl. apply elem_of_cons in Hr as [-> |Hr]; [|now apply IH].
  split.
  - apply Hmono. unfold step. destruct (isBaseType (getKeyName r0)).
    + apply Hin1. set_solver.
    + set_solver.
  - intros Hb u Hu Hbase. apply Hmono. unfold step. rewrite Hb.
    apply Hin2. apply byBaseType_member. auto.
Qed.

Lemma uniq_listedBefore l1 x l2 y :
  x <> y -> y ∉ l1 -> y ∈ l2 -> listedBefore x y (Js.uniq (l1 ++ x :: l2)).
Proof.
  intros Hne Hy1 Hy2. unfold Js.uniq.
  change (l1 ++ x :: l2) with (l1 ++ [x] ++ l2). rewrite app_assoc, foldl_app.
  set (s := foldl Js.set_add [] (l1 ++ [x])).
  assert (x ∈ s) as Hx.
  { apply foldl_set_add_member. right. apply elem_of_app. right. left. }
  assert (y ∉ s) as Hy.
  { intros H. apply foldl_set_add_member in H as [H|H]; [now apply elem_of_nil in H|].
    apply elem_of_app in H as [H|H]; [contradiction|].
    apply list_elem_of_singleton in H. congruence. }
  destruct (foldl_set_add_prefix l2 s) as (rest & Hrest).
  assert (y ∈ rest) as Hyr.
  { assert (y ∈ foldl Js.set_add s l2) as H
      by (apply foldl_set_add_member; now right).
    rewrite Hrest in H. apply elem_of_app in H as [H|H]; [contradiction|exact H]. }
  rewrite Hrest.
  apply list_elem_of_split in Hx as (a & b' & ->).
  apply list_elem_of_split in Hyr as (c & d & ->).
  exists a, (b' ++ c), d. rewrite <- ?app_assoc. simpl.
  rewrite <- ?app_assoc. reflexivity.
Qed.

Lemma selfKey_plain rootName k : isBaseType k = false -> selfKey rootName k = k.
Proof.
  intros Hk. unfold selfKey. case_bool_decide as H; [|reflexivity].
  subst k. discriminate.
Qed.

Lemma selfKey_base rootName k b :
  isBaseType rootName = false -> isBaseType b = true ->
  selfKey rootName k = b -> k = b.
Proof.
  intros Hroot Hb. unfold selfKey. case_bool_decide; [|auto].
  intros <-. congruence.
Qed.

Lemma contentSpreads_member registry rootName allowed restricted s :
  s ∈ contentSpreads registry rootName allowed restricted <->
  exists k, k ∈ keysOf (resolved registry allowed restricted)
            /\ s = "..." +:+ selfKey rootName k.
Proof.
  unfold contentSpreads, keysOf. rewrite uniq_member. split.
  - intros H. apply list_elem_of_fmap in H as (t & -> & Ht).
    exists (getKeyName t). split; [|reflexivity].
    apply list_elem_of_fmap. now exists t.
  - intros (k & Hk & ->). apply list_elem_of_fmap in Hk as (t & -> & Ht).
    apply list_elem_of_fmap. now exists t.
Qed.

Lemma main_base_types_base k : k ∈ MAIN_BASE_TYPES -> isBaseType k = true.
Proof.
  unfold MAIN_BASE_TYPES. intros Hk.
  repeat (apply elem_of_cons in Hk as [-> |Hk]); try reflexivity.
  now apply elem_of_nil in Hk.
Qed.

(** C1 (amended). For a [content] property of a user-defined type, over a
    registry whose keys are not base-type keys:
    - with an explicit allow-list, every registered type that extends an
      allowed base type [b], has a property that is not disabled and is not
      skipped is listed before the spread of [b] itself;
    - without an explicit allow-list the spreads are those of registered
      types only, so no base type has a spread of its own;
    - the spread of a type on the restrict-list is never listed, nor, for a
      restricted base type, that of a registered type extending it (the
      property's own type, which [_self] stands for, apart);
    - and these spreads are the selection [convertPropertyField] emits. *)
Theorem allowed_types_override registry rootName allowed restricted :
  (forall c, c ∈ registry -> isBaseType (ct_key c) = false) ->
  isBaseType rootName = false ->
  let spreads := contentSpreads registry rootName allowed restricted in
  (hasLength allowed = true ->
   forall b u,
     isBaseType b = true -> b <> "_self" -> "..." +:+ b ∈ spreads ->
     u ∈ registry -> ct_baseType u = b ->
     allPropertiesAreDisabled u = false ->
     ct_key u ∉ restrictedSkip registry restricted ->
     listedBefore ("..." +:+ ct_key u) ("..." +:+ b) spreads)
  /\ (hasLength allowed = false ->
      forall s, s ∈ spreads -> exists c, c ∈ registry /\ s = "..." +:+ ct_key c)
  /\ (forall r,
        r ∈ default [] restricted -> getKeyName r <> rootName ->
        ("..." +:+ getKeyName r ∉ spreads)
        /\ (isBaseType (getKeyName r) = true ->
            forall u, u ∈ registry -> ct_baseType u = getKeyName r ->
                      ct_key u <> rootName -> "..." +:+ ct_key u ∉ spreads))
  /\ (forall rec name i suffix damEnabled st r st',
        allContentTypes st = registry ->
        convertPropertyField registry rec name
          (Property (TContent allowed restricted) i) rootName suffix damEnabled st
          = Ok (r, st') ->
        fields r
        = [(rootName +:+ suffix +:+ "__" +:+ name +:+ ":" +:+ name)
             +:+ " { " +:+ Js.join " " ("__typename" :: spreads) +:+ " }"]).
Proof.
  intros Hwf Hroot spreads. split_and!.
  - intros Hexp b u Hb Hself Hin Hu Hbase Hen Hskip.
    assert (isBaseType (ct_key u) = false) as Hku by now apply Hwf.
    assert (b ∈ keysOf (resolved registry allowed restricted)) as Hbk.
    { apply contentSpreads_member in Hin as (k & Hk & Heq).
      apply String.app_inj in Heq. symmetry in Heq.
      now rewrite (selfKey_base _ _ _ Hroot Hb Heq) in Hk. }
    assert (listedBefore (ct_key u) b (keysOf (resolved registry allowed restricted)))
      as (l1 & l2 & l3 & Hkeys).
    { unfold resolved, resolveFrom in *. rewrite Hexp in *.
      apply (resolveLoop_ordered registry (restrictedSkip registry restricted)
               b (ct_key u)) with (u := u); auto.
      - intros c Hc Heq. apply Hwf in Hc. congruence.
      - intros Hm. apply main_base_types_base in Hm. congruence.
      - apply accOk_empty.
      - intros H. now apply elem_of_nil in H. }
    pose proof (resolved_NoDup registry allowed restricted) as Hnd.
    subst spreads. unfold contentSpreads.
    replace (map (fun t => "..." +:+ selfKey rootName (getKeyName t))
                 (resolved registry allowed restricted))
      with (map (fun k => "..." +:+ selfKey rootName k)
                (keysOf (resolved registry allowed restricted)))
      by (unfold keysOf; now rewrite map_map).
    rewrite Hkeys in *. rewrite map_app. simpl. rewrite map_app. simpl.
    rewrite (selfKey_plain rootName (ct_key u) Hku).
    assert (selfKey rootName b = b) as ->.
    { unfold selfKey. now rewrite bool_decide_eq_false_2. }
    apply uniq_listedBefore.
    + intros Heq. apply String.app_inj in Heq. congruence.
    + intros Hin1. apply list_elem_of_fmap in Hin1 as (k & Heq & Hk).
      apply String.app_inj in Heq. symmetry in Heq.
      apply (selfKey_base _ _ _ Hroot Hb) in Heq. subst k.
      apply NoDup_app in Hnd as (_ & Hdisj & _).
      apply (Hdisj b Hk). right. apply elem_of_app. right. left.
    + apply elem_of_app. right. left.
  - intros Hexp s Hs. apply contentSpreads_member in Hs as (k & Hk & ->).
    unfold keysOf, resolved in Hk. rewrite Hexp in Hk.
    apply list_elem_of_fmap in Hk as (t & -> & Ht).
    apply resolveFrom_member in Ht as [Ht|(c & Hc & ->)].
    + apply list_elem_of_fmap in Ht as (c & -> & Hc). exists c.
      split; [exact Hc|]. simpl. now rewrite (selfKey_plain _ _ (Hwf c Hc)).
    + exists c. split; [exact Hc|]. simpl.
      now rewrite (selfKey_plain _ _ (Hwf c Hc)).
  - intros r Hr Hne.
    destruct (restrictedSkip_member registry restricted r Hr) as [Hskip Hbase].
    assert (forall x, x <> rootName -> x ∈ restrictedSkip registry restricted ->
                      "..." +:+ x ∉ spreads) as Hout.
    { intros x Hx Hxs Hin. apply contentSpreads_member in Hin as (k & Hk & Heq).
      apply String.app_inj in Heq. unfold selfKey in Heq.
      case_bool_decide; [congruence|]. subst k.
      now apply (resolved_not_skipped registry allowed restricted x). }
    split; [now apply Hout|].
    intros Hb u Hu Hbt Hku. apply Hout; [exact Hku|now apply Hbase].
  - intros rec name i suffix damEnabled st r st' Hc H. simpl in H.
    apply bind_Ok in H as (l & st1 & Hres & H).
    apply (resolveAllowedTypes_Ok _ _ _ _ _ _ Hc) in Hres as [-> ->].
    apply bind_Ok in H as ([e s] & st2 & Hloop & Hret).
    apply ret_Ok in Hret as [<- <-]. simpl.
    assert (forall ts st0 e0 s0,
              foldM (contentStep rec rootName damEnabled) ts (e0, s0) st0
                = Ok ((e, s), st2) ->
              s = s0 ++ map (fun t => "..." +:+ selfKey rootName (getKeyName t)) ts)
      as Hgen.
    { induction ts as [|t ts IH]; intros st0 e0 s0 H.
      - apply ret_Ok in H as [H _]. injection H as _ <-. now rewrite app_nil_r.
      - simpl in H. apply bind_Ok in H as ([e1 s1] & st1 & H1 & H2).
        unfold contentStep in H1. apply bind_Ok in H1 as (frags & st1' & _ & Hret).
        apply ret_Ok in Hret as [Hret _]. injection Hret as <- <-.
        apply IH in H2 as ->. simpl. now rewrite <- app_assoc. }
    rewrite (Hgen _ _ [] [] Hloop). reflexivity.
Qed.

(* ================================================================= *)
(** * The statements at concrete schemas                              *)
(* ================================================================= *)

(** C1 as stated fails without an allow-list: the user-defined image type
    is listed, the base type [_image] is not. *)
Lemma no_allow_list_counterexample :
  exists out st',
    createFragment imageRegistry (fragmentFuel imageRegistry) "Page1" "" true false
      (mkState ∅ []) = Ok (out, st')
    /\ last out
       = Some "fragment Page1 on Page1 { __typename Page1__media:media { __typename ...MyImage ...Page1 } ..._IContent }"
    /\ contentSpreads imageRegistry "Page1" None None = ["...MyImage"; "...Page1"]
    /\ ~ listedBefore "...MyImage" "..._image"
           (contentSpreads imageRegistry "Page1" None None).
Proof.
  eexists _, _. split; [vm_compute; reflexivity|].
  split; [reflexivity|]. split; [vm_compute; reflexivity|].
  intros (l1 & l2 & l3 & H).
  assert ("..._image" ∈ contentSpreads imageRegistry "Page1" None None) as Hin.
  { rewrite H. apply elem_of_app. right. right. apply elem_of_app. right. left. }
  revert Hin. apply (bool_decide_unpack _). vm_compute. exact Logic.I.
Qed.

Lemma imageRegistry_keys c : c ∈ imageRegistry -> isBaseType (ct_key c) = false.
Proof.
  unfold imageRegistry. intros Hc.
  repeat (apply elem_of_cons in Hc as [-> |Hc]); try reflexivity.
  now apply elem_of_nil in Hc.
Qed.

Lemma allowed_types_override_witness :
  listedBefore "...MyImage" "..._image"
    (contentSpreads imageRegistry "Page1" (Some [PString "_image"]) None).
Proof.
  refine (proj1 (allowed_types_override imageRegistry "Page1"
                   (Some [PString "_image"]) None imageRegistry_keys eq_refl)
            eq_refl "_image"
            (ContentType "MyImage" "_image"
               (Some [("alt", Property (TScalar "string") None)]) None)
            eq_refl _ _ _ eq_refl eq_refl _).
  - discriminate.
  - apply (bool_decide_unpack _). vm_compute. exact Logic.I.
  - left.
  - apply not_elem_of_empty.
Defined.





(** C4 as stated fails for a content type whose key is the name of a
    library fragment. *)
Lemma reserved_name_counterexample :
  exists out st' s1 s2,
    createFragment reservedRegistry (fragmentFuel reservedRegistry)
      "ContentUrl" "" true false (mkState ∅ []) = Ok (out, st')
    /\ s1 ∈ out /\ s2 ∈ out
    /\ declaredName s1 = declaredName s2
    /\ s1 <> s2.
Proof.
  eexists _, _, CONTENT_URL_FRAGMENT,
    "fragment ContentUrl on ContentUrl { __typename ..._IContent }".
  split; [vm_compute; reflexivity|].
  split; [apply (bool_decide_unpack _); vm_compute; exact Logic.I|].
  split; [apply (bool_decide_unpack _); vm_compute; exact Logic.I|].
  split; [reflexivity|discriminate].
Qed.

Lemma fragment_names_unique_witness :
  forallb plainKey (compositionKeys pageRegistry "Page1") = true
  /\ exists out st',
       createFragment pageRegistry (fragmentFuel pageRegistry) "Page1" "" true false
         (mkState ∅ []) = Ok (out, st')
       /\ forall s1 s2,
            s1 ∈ out -> s2 ∈ out -> declaredName s1 = declaredName s2 -> s1 = s2.
Proof.
  split; [reflexivity|].
  eexists _, _. split; [vm_compute; reflexivity|].
  exact (fragment_names_unique pageRegistry "Page1" false []
           (fragmentFuel pageRegistry) _ _ eq_refl ltac:(vm_compute; reflexivity)).
Defined.

Lemma disabled_properties_excluded_witness :
  exists out st' es fs,
    createFragment mixedRegistry (fragmentFuel mixedRegistry) "ct1" "" true false
      (mkState ∅ []) = Ok (out, st')
    /\ out = Js.uniq es ++ [fragmentText "ct1" fs]
    /\ "ct1__title:title" ∈ Js.uniq fs.
Proof.
  assert (exists out st',
            createFragment mixedRegistry (fragmentFuel mixedRegistry) "ct1" "" true
              false (mkState ∅ []) = Ok (out, st')) as (out & st' & Hrun)
    by (eexists _, _; vm_compute; reflexivity).
  exists out, st'.
  destruct (disabled_properties_excluded mixedRegistry (fragmentFuel mixedRegistry)
              "ct1" Direct false (mkState ∅ []) out st'
              (ContentType "ct1" "_page"
                 (Some [("title", Property (TScalar "string") None);
                        ("secret", Property (TScalar "string") (Some "disabled"))])
                 None)
              eq_refl eq_refl (not_elem_of_empty _) (or_introl eq_refl) Hrun)
    as (es & fs & Hout & Henabled & _).
  exists es, fs. split; [exact Hrun|]. split; [exact Hout|].
  apply (Henabled "title" (Property (TScalar "string") None)); [left|reflexivity|left].
Defined.

(* ================================================================= *)
(** * The response normalizer on arbitrary data                       *)
(* ================================================================= *)

Lemma JsValue_nested_ind (P : JsValue -> Prop) :
  P JUndefined -> P JNull -> (forall b, P (JBool b)) -> (forall n, P (JNumber n)) ->
  (forall s, P (JString s)) ->
  (forall elements, Forall P elements -> P (JArray elements)) ->
  (forall props, Forall (fun kv => P (snd kv)) props -> P (JObject props)) ->
  forall v, P v.
Proof.
  intros Hu Hn Hb Hz Hs Ha Ho.
  fix IH 1. intros [| |b|n|s|elements|props].
  - exact Hu.
  - exact Hn.
  - apply Hb.
  - apply Hz.
  - apply Hs.
  - apply Ha. induction elements as [|e es IHes]; constructor; [apply IH|exact IHes].
  - apply Ho. induction props as [|[k v] ps IHps]; constructor; [apply IH|exact IHps].
Qed.








Lemma set_map_values (f : JsValue -> JsValue) k v (props : list (string * JsValue)) :
  map (fun '(k', v') => (k', f v')) (Obj.set k v props)
  = Obj.set k (f v) (map (fun '(k', v') => (k', f v')) props).
Proof.
  induction props as [|[k' v'] props IH]; simpl; [reflexivity|].
  destruct (bool_decide (k' = k)); simpl; [reflexivity|]. now rewrite IH.
Qed.

Lemma set_set k v (props : list (string * JsValue)) :
  Obj.set k v (Obj.set k v props) = Obj.set k v props.
Proof.
  induction props as [|[k' v'] props IH]; simpl.
  - now rewrite bool_decide_eq_true_2.
  - destruct (bool_decide (k' = k)) eqn:E; simpl; rewrite E; [reflexivity|].
    now rewrite IH.
Qed.

Lemma has_set_other k k' v (props : list (string * JsValue)) :
  k <> k' -> Obj.has k (Obj.set k' v props) = Obj.has k props.
Proof.
  intros Hne. unfold Obj.has.
  induction props as [|[k'' v''] props IH]; simpl.
  - rewrite bool_decide_eq_false_2; [reflexivity|]. now intros ->.
  - destruct (bool_decide (k'' = k')) eqn:E; simpl; [|now rewrite IH].
    apply bool_decide_eq_true_1 in E. subst k''.
    reflexivity.
Qed.

(** X3. Decorating twice is decorating once: a second pass of
    [decorateWithContext] with the same parameters changes nothing. *)
Theorem decorateWithContext_idempotent v params :
  decorateWithContext (decorateWithContext v params) params
  = decorateWithContext v params.
Proof.
  induction v as [| |b|n|s|elements IH|props IH] using JsValue_nested_ind;
    try reflexivity.
  - simpl. f_equal. rewrite map_map.
    induction IH as [|e es He _ IHes]; [reflexivity|].
    simpl. now rewrite He, IHes.
  - assert (map (fun '(k, v) => (k, decorateWithContext v params))
              (map (fun '(k, v) => (k, decorateWithContext v params)) props)
            = map (fun '(k, v) => (k, decorateWithContext v params)) props) as Hmap.
    { rewrite map_map.
      induction IH as [|[k v] ps Hv _ IHps]; [reflexivity|].
      simpl in *. now rewrite Hv, IHps. }
    simpl. rewrite has_map_values.
    destruct (Obj.has "__typename" props) eqn:Hhas.
    + simpl. rewrite set_map_values, Hmap.
      rewrite has_set_other, has_map_values, Hhas by discriminate.
      simpl. now rewrite set_set.
    + simpl. rewrite Hmap, has_map_values, Hhas. reflexivity.
Qed.

Lemma get_set_same k v (props : list (string * JsValue)) :
  Obj.get k (Obj.set k v props) = v.
Proof.
  induction props as [|[k' v'] props IH]; simpl.
  - now rewrite bool_decide_eq_true_2.
  - destruct (bool_decide (k' = k)) eqn:E; simpl; rewrite E; [reflexivity|exact IH].
Qed.

Lemma forallb_set (p : JsValue -> bool) k v (props : list (string * JsValue)) :
  p v = true ->
  forallb (fun '(_, v') => p v') props = true ->
  forallb (fun '(_, v') => p v') (Obj.set k v props) = true.
Proof.
  intros Hv. induction props as [|[k' v'] props IH]; simpl; intros H.
  - now rewrite Hv.
  - apply andb_true_iff in H as [H1 H2].
    destruct (bool_decide (k' = k)); simpl.
    + now rewrite Hv, H2.
    + now rewrite H1, IH.
Qed.

(** X4. After [decorateWithContext], every object that has a [__typename],
    at any depth, carries the [__context] of the preview parameters. *)
Theorem decorateWithContext_attaches_everywhere v params :
  contextAttached params (decorateWithContext v params) = true.
Proof.
  induction v as [| |b|n|s|elements IH|props IH] using JsValue_nested_ind;
    try reflexivity.
  - simpl. induction IH as [|e es He _ IHes]; [reflexivity|].
    simpl. now rewrite He, IHes.
  - assert (forallb (fun '(_, v') => contextAttached params v')
              (map (fun '(k, v) => (k, decorateWithContext v params)) props) = true)
      as Hchildren.
    { induction IH as [|[k v] ps Hv _ IHps]; [reflexivity|].
      simpl in *. now rewrite Hv, IHps. }
    simpl. rewrite has_map_values.
    destruct (Obj.has "__typename" props) eqn:Hhas.
    + simpl. rewrite forallb_set; [|reflexivity|exact Hchildren].
      rewrite get_set_same. unfold isContextOf.
      rewrite (bool_decide_eq_true_2 (preview_token params = preview_token params))
        by reflexivity.
      destruct (bool_decide (ctx params = "edit")); simpl; apply orb_true_r.
    + simpl. rewrite Hchildren, has_map_values, Hhas. reflexivity.
Qed.

(* ================================================================= *)
(** * The trailing slash of a path                                    *)
(* ================================================================= *)

Lemma endsWith_app_slash p : Js.endsWith (p +:+ "/") "/" = true.
Proof.
  induction p as [|c p IH]; [reflexivity|].
  rewrite string_app_cons, endsWith_cons, IH.
  now destruct (String.eqb (String c (p +:+ "/")) "/").
Qed.

Lemma drop_last_app_slash p : Js.drop_last (p +:+ "/") = p.
Proof.
  induction p as [|c p IH]; [reflexivity|].
  rewrite string_app_cons.
  destruct p as [|c' p'].
  - reflexivity.
  - rewrite string_app_cons in *. rewrite drop_last_cons. now rewrite IH.
Qed.

Lemma pathFilter_app_slash env p host :
  p <> "" -> Js.endsWith p "/" = false ->
  pathFilter env (p +:+ "/") host = pathFilter env p host.
Proof.
  intros Hne Hends. unfold pathFilter.
  rewrite (bool_decide_eq_false_2 (p = "")) by exact Hne.
  rewrite (bool_decide_eq_false_2 (p +:+ "/" = "")) by now destruct p.
  cbn [rbind]. unfold normalizePath.
  now rewrite endsWith_app_slash, drop_last_app_slash, Hends.
Qed.

(** X5. A trailing slash makes no difference: for a path that is not empty
    and does not end in a slash, the path with a slash appended yields the
    same filter, and with it the same outcome of [getContentByPath],
    [getPath] and [getItems], whatever the endpoint answers.  An empty
    [host] is treated like no host. *)
Theorem trailing_slash_irrelevant env p host :
  p <> "" -> Js.endsWith p "/" = false ->
  pathFilter env (p +:+ "/") host = pathFilter env p host
  /\ pathFilter env p (Some "") = pathFilter env p None
  /\ forall apiKey graphUrl fetch JSON_parse,
       (forall registry cache,
          getContentByPath apiKey graphUrl fetch JSON_parse env registry cache
            (p +:+ "/") host
          = getContentByPath apiKey graphUrl fetch JSON_parse env registry cache p host)
       /\ forall locales,
            getPath apiKey graphUrl fetch JSON_parse env (p +:+ "/") host locales
            = getPath apiKey graphUrl fetch JSON_parse env p host locales
            /\ getItems apiKey graphUrl fetch JSON_parse env (p +:+ "/") host locales
               = getItems apiKey graphUrl fetch JSON_parse env p host locales.
Proof.
  intros Hne Hends.
  pose proof (pathFilter_app_slash env p host Hne Hends) as Hfilter.
  split_and!.
  - exact Hfilter.
  - reflexivity.
  - intros apiKey graphUrl fetch JSON_parse. split.
    + intros registry cache. unfold getContentByPath. now rewrite Hfilter.
    + intros locales. unfold getPath, getItems, linksInput. now rewrite Hfilter.
Qed.

Lemma trailing_slash_irrelevant_witness :
  pathFilter None "/a/b/" None = pathFilter None "/a/b" None
  /\ getContentByPath "key" "https://cg.optimizely.com/content/v2"
       (constantEndpoint emptyProbe) noParse None pageRegistry [] "/a/b/" None
     = getContentByPath "key" "https://cg.optimizely.com/content/v2"
         (constantEndpoint emptyProbe) noParse None pageRegistry [] "/a/b" None.
Proof.
  destruct (trailing_slash_irrelevant None "/a/b" None ltac:(discriminate) eq_refl)
    as (Hfilter & _ & Hclient).
  split; [exact Hfilter|].
  exact (proj1 (Hclient "key" "https://cg.optimizely.com/content/v2"
                  (constantEndpoint emptyProbe) noParse) pageRegistry []).
Defined.

(* ================================================================= *)
(** * The link queries                                                *)
(* ================================================================= *)

Lemma sameValueZero_eq a b : JsMap.sameValueZero a b = true -> a = b.
Proof.
  destruct a, b; simpl; try discriminate; try reflexivity; intros H.
  - f_equal. now apply Bool.eqb_prop.
  - f_equal. now apply Z.eqb_eq.
  - f_equal. now apply bool_decide_eq_true_1 in H.
Qed.

Lemma map_get_set k k' v m :
  JsMap.get k (JsMap.set k' v m)
  = if JsMap.sameValueZero k' k then v else JsMap.get k m.
Proof.
  induction m as [|[k'' v''] m IH]; simpl; [reflexivity|].
  destruct (JsMap.sameValueZero k'' k') eqn:E; simpl.
  - apply sameValueZero_eq in E. subst k''.
    now destruct (JsMap.sameValueZero k' k).
  - destruct (JsMap.sameValueZero k'' k) eqn:E'; [|exact IH].
    destruct (JsMap.sameValueZero k' k) eqn:E''; [|reflexivity].
    pose proof (sameValueZero_eq _ _ E') as ->.
    pose proof (sameValueZero_eq _ _ E'') as ->. congruence.
Qed.

Lemma find_app_split {A} (p : A -> bool) (l1 l2 : list A) :
  List.find p (l1 ++ l2)
  = match List.find p l1 with
    | Some x => Some x
    | None => List.find p l2
    end.
Proof.
  induction l1 as [|x l1 IH]; [reflexivity|].
  simpl. now destruct (p x).
Qed.

Lemma map_get_entries (key : JsValue -> JsValue) k links : forall m,
  JsMap.get k (foldl (fun m kv => JsMap.set (fst kv) (snd kv) m) m
                 (map (fun l => (key l, l)) links))
  = match List.find (fun l => JsMap.sameValueZero (key l) k) (rev links) with
    | Some l => l
    | None => JsMap.get k m
    end.
Proof.
  induction links as [|l links IH]; intros m; [reflexivity|].
  simpl. rewrite IH. rewrite find_app_split.
  destruct (List.find _ (rev links)); [reflexivity|].
  simpl. rewrite map_get_set. now destruct (JsMap.sameValueZero (key l) k).
Qed.

Lemma linkEntries_Ok links :
  Forall (fun l => Value.nullish l = false) links ->
  linkEntries (JArray links) = Ok (map (fun l => (linkKey l, l)) links).
Proof.
  intros H. simpl. induction H as [|l links Hl _ IH]; [reflexivity|].
  simpl. rewrite IH.
  destruct l; try discriminate; reflexivity.
Qed.

Lemma elem_of_rev {A} (x : A) (l : list A) : x ∈ rev l -> x ∈ l.
Proof. intros H. apply list_elem_of_In, in_rev. now apply list_elem_of_In. Qed.

Lemma find_member {A} (p : A -> bool) (l : list A) x :
  List.find p l = Some x -> x ∈ l /\ p x = true.
Proof.
  intros H. apply find_some in H as [H1 H2]. split; [|exact H2].
  now apply list_elem_of_In.
Qed.

Section LinkProperties.

Variable apiKey : string.
Variable graphUrl : string.
Variable fetch : FetchRequest -> Result Response.
Variable JSON_parse : string -> Result JsValue.
Variable env : option string.

Lemma getPath_item path host locales variables id sortedKeys links :
  linksInput env path host locales = Ok variables ->
  request apiKey graphUrl fetch JSON_parse GET_PATH_QUERY variables None
    = Ok (linksData (pageItem id sortedKeys links)) ->
  getPath apiKey graphUrl fetch JSON_parse env path host locales
  = if negb (Value.truthy id) then Ok JNull
    else if negb (Value.truthy sortedKeys) then
      Throw (GraphResponseError
        "The `_metadata` does not contain any `path` field. Ensure that the path you requested is an actual page and not a block. If the problem persists, contact Optimizely support"
        GET_PATH_QUERY variables)
    else
      await entries := linkEntries links in
      match sortedKeys with
      | JArray keys =>
          Ok (JArray (List.filter isDefined
                        (map (fun key => JsMap.get key (JsMap.ofEntries entries)) keys)))
      | _ => Throw TypeError
      end.
Proof.
  intros Hin Hreq. unfold getPath. rewrite Hin.
  cbn [rbind]. rewrite Hreq. reflexivity.
Qed.

(** X6. For a page that exists, [getPath] answers with one link per key of
    the item's [path], in the order of [path]: the last link stored under
    that key.  Keys without a link are left out, so every returned link is
    one of the response and there are at most as many as keys. *)
Theorem getPath_follows_path path host locales variables id keys links :
  linksInput env path host locales = Ok variables ->
  request apiKey graphUrl fetch JSON_parse GET_PATH_QUERY variables None
    = Ok (linksData (pageItem id (JArray keys) (JArray links))) ->
  Value.truthy id = true ->
  Forall (fun l => Value.nullish l = false) links ->
  getPath apiKey graphUrl fetch JSON_parse env path host locales
    = Ok (JArray (omap (linkFor links) keys))
  /\ (forall l, l ∈ omap (linkFor links) keys ->
        l ∈ links /\ linkKey l ∈ keys)
  /\ length (omap (linkFor links) keys) <= length keys.
Proof.
  intros Hin Hreq Hid Hlinks. split_and!.
  - rewrite (getPath_item _ _ _ _ _ _ _ Hin Hreq), Hid.
    cbn [negb Value.truthy].
    rewrite (linkEntries_Ok links Hlinks). cbn [rbind].
    do 2 f_equal.
    unfold JsMap.ofEntries. clear Hreq.
    induction keys as [|k keys IH]; [reflexivity|].
    simpl. rewrite map_get_entries. fold (linkFor links k).
    destruct (linkFor links k) as [l|] eqn:E; simpl.
    + assert (isDefined l = true) as ->.
      { apply find_member in E as [E _]. apply elem_of_rev in E.
        rewrite Forall_forall in Hlinks. specialize (Hlinks l E).
        now destruct l. }
      now rewrite IH.
    + exact IH.
  - intros l Hl. apply list_elem_of_omap in Hl as (k & Hk & Hfind).
    apply find_member in Hfind as [Hmem Hkey].
    apply sameValueZero_eq in Hkey. split.
    + now apply elem_of_rev in Hmem.
    + now rewrite Hkey.
  - clear. induction keys as [|k keys IH]; [reflexivity|].
    simpl. destruct (linkFor links k); simpl; unfold omap in IH; lia.
Qed.

(** X7. When the item of the response has no [_id] ([null], missing, empty
    or zero), [getPath] and [getItems] both answer [null]; when the item
    itself is [null], both fail with a [TypeError], unlike the metadata
    probe. *)
Theorem links_not_found path host locales variables :
  linksInput env path host locales = Ok variables ->
  (forall props,
     Value.truthy (Obj.get "_id" props) = false ->
     (request apiKey graphUrl fetch JSON_parse GET_PATH_QUERY variables None
        = Ok (linksData (JObject props)) ->
      getPath apiKey graphUrl fetch JSON_parse env path host locales = Ok JNull)
     /\ (request apiKey graphUrl fetch JSON_parse GET_ITEMS_QUERY variables None
          = Ok (linksData (JObject props)) ->
         getItems apiKey graphUrl fetch JSON_parse env path host locales = Ok JNull))
  /\ (request apiKey graphUrl fetch JSON_parse GET_PATH_QUERY variables None
        = Ok (linksData JNull) ->
      getPath apiKey graphUrl fetch JSON_parse env path host locales = Throw TypeError)
  /\ (request apiKey graphUrl fetch JSON_parse GET_ITEMS_QUERY variables None
        = Ok (linksData JNull) ->
      getItems apiKey graphUrl fetch JSON_parse env path host locales = Throw TypeError).
Proof.
  intros Hin. split_and!.
  - intros props Hid. split; intros Hreq.
    + unfold getPath. rewrite Hin. cbn [rbind]. rewrite Hreq.
      simpl. now rewrite Hid.
    + unfold getItems. rewrite Hin. cbn [rbind]. rewrite Hreq.
      simpl. now rewrite Hid.
  - intros Hreq. unfold getPath. rewrite Hin. cbn [rbind]. now rewrite Hreq.
  - intros Hreq. unfold getItems. rewrite Hin. cbn [rbind]. now rewrite Hreq.
Qed.

(** X8. For an item that exists but whose [_metadata] has no [path] (a
    block, not a page), [getPath] throws a [GraphResponseError] that carries
    the query and its variables. *)
Theorem getPath_without_path path host locales variables id sortedKeys links :
  linksInput env path host locales = Ok variables ->
  request apiKey graphUrl fetch JSON_parse GET_PATH_QUERY variables None
    = Ok (linksData (pageItem id sortedKeys links)) ->
  Value.truthy id = true ->
  Value.truthy sortedKeys = false ->
  getPath apiKey graphUrl fetch JSON_parse env path host locales
  = Throw (GraphResponseError
      "The `_metadata` does not contain any `path` field. Ensure that the path you requested is an actual page and not a block. If the problem persists, contact Optimizely support"
      GET_PATH_QUERY variables).
Proof.
  intros Hin Hreq Hid Hpath.
  rewrite (getPath_item _ _ _ _ _ _ _ Hin Hreq), Hid, Hpath. reflexivity.
Qed.

End LinkProperties.

Lemma getPath_follows_path_witness :
  let links := [pageLink "b" "B"; pageLink "root" "Start"; pageLink "a" "A"] in
  let body :=
    JObject [("data",
      linksData (pageItem (JString "id1")
                   (JArray [JString "root"; JString "a"; JString "gone"; JString "b"])
                   (JArray links)))] in
  getPath "key" "https://cg.optimizely.com/content/v2" (constantEndpoint body) noParse
    None "/a/b" None None
  = Ok (JArray [pageLink "root" "Start"; pageLink "a" "A"; pageLink "b" "B"]).
Proof.
  intros links body.
  refine (eq_trans
            (proj1 (getPath_follows_path "key" "https://cg.optimizely.com/content/v2"
                      (constantEndpoint body) noParse None "/a/b" None None _
                      (JString "id1")
                      [JString "root"; JString "a"; JString "gone"; JString "b"]
                      links _ _ eq_refl _)) _).
  - vm_compute. reflexivity.
  - vm_compute. reflexivity.
  - repeat constructor.
  - vm_compute. reflexivity.
Defined.

Lemma links_not_found_witness :
  let body := JObject [("data", linksData (JObject [("_id", JNull)]))] in
  getPath "key" "https://cg.optimizely.com/content/v2" (constantEndpoint body) noParse
    None "/a/b" None None = Ok JNull
  /\ getItems "key" "https://cg.optimizely.com/content/v2" (constantEndpoint body) noParse
       None "/a/b" None None = Ok JNull.
Proof.
  intros body.
  destruct (links_not_found "key" "https://cg.optimizely.com/content/v2"
              (constantEndpoint body) noParse None "/a/b" None None _
              ltac:(vm_compute; reflexivity)) as (Hnull & _).
  destruct (Hnull [("_id", JNull)] eq_refl) as [Hpath Hitems].
  split; [apply Hpath|apply Hitems]; vm_compute; reflexivity.
Defined.

Lemma getPath_without_path_witness :
  let body :=
    JObject [("data", linksData (pageItem (JString "id1") JNull (JArray [])))] in
  exists variables,
    getPath "key" "https://cg.optimizely.com/content/v2" (constantEndpoint body) noParse
      None "/block" None None
    = Throw (GraphResponseError
        "The `_metadata` does not contain any `path` field. Ensure that the path you requested is an actual page and not a block. If the problem persists, contact Optimizely support"
        GET_PATH_QUERY variables).
Proof.
  intros body. eexists.
  refine (getPath_without_path "key" "https://cg.optimizely.com/content/v2"
            (constantEndpoint body) noParse None "/block" None None _
            (JString "id1") JNull (JArray []) _ _ eq_refl eq_refl).
  - vm_compute. reflexivity.
  - vm_compute. reflexivity.
Defined.


(* ================================================================= *)
(** * The Graph client: requests and their failures                   *)
(* ================================================================= *)

Section RequestProperties.

Variable apiKey : string.
Variable graphUrl : string.
Variable fetch : FetchRequest -> Result Response.
Variable JSON_parse : string -> Result JsValue.

Lemma request_unfold query variables previewToken :
  request apiKey graphUrl fetch JSON_parse query variables previewToken
  = await response :=
      (match fetch (fetchRequestOf apiKey graphUrl query variables previewToken) with
       | Throw TypeError =>
           Throw (OptimizelyGraphError
             "Error when calling `fetch`. Ensure the Graph URL is correct or try again later.")
       | r => r
       end) in
    if negb (ok response) then
      await text :=
        (match text response with
         | Throw _ => Ok (statusText response)
         | r => r
         end) in
      await json :=
        (match JSON_parse text with
         | Throw _ => Throw (GraphHttpResponseError text (status response) query variables)
         | r => r
         end) in
      await errors := Value.member json "errors" in
      if Value.truthy errors
      then Throw (GraphContentResponseError errors (status response) query variables)
      else Throw (GraphHttpResponseError (statusText response) (status response)
                    query variables)
    else
      await json := json response in
      Value.member json "data".
Proof. reflexivity. Qed.


End RequestProperties.


Lemma request_agree apiKey graphUrl fetch1 fetch2 JSON_parse query variables token :
  fetch1 (fetchRequestOf apiKey graphUrl query variables token)
  = fetch2 (fetchRequestOf apiKey graphUrl query variables token) ->
  request apiKey graphUrl fetch1 JSON_parse query variables token
  = request apiKey graphUrl fetch2 JSON_parse query variables token.
Proof. intros H. rewrite !request_unfold. now rewrite H. Qed.

Lemma getContentMetaData_agree apiKey graphUrl fetch1 fetch2 JSON_parse input token :
  fetch1 (fetchRequestOf apiKey graphUrl GET_CONTENT_METADATA_QUERY input token)
  = fetch2 (fetchRequestOf apiKey graphUrl GET_CONTENT_METADATA_QUERY input token) ->
  getContentMetaData apiKey graphUrl fetch1 JSON_parse input token
  = getContentMetaData apiKey graphUrl fetch2 JSON_parse input token.
Proof.
  intros H. unfold getContentMetaData.
  now rewrite (request_agree _ _ fetch1 fetch2 _ _ _ _ H).
Qed.

Lemma hasToken_nonempty t : t <> "" -> hasToken (Some t) = true.
Proof. intros H. unfold hasToken. now rewrite bool_decide_eq_false_2. Qed.

Section Credentials.

Variable apiKey : string.
Variable graphUrl : string.
Variable JSON_parse : string -> Result JsValue.
Variable env : option string.
Variable registry : list AnyContentType.
Variable cache : list AnyContentType.

(** X10. What a client method returns depends on the endpoint only through
    the requests the method sends.  With a preview token that is not empty,
    [getPreviewContent] sends only requests that carry the token as
    [Bearer] authorization and no [auth] parameter: the key of the client is
    not sent.  [getContentByPath], [getPath] and [getItems] send only
    requests that carry the key as [auth] parameter and an empty
    [Authorization] header. *)
Theorem client_credentials (fetch1 fetch2 : FetchRequest -> Result Response) :
  (forall params,
     preview_token params <> "" ->
     (forall req,
        auth req = None ->
        authorization req = "Bearer " +:+ preview_token params ->
        fetch1 req = fetch2 req) ->
     getPreviewContent apiKey graphUrl fetch1 JSON_parse registry cache params
     = getPreviewContent apiKey graphUrl fetch2 JSON_parse registry cache params)
  /\ ((forall req,
         auth req = Some apiKey -> authorization req = "" -> fetch1 req = fetch2 req) ->
      forall path host,
        getContentByPath apiKey graphUrl fetch1 JSON_parse env registry cache path host
        = getContentByPath apiKey graphUrl fetch2 JSON_parse env registry cache path host
        /\ forall locales,
             getPath apiKey graphUrl fetch1 JSON_parse env path host locales
             = getPath apiKey graphUrl fetch2 JSON_parse env path host locales
             /\ getItems apiKey graphUrl fetch1 JSON_parse env path host locales
                = getItems apiKey graphUrl fetch2 JSON_parse env path host locales).
Proof.
  split.
  - intros params Htoken Hsame.
    assert (forall query variables,
              fetch1 (fetchRequestOf apiKey graphUrl query variables
                        (Some (preview_token params)))
              = fetch2 (fetchRequestOf apiKey graphUrl query variables
                          (Some (preview_token params)))) as Hreq.
    { intros query variables. apply Hsame; unfold fetchRequestOf;
        rewrite (hasToken_nonempty _ Htoken); reflexivity. }
    unfold getPreviewContent.
    rewrite (getContentMetaData_agree _ _ fetch1 fetch2 _ _ _ (Hreq _ _)).
    destruct (getContentMetaData apiKey graphUrl fetch2 JSON_parse
                (previewFilter params) (Some (preview_token params)))
      as [[[name|] dam]| |]; try reflexivity.
    cbn [rbind].
    destruct (createSingleContentQuery registry cache name dam) as [query| |];
      try reflexivity.
    cbn [rbind]. now rewrite (request_agree _ _ fetch1 fetch2 _ _ _ _ (Hreq _ _)).
  - intros Hsame.
    assert (forall query variables,
              fetch1 (fetchRequestOf apiKey graphUrl query variables None)
              = fetch2 (fetchRequestOf apiKey graphUrl query variables None)) as Hreq.
    { intros query variables. apply Hsame; reflexivity. }
    intros path host. split.
    + unfold getContentByPath.
      destruct (pathFilter env path host) as [input| |]; try reflexivity.
      cbn [rbind].
      rewrite (getContentMetaData_agree _ _ fetch1 fetch2 _ _ _ (Hreq _ _)).
      destruct (getContentMetaData apiKey graphUrl fetch2 JSON_parse input None)
        as [[[name|] dam]| |]; try reflexivity.
      cbn [rbind].
      destruct (createMultipleContentQuery registry cache name dam) as [query| |];
        try reflexivity.
      cbn [rbind]. now rewrite (request_agree _ _ fetch1 fetch2 _ _ _ _ (Hreq _ _)).
    + intros locales. split.
      * unfold getPath.
        destruct (linksInput env path host locales) as [variables| |]; try reflexivity.
        cbn [rbind]. now rewrite (request_agree _ _ fetch1 fetch2 _ _ _ _ (Hreq _ _)).
      * unfold getItems.
        destruct (linksInput env path host locales) as [variables| |]; try reflexivity.
        cbn [rbind]. now rewrite (request_agree _ _ fetch1 fetch2 _ _ _ _ (Hreq _ _)).
Qed.

End Credentials.

Lemma client_credentials_witness :
  let params := mkPreviewParams "tok" "abc123" "edit" "7" "en" in
  let guarded := fun req : FetchRequest =>
                   match auth req with
                   | Some _ => Throw (Rejected "the key was sent")
                   | None => constantEndpoint emptyProbe req
                   end in
  getPreviewContent "key" "https://cg.optimizely.com/content/v2"
    (constantEndpoint emptyProbe) noParse pageRegistry [] params
  = getPreviewContent "key" "https://cg.optimizely.com/content/v2"
      guarded noParse pageRegistry [] params.
Proof.
  intros params guarded.
  apply (proj1 (client_credentials "key" "https://cg.optimizely.com/content/v2"
                  noParse None pageRegistry [] (constantEndpoint emptyProbe) guarded)
           params).
  - discriminate.
  - intros req Hauth _. unfold guarded. now rewrite Hauth.
Defined.

(* ================================================================= *)
(** * The Graph client: from the probe to the content                 *)
(* ================================================================= *)

Lemma createFragment_missing registry fuel k s inc damEnabled cache :
  isBaseType k = false ->
  getContentType registry k = None ->
  createFragment registry (S fuel) k s inc damEnabled (mkState ∅ cache)
  = Throw (GraphMissingContentTypeError k).
Proof.
  intros Hb Hnone. simpl.
  unfold createFragment_body, bind, get_visited, refreshCache, visited_add,
    composeParts.
  simpl. rewrite Hb, Hnone. reflexivity.
Qed.

Lemma createFragmentRoot_missing registry cache k damEnabled :
  isBaseType k = false ->
  getContentType registry k = None ->
  createFragmentRoot registry cache k damEnabled
  = Throw (GraphMissingContentTypeError k).
Proof.
  intros Hb Hnone. unfold createFragmentRoot, fragmentFuel.
  now rewrite createFragment_missing.
Qed.

Section ClientFlows.

Variable apiKey : string.
Variable graphUrl : string.
Variable fetch : FetchRequest -> Result Response.
Variable JSON_parse : string -> Result JsValue.
Variable env : option string.
Variable registry : list AnyContentType.
Variable cache : list AnyContentType.

Lemma getContentMetaData_probe input token types damAssetType :
  request apiKey graphUrl fetch JSON_parse GET_CONTENT_METADATA_QUERY input token
    = Ok (probeData types damAssetType) ->
  getContentMetaData apiKey graphUrl fetch JSON_parse input token
  = let contentTypeName := Value.opt_index0 types in
    let damEnabled := negb (Value.is_null damAssetType) in
    if negb (Value.truthy contentTypeName) then Ok (None, damEnabled)
    else match contentTypeName with
         | JString name => Ok (Some name, damEnabled)
         | _ =>
             Throw (GraphResponseError
               "Returned type is not 'string'. This might be a bug in the SDK. Try again later. If the error persists, contact Optimizely support"
               GET_CONTENT_METADATA_QUERY input)
         end.
Proof. intros H. unfold getContentMetaData. rewrite H. reflexivity. Qed.



(** X11. When the probe reports a type that is not a base type and is not
    registered, [getContentByPath] and [getPreviewContent] throw
    [GraphMissingContentTypeError] for that type. *)
Theorem client_unregistered_type name others damAssetType :
  name <> "" ->
  isBaseType name = false ->
  getContentType registry name = None ->
  (forall path host input,
     pathFilter env path host = Ok input ->
     request apiKey graphUrl fetch JSON_parse GET_CONTENT_METADATA_QUERY input None
       = Ok (probeData (JArray (JString name :: others)) damAssetType) ->
     getContentByPath apiKey graphUrl fetch JSON_parse env registry cache path host
     = Throw (GraphMissingContentTypeError name))
  /\ (forall params,
        request apiKey graphUrl fetch JSON_parse GET_CONTENT_METADATA_QUERY
          (previewFilter params) (Some (preview_token params))
          = Ok (probeData (JArray (JString name :: others)) damAssetType) ->
        getPreviewContent apiKey graphUrl fetch JSON_parse registry cache params
        = Throw (GraphMissingContentTypeError name)).
Proof.
  intros Hname Hb Hnone. split.
  - intros path host input Hin Hprobe.
    unfold getContentByPath. rewrite Hin. cbn [rbind].
    rewrite (getContentMetaData_probe _ _ _ _ Hprobe).
    cbn [Value.opt_index0 Value.truthy negb].
    rewrite bool_decide_eq_false_2 by exact Hname. cbn [negb rbind].
    unfold createMultipleContentQuery.
    now rewrite createFragmentRoot_missing.
  - intros params Hprobe.
    unfold getPreviewContent.
    rewrite (getContentMetaData_probe _ _ _ _ Hprobe).
    cbn [Value.opt_index0 Value.truthy negb].
    rewrite bool_decide_eq_false_2 by exact Hname. cbn [negb rbind].
    unfold createSingleContentQuery.
    now rewrite createFragmentRoot_missing.
Qed.

End ClientFlows.

(* ================================================================= *)
(** * The Graph client against a scripted endpoint                    *)
(* ================================================================= *)







Section ScriptedEndpoint.

Variable apiKey : string.
Variable graphUrl : string.
Variable JSON_parse : string -> Result JsValue.
Variable env : option string.
Variable registry : list AnyContentType.
Variable cache : list AnyContentType.





End ScriptedEndpoint.



Lemma client_unregistered_type_witness :
  getContentByPath "key" "https://cg.optimizely.com/content/v2"
    (constantEndpoint (typeProbe "Article")) noParse None pageRegistry [] "/a/b" None
  = Throw (GraphMissingContentTypeError "Article").
Proof.
  refine (proj1 (client_unregistered_type "key" "https://cg.optimizely.com/content/v2"
                   (constantEndpoint (typeProbe "Article")) noParse None pageRegistry []
                   "Article" [JString "_Page"] JNull _ eq_refl eq_refl)
            "/a/b" None _ _ _).
  - discriminate.
  - vm_compute. reflexivity.
  - vm_compute. reflexivity.
Defined.

Section ClientEdges.

Variable apiKey : string.
Variable graphUrl : string.
Variable fetch : FetchRequest -> Result Response.
Variable JSON_parse : string -> Result JsValue.
Variable env : option string.
Variable registry : list AnyContentType.
Variable cache : list AnyContentType.

(** X14. When the first entry of the probe's [types] is a value other than a
    string that is not falsy (a number other than zero, [true], an array or
    an object), [getContentByPath] and [getPreviewContent] throw a
    [GraphResponseError] that carries the probe query and its variables;
    no content query is composed. *)
Theorem client_malformed_type first others damAssetType :
  Value.truthy first = true ->
  (forall name, first <> JString name) ->
  (forall path host input,
     pathFilter env path host = Ok input ->
     request apiKey graphUrl fetch JSON_parse GET_CONTENT_METADATA_QUERY input None
       = Ok (probeData (JArray (first :: others)) damAssetType) ->
     getContentByPath apiKey graphUrl fetch JSON_parse env registry cache path host
     = Throw (GraphResponseError
         "Returned type is not 'string'. This might be a bug in the SDK. Try again later. If the error persists, contact Optimizely support"
         GET_CONTENT_METADATA_QUERY input))
  /\ (forall params,
        request apiKey graphUrl fetch JSON_parse GET_CONTENT_METADATA_QUERY
          (previewFilter params) (Some (preview_token params))
          = Ok (probeData (JArray (first :: others)) damAssetType) ->
        getPreviewContent apiKey graphUrl fetch JSON_parse registry cache params
        = Throw (GraphResponseError
            "Returned type is not 'string'. This might be a bug in the SDK. Try again later. If the error persists, contact Optimizely support"
            GET_CONTENT_METADATA_QUERY (previewFilter params))).
Proof.
  intros Htruthy Hnot. split.
  - intros path host input Hin Hprobe.
    unfold getContentByPath. rewrite Hin. cbn [rbind].
    rewrite (getContentMetaData_probe _ _ _ _ _ _ _ _ Hprobe).
    cbn [Value.opt_index0]. rewrite Htruthy. cbn [negb].
    destruct first; try reflexivity. now destruct (Hnot s).
  - intros params Hprobe.
    unfold getPreviewContent.
    rewrite (getContentMetaData_probe _ _ _ _ _ _ _ _ Hprobe).
    cbn [Value.opt_index0]. rewrite Htruthy. cbn [negb].
    destruct first; try reflexivity. now destruct (Hnot s).
Qed.

(** X15. When the answer to the content query has a [_Content] whose [items]
    is not an array (missing, [null], or any other value),
    [getContentByPath] fails with a [TypeError]; [undefined] is returned
    only when [_Content] itself is missing or [null]. *)
Theorem getContentByPath_items_not_array path host input name damEnabled query props :
  pathFilter env path host = Ok input ->
  getContentMetaData apiKey graphUrl fetch JSON_parse input None
    = Ok (Some name, damEnabled) ->
  createMultipleContentQuery registry cache name damEnabled = Ok query ->
  request apiKey graphUrl fetch JSON_parse query input None
    = Ok (JObject [("_Content", JObject props)]) ->
  (forall elements, Obj.get "items" props <> JArray elements) ->
  getContentByPath apiKey graphUrl fetch JSON_parse env registry cache path host
  = Throw TypeError.
Proof.
  intros Hin Hprobe Hquery Hresp Hitems.
  unfold getContentByPath. rewrite Hin. cbn [rbind]. rewrite Hprobe. cbn [rbind].
  rewrite Hquery. cbn [rbind]. rewrite Hresp. cbn [rbind].
  unfold mapItems. simpl.
  destruct (Obj.get "items" props) eqn:E; try reflexivity.
  now destruct (Hitems elements).
Qed.

End ClientEdges.

Lemma client_malformed_type_witness :
  exists variables,
    getContentByPath "key" "https://cg.optimizely.com/content/v2"
      (constantEndpoint (JObject [("data", probeData (JArray [JNumber 7]) JNull)]))
      noParse None pageRegistry [] "/a/b" None
    = Throw (GraphResponseError
        "Returned type is not 'string'. This might be a bug in the SDK. Try again later. If the error persists, contact Optimizely support"
        GET_CONTENT_METADATA_QUERY variables).
Proof.
  eexists.
  refine (proj1 (client_malformed_type "key" "https://cg.optimizely.com/content/v2"
                   (constantEndpoint
                      (JObject [("data", probeData (JArray [JNumber 7]) JNull)]))
                   noParse None pageRegistry [] (JNumber 7) [] JNull eq_refl _)
            "/a/b" None _ _ _).
  - discriminate.
  - vm_compute. reflexivity.
  - vm_compute. reflexivity.
Defined.

Lemma getContentByPath_items_not_array_witness :
  let endpoint :=
    probeEndpoint (typeProbe "Page1")
      (JObject [("data", JObject [("_Content", JObject [("total", JNumber 0)])])]) in
  getContentByPath "key" "https://cg.optimizely.com/content/v2"
    endpoint noParse None pageRegistry [] "/a/b" None
  = Throw TypeError.
Proof.
  intros endpoint.
  refine (getContentByPath_items_not_array "key" "https://cg.optimizely.com/content/v2"
            endpoint noParse None pageRegistry [] "/a/b" None _ "Page1" false _
            [("total", JNumber 0)] _ _ _ _ _).
  - vm_compute. reflexivity.
  - vm_compute. reflexivity.
  - vm_compute. reflexivity.
  - vm_compute. reflexivity.
  - discriminate.
Defined.

(* ================================================================= *)
(** * One field per property                                          *)
(* ================================================================= *)

(** X16. Every property that is composed contributes exactly one field.  The
    field is selected under the alias [rootName suffix __ name], which
    [removeTypePrefix] strips again, except for a [contentReference]
    (directly or as the items of an array), which is selected under its own
    name; only a [contentReference] asks for the DAM fragments, and only
    when DAM is enabled. *)
Theorem one_field_per_property registry rec p :
  forall name rootName suffix damEnabled st r st',
    convertPropertyField registry rec name p rootName suffix damEnabled st
      = Ok (r, st') ->
    (exists selection,
       fields r
       = [(if isContentReference p then name
           else rootName +:+ suffix +:+ "__" +:+ name +:+ ":" +:+ name)
          +:+ selection])
    /\ includesDamAssetsFragments r = damEnabled && isContentReference p.
Proof.
  induction p as [t i Hna|items i IH] using property_array_ind;
    intros name rootName suffix damEnabled st r st' H.
  - destruct t as [c|a rs| | | | |items|ty]; simpl in H.
    + apply bind_Ok in H as (frags & st1 & _ & H). apply ret_Ok in H as [<- _].
      simpl. rewrite andb_false_r. split; [|reflexivity].
      eexists. rewrite !string_app_assoc. reflexivity.
    + apply bind_Ok in H as (allowed & st1 & _ & H).
      apply bind_Ok in H as ([extra subfields] & st2 & _ & H).
      apply ret_Ok in H as [<- _].
      simpl. rewrite andb_false_r. split; [|reflexivity].
      eexists. rewrite !string_app_assoc. reflexivity.
    + apply ret_Ok in H as [<- _]. simpl. rewrite andb_false_r.
      split; [|reflexivity]. eexists. rewrite !string_app_assoc. reflexivity.
    + apply ret_Ok in H as [<- _]. simpl. rewrite andb_false_r.
      split; [|reflexivity]. eexists. rewrite !string_app_assoc. reflexivity.
    + apply ret_Ok in H as [<- _]. simpl. rewrite andb_false_r.
      split; [|reflexivity]. eexists. rewrite !string_app_assoc. reflexivity.
    + apply ret_Ok in H as [<- _]. simpl. rewrite andb_true_r.
      split; [|reflexivity]. eexists. reflexivity.
    + exfalso. now apply (Hna items).
    + apply ret_Ok in H as [<- _]. simpl. rewrite andb_false_r.
      split; [|reflexivity]. exists "". 
      now rewrite !string_app_assoc, ?string_app_nil_r.
  - simpl in H. apply bind_Ok in H as (f & st1 & Hf & H).
    apply ret_Ok in H as [<- _]. simpl.
    apply IH in Hf as [(selection & ->) ->]. split; [|reflexivity].
    now exists selection.
Qed.

Lemma one_field_per_property_witness :
  exists r st',
    convertPropertyField pageRegistry (fun _ _ _ _ => ret []) "image"
      (Property (TArray (Property TContentReference None)) None) "Page1" "" true
      (mkState ∅ pageRegistry) = Ok (r, st')
    /\ fields r = ["image { key url { ...ContentUrl } ...ContentReferenceItem }"]
    /\ includesDamAssetsFragments r = true.
Proof.
  eexists _, _. split; [reflexivity|]. split; [reflexivity|].
  exact (proj2 (one_field_per_property pageRegistry (fun _ _ _ _ => ret [])
                  (Property (TArray (Property TContentReference None)) None)
                  "image" "Page1" "" true (mkState ∅ pageRegistry) _ _ eq_refl)).
Defined.

(* ================================================================= *)
(** * A failing network                                               *)
(* ================================================================= *)

Section Network.

Variable apiKey : string.
Variable graphUrl : string.
Variable fetch : FetchRequest -> Result Response.
Variable JSON_parse : string -> Result JsValue.
Variable env : option string.
Variable registry : list AnyContentType.
Variable cache : list AnyContentType.


End Network.


(* ================================================================= *)
(** * The errors of the composer                                      *)
(* ================================================================= *)

Lemma throwsOnly_ret {A} (P : GraphError -> Prop) (a : A) : throwsOnly P (ret a).
Proof. intros st e H. discriminate. Qed.

Lemma throwsOnly_bind {A B} (P : GraphError -> Prop) (c : M A) (k : A -> M B) :
  throwsOnly P c -> (forall a, throwsOnly P (k a)) -> throwsOnly P (bind c k).
Proof.
  intros Hc Hk st e H. unfold bind in H.
  destruct (c st) as [[a st1]|e1|] eqn:E; [|injection H as <-|discriminate].
  - exact (Hk a st1 e H).
  - exact (Hc st e1 E).
Qed.

Lemma throwsOnly_foldM {A B} (P : GraphError -> Prop) (f : B -> A -> M B) xs :
  (forall b x, throwsOnly P (f b x)) -> forall b, throwsOnly P (foldM f xs b).
Proof.
  intros Hf. induction xs as [|x xs IH]; intros b; simpl.
  - apply throwsOnly_ret.
  - apply throwsOnly_bind; [apply Hf|apply IH].
Qed.

Section Failures.

Variable registry : list AnyContentType.
Variable P : GraphError -> Prop.
Hypothesis P_missing :
  forall name, isBaseType name = false -> getContentType registry name = None ->
               P (GraphMissingContentTypeError name).

Lemma getCachedContentTypes_throwsOnly : throwsOnly P (getCachedContentTypes registry).
Proof.
  intros st e H. unfold getCachedContentTypes in H.
  destruct (allContentTypes st); discriminate.
Qed.

Lemma resolveAllowedTypes_throwsOnly allowed restricted :
  throwsOnly P (resolveAllowedTypes registry allowed restricted).
Proof.
  unfold resolveAllowedTypes. apply throwsOnly_bind.
  - destruct (hasLength allowed); [apply throwsOnly_ret|].
    apply throwsOnly_bind; [apply getCachedContentTypes_throwsOnly|].
    intros cts. apply throwsOnly_ret.
  - intros baseline. apply throwsOnly_ret.
Qed.

Section Step.

Variable rec : string -> string -> bool -> bool -> M (list string).
Hypothesis rec_throwsOnly : forall k s inc dam, throwsOnly P (rec k s inc dam).

Lemma convertPropertyField_throwsOnly p :
  forall name rootName suffix damEnabled,
    throwsOnly P (convertPropertyField registry rec name p rootName suffix damEnabled).
Proof.
  induction p as [t i Hna|items i IH] using property_array_ind;
    intros name rootName suffix damEnabled.
  - destruct t as [c|a r| | | | |items|ty]; simpl;
      try apply throwsOnly_ret.
    + apply throwsOnly_bind; [apply rec_throwsOnly|]. intros frags. apply throwsOnly_ret.
    + apply throwsOnly_bind; [apply resolveAllowedTypes_throwsOnly|].
      intros allowed. apply throwsOnly_bind.
      * apply throwsOnly_foldM. intros [extra subfields] t. unfold contentStep.
        apply throwsOnly_bind; [apply rec_throwsOnly|].
        intros frags. apply throwsOnly_ret.
      * intros [extra subfields]. apply throwsOnly_ret.
    + exfalso. now apply (Hna items).
  - simpl. apply throwsOnly_bind; [apply IH|]. intros f. apply throwsOnly_ret.
Qed.

Lemma createExperienceFragments_throwsOnly damEnabled :
  throwsOnly P (createExperienceFragments registry rec damEnabled).
Proof.
  unfold createExperienceFragments.
  apply throwsOnly_bind; [apply getCachedContentTypes_throwsOnly|]. intros cts.
  apply throwsOnly_bind; [intros st e H; discriminate|]. intros v.
  apply throwsOnly_bind.
  - apply throwsOnly_foldM. intros extra n. unfold experienceStep.
    apply throwsOnly_bind; [apply rec_throwsOnly|]. intros frags. apply throwsOnly_ret.
  - intros extra. apply throwsOnly_ret.
Qed.

Lemma composeParts_throwsOnly k s inc damEnabled :
  throwsOnly P (composeParts registry rec k s inc damEnabled).
Proof.
  unfold composeParts. destruct (isBaseType k) eqn:Hb.
  - simpl. apply throwsOnly_ret.
  - destruct (getContentType registry k) as [ct|] eqn:Hct.
    + apply throwsOnly_bind.
      * unfold gatherProperties. apply throwsOnly_foldM.
        intros [[fs es] dam] [propKey prop]. unfold gatherStep.
        destruct (isDisabled prop); [apply throwsOnly_ret|].
        apply throwsOnly_bind; [apply convertPropertyField_throwsOnly|].
        intros r. apply throwsOnly_ret.
      * intros [[fs es] dam].
        destruct (if inc then _ else _) as [fs' es'].
        destruct (bool_decide (ct_baseType ct = "_experience"));
          [|apply throwsOnly_ret].
        apply throwsOnly_bind; [apply createExperienceFragments_throwsOnly|].
        intros ex. apply throwsOnly_ret.
    + intros st e H. injection H as <-. now apply P_missing.
Qed.

Lemma createFragment_body_throwsOnly k s inc damEnabled :
  throwsOnly P (createFragment_body registry rec k s inc damEnabled).
Proof.
  unfold createFragment_body.
  apply throwsOnly_bind; [intros st e H; discriminate|]. intros v.
  destruct (bool_decide (k +:+ s ∈ v)); [apply throwsOnly_ret|].
  apply throwsOnly_bind.
  { destruct (bool_decide (size v = 0)); [intros st e H; discriminate|apply throwsOnly_ret]. }
  intros _. apply throwsOnly_bind; [intros st e H; discriminate|]. intros _.
  apply throwsOnly_bind; [apply composeParts_throwsOnly|].
  intros [[fs es] dam]. apply throwsOnly_ret.
Qed.

End Step.

Lemma createFragment_throwsOnly fuel :
  forall k s inc damEnabled,
    throwsOnly P (createFragment registry fuel k s inc damEnabled).
Proof.
  induction fuel as [|fuel IH]; intros k s inc damEnabled.
  - intros st e H. discriminate.
  - simpl. apply createFragment_body_throwsOnly. exact IH.
Qed.

End Failures.

(** X18. The composer always comes to an end, and the only way it fails is
    a [GraphMissingContentTypeError] for a key that is not a base type and
    is not registered: both query builders return a query or throw that
    error. *)
Theorem query_builders_total registry cache contentType damEnabled :
  ((exists query,
      createSingleContentQuery registry cache contentType damEnabled = Ok query)
   \/ exists e,
        createSingleContentQuery registry cache contentType damEnabled = Throw e
        /\ missingType registry e)
  /\ ((exists query,
         createMultipleContentQuery registry cache contentType damEnabled = Ok query)
      \/ exists e,
           createMultipleContentQuery registry cache contentType damEnabled = Throw e
           /\ missingType registry e).
Proof.
  assert ((exists fragment,
             createFragmentRoot registry cache contentType damEnabled = Ok fragment)
          \/ exists e,
               createFragmentRoot registry cache contentType damEnabled = Throw e
               /\ missingType registry e) as Hroot.
  { unfold createFragmentRoot.
    pose proof (createFragment_root_safe registry contentType damEnabled cache
                  (fragmentFuel registry) True (or_introl Logic.I) (le_n _)) as Hsafe.
    destruct (createFragment registry (fragmentFuel registry) contentType "" true
                damEnabled (mkState ∅ cache)) as [[out st']|e|] eqn:E.
    - left. now exists out.
    - right. exists e. split; [reflexivity|].
      apply (createFragment_throwsOnly registry (missingType registry)) in E;
        [exact E|].
      intros name Hb Hnone. now exists name.
    - contradiction. }
  unfold createSingleContentQuery, createMultipleContentQuery.
  destruct Hroot as [(fragment & ->)|(e & -> & He)]; cbn [rbind].
  - split; left; eexists; reflexivity.
  - split; right; exists e; split; auto.
Qed.

(* ================================================================= *)
(** * The fragment list is closed and declares each name once         *)
(* ================================================================= *)

Lemma root_covers registry damEnabled root cache fuel out st' :
  noNameClash (compositionKeys registry root) = true ->
  createFragment registry fuel root "" true damEnabled (mkState ∅ cache)
    = Ok (out, st') ->
  forall n, Reach registry (root, Direct) n ->
    forall s, s ∈ nodeStrings registry damEnabled n -> s ∈ out.
Proof.
  intros Hclash H n Hn s Hs.
  apply root_composition in H as (N & _ & Hreach & Hclosed & Hroot & Hout & _).
  apply Hout. exists n. split; [|exact Hs].
  exact (reach_composed registry root N Hclash Hreach Hclosed Hroot n Hn).
Qed.

(** X19. The fragment list is closed under the spreads it uses: when no key
    is another key followed by [Property], the list holds the fragment of
    every type a reachable property refers to (the component of a
    [component] property, every resolved type of a [content] property, every
    component with composition behaviours of an experience), together with
    the library fragments that fragment needs. *)
Theorem createFragment_closed registry damEnabled root cache fuel out st' :
  noNameClash (compositionKeys registry root) = true ->
  createFragment registry fuel root "" true damEnabled (mkState ∅ cache)
    = Ok (out, st') ->
  forall n, Reach registry (root, Direct) n ->
    nodeFragment registry damEnabled n ∈ out
    /\ (forall s, s ∈ nodeLibrary registry damEnabled n -> s ∈ out)
    /\ forall n', n' ∈ successors registry n ->
         nodeFragment registry damEnabled n' ∈ out.
Proof.
  intros Hclash H n Hn. split_and!.
  - apply (root_covers _ _ _ _ _ _ _ Hclash H n Hn).
    unfold nodeStrings. apply elem_of_app. right. left.
  - intros s Hs. apply (root_covers _ _ _ _ _ _ _ Hclash H n Hn).
    unfold nodeStrings. apply elem_of_app. now left.
  - intros n' Hn'.
    apply (root_covers _ _ _ _ _ _ _ Hclash H n' (Reach_step _ _ _ _ Hn Hn')).
    unfold nodeStrings. apply elem_of_app. right. left.
Qed.

(** X20. Composing an experience: the list holds the two fixed experience
    fragments, the [_IComponent] fragment, which spreads every registered
    component with composition behaviours, and the fragment of each of these
    components; the fragment of the experience itself selects
    [..._IExperience]. *)
Theorem experience_fragments registry damEnabled root cache fuel out st' ct :
  noNameClash (compositionKeys registry root) = true ->
  isBaseType root = false ->
  getContentType registry root = Some ct ->
  ct_baseType ct = "_experience" ->
  createFragment registry fuel root "" true damEnabled (mkState ∅ cache)
    = Ok (out, st') ->
  (forall s, s ∈ fixedFragments -> s ∈ out)
  /\ componentFragment registry ∈ out
  /\ (forall c, c ∈ registry -> isExperienceNode c = true ->
        nodeFragment registry damEnabled (ct_key c, Direct) ∈ out
        /\ exists before after,
             componentFragment registry
             = before +:+ "..." +:+ ct_key c +:+ after)
  /\ exists es fs,
       out = Js.uniq es ++ [fragmentText (root +:+ "") fs]
       /\ "..._IExperience" ∈ Js.uniq fs.
Proof.
  intros Hclash Hb Hct Hbase H.
  assert (forall s, s ∈ fixedFragments ++ [componentFragment registry] ->
                    s ∈ nodeLibrary registry damEnabled (root, Direct)) as Hlib.
  { intros s Hs. unfold nodeLibrary. simpl fst. simpl snd. rewrite Hb, Hct.
    rewrite (bool_decide_eq_true_2 _ Hbase).
    rewrite !elem_of_app. right. right. right. now apply elem_of_app in Hs. }
  pose proof (root_covers _ _ _ _ _ _ _ Hclash H (root, Direct) (Reach_root _ _))
    as Hroot.
  split_and!.
  - intros s Hs. apply Hroot. unfold nodeStrings. apply elem_of_app. left.
    apply Hlib. apply elem_of_app. now left.
  - apply Hroot. unfold nodeStrings. apply elem_of_app. left.
    apply Hlib. apply elem_of_app. right. left.
  - intros c Hc Hexp.
    assert (ct_key c ∈ experienceNodes registry) as Hnode.
    { unfold experienceNodes. apply list_elem_of_fmap. exists c.
      split; [reflexivity|]. apply list_elem_of_In, filter_In.
      split; [now apply list_elem_of_In|exact Hexp]. }
    split.
    + apply (root_covers _ _ _ _ _ _ _ Hclash H (ct_key c, Direct)).
      * apply (Reach_step _ _ (root, Direct)); [apply Reach_root|].
        unfold successors. simpl fst. rewrite Hb, Hct.
        rewrite (bool_decide_eq_true_2 _ Hbase). apply elem_of_app. right.
        apply list_elem_of_fmap. now exists (ct_key c).
      * unfold nodeStrings. apply elem_of_app. right. left.
    + unfold componentFragment.
      apply list_elem_of_split in Hnode as (l1 & l2 & ->).
      rewrite map_app. simpl map.
      assert (forall xs x ys, exists b a,
                Js.join " " (xs ++ x :: ys) = b +:+ x +:+ a) as Hjoin.
      { clear. unfold Js.join. induction xs as [|y xs IH]; intros x ys.
        - exists "". destruct ys as [|z ys]; simpl.
          + exists "". now rewrite string_app_nil_r.
          + eexists. reflexivity.
        - destruct (IH x ys) as (b & a & Heq).
          exists (y +:+ " " +:+ b), a.
          change ((y :: xs) ++ x :: ys) with (y :: (xs ++ x :: ys)).
          destruct (xs ++ x :: ys) as [|z zs] eqn:E.
          + now destruct xs.
          + change (String.concat " " (y :: z :: zs))
              with (y +:+ " " +:+ String.concat " " (z :: zs)).
            rewrite Heq. now rewrite !string_app_assoc. }
      destruct (Hjoin (map (fun n => "..." +:+ n) l1) ("..." +:+ ct_key c)
                  (map (fun n => "..." +:+ n) l2)) as (b & a & ->).
      exists ("fragment _IComponent on _IComponent { __typename " +:+ b), (a +:+ " }").
      now rewrite !string_app_assoc.
  - apply root_composition in H as (_ & _ & _ & _ & _ & _ & es & ->).
    exists es, (nodeFields registry damEnabled (root, Direct)).
    split; [reflexivity|]. apply uniq_member.
    unfold nodeFields. simpl fst. simpl snd. rewrite Hb, Hct.
    rewrite (bool_decide_eq_true_2 _ Hbase).
    right. rewrite !elem_of_app. right. right. left.
Qed.

Lemma root_parts registry damEnabled root cache fuel out st' :
  createFragment registry fuel root "" true damEnabled (mkState ∅ cache)
    = Ok (out, st') ->
  exists N es,
    effect registry (root, Direct) (mkState {[nodeName (root, Direct)]} registry) N st'
    /\ covers registry damEnabled N (nodeLibrary registry damEnabled (root, Direct)) es
    /\ out = Js.uniq es ++ [nodeFragment registry damEnabled (root, Direct)].
Proof.
  destruct fuel as [|fuel]; [discriminate|]. simpl. intros H.
  unfold createFragment_body in H.
  apply bind_Ok in H as (v & st0 & Hv & H).
  unfold get_visited in Hv. simpl in Hv. injection Hv as <- <-.
  rewrite bool_decide_eq_false_2 in H by apply not_elem_of_empty.
  apply bind_Ok in H as (u & st1 & Hrefresh & H).
  rewrite bool_decide_eq_true_2 in Hrefresh by apply size_empty.
  unfold refreshCache in Hrefresh. simpl in Hrefresh. injection Hrefresh as _ <-.
  apply bind_Ok in H as (u' & st2 & Hadd & H).
  unfold visited_add in Hadd. simpl in Hadd. injection Hadd as _ <-.
  apply bind_Ok in H as ([[fs es] d] & st3 & Hparts & Hret).
  apply ret_Ok in Hret as [<- <-].
  apply (composeParts_spec registry damEnabled (root, Direct)
           (createFragment registry fuel)) with (m := Direct) in Hparts
    as (N & Heff & -> & Hcov & _).
  - exists N, (if d then DAM_ASSET_FRAGMENTS ++ es else es).
    split_and!; [|exact Hcov|reflexivity].
    replace ({[nodeName (root, Direct)]} : gset string)
      with ({[root +:+ ""]} ∪ (∅ : gset string)) by (unfold nodeName; simpl; set_solver).
    exact Heff.
  - intros k m st out1 st1' Hr Hc Hrec.
    apply (createFragment_composes registry damEnabled (root, Direct) fuel);
      [exact Hr|now right|exact Hrec].
  - apply Reach_root.
  - reflexivity.
Qed.

(** X21. When no key of the composition contains a space or coincides, with
    or without the [Property] suffix, with the name of a library fragment,
    the fragment list declares every fragment name once: no fragment is
    listed twice, and no two fragments share a name. *)
Theorem fragment_definitions_once registry root damEnabled cache fuel out st' :
  forallb plainKey (compositionKeys registry root) = true ->
  createFragment registry fuel root "" true damEnabled (mkState ∅ cache)
    = Ok (out, st') ->
  NoDup (map declaredName out).
Proof.
  intros Hplain H.
  assert (forall n, Reach registry (root, Direct) n ->
            hasSpace (nodeName n) = false /\ nodeName n ∉ libraryNames) as Hkeys.
  { intros [k m] Hn. apply plainKey_name.
    rewrite forallb_forall in Hplain. apply Hplain, list_elem_of_In.
    exact (reach_keys _ _ _ Hn). }
  apply root_parts in H as (N & es & (_ & _ & Hnd & Hfresh & Hnodes) & Hcov & ->).
  assert (forall s, s ∈ es ->
            s ∈ libraryFragments registry
            \/ exists n, n ∈ N /\ s = nodeFragment registry damEnabled n) as Hes.
  { intros s Hs. apply Hcov in Hs as [Hs|(n & Hn & Hs)].
    - left. now apply nodeLibrary_library in Hs.
    - unfold nodeStrings in Hs. apply elem_of_app in Hs as [Hs|Hs].
      + left. now apply nodeLibrary_library in Hs.
      + right. exists n. split; [exact Hn|]. now apply list_elem_of_singleton in Hs. }
  assert (forall n, n ∈ N ->
            declaredName (nodeFragment registry damEnabled n) = nodeName n) as Hname.
  { intros n Hn. unfold nodeFragment. apply declaredName_fragmentText.
    apply Hkeys. now apply Hnodes. }
  rewrite map_app. apply NoDup_app. split_and!.
  - apply NoDup_fmap_2_strong; [|apply uniq_NoDup].
    intros s1 s2 H1 H2 Heq. rewrite uniq_member in H1, H2.
    apply Hes in H1 as [H1|(n1 & Hn1 & ->)]; apply Hes in H2 as [H2|(n2 & Hn2 & ->)].
    + now apply (library_injective registry).
    + exfalso. rewrite (Hname n2 Hn2) in Heq.
      apply (proj2 (Hkeys n2 (proj1 (Hnodes n2 Hn2)))).
      rewrite <- Heq. now apply (library_name_member registry).
    + exfalso. rewrite (Hname n1 Hn1) in Heq.
      apply (proj2 (Hkeys n1 (proj1 (Hnodes n1 Hn1)))).
      rewrite Heq. now apply (library_name_member registry).
    + rewrite (Hname n1 Hn1), (Hname n2 Hn2) in Heq.
      now rewrite (NoDup_map_inj nodeName N n1 n2 Hnd Hn1 Hn2 Heq).
  - intros x Hx Hroot. simpl in Hroot. apply list_elem_of_singleton in Hroot.
    unfold nodeFragment in Hroot.
    rewrite declaredName_fragmentText in Hroot
      by (apply (Hkeys (root, Direct)); apply Reach_root).
    subst x. apply list_elem_of_fmap in Hx as (s & Heq & Hs).
    rewrite uniq_member in Hs. apply Hes in Hs as [Hs|(n & Hn & ->)].
    + apply (proj2 (Hkeys (root, Direct) (Reach_root _ _))).
      rewrite Heq. now apply (library_name_member registry).
    + rewrite (Hname n Hn) in Heq. apply (Hfresh n Hn). simpl.
      rewrite <- Heq. set_solver.
  - simpl. apply NoDup_singleton.
Qed.

(* ================================================================= *)
(** * The state of the composer                                       *)
(* ================================================================= *)

Lemma createFragment_refreshes registry fuel k damEnabled cache :
  createFragment registry fuel k "" true damEnabled (mkState ∅ cache)
  = createFragment registry fuel k "" true damEnabled (mkState ∅ registry).
Proof.
  destruct fuel as [|fuel]; [reflexivity|]. simpl.
  unfold createFragment_body, bind, get_visited. simpl.
  rewrite (bool_decide_eq_false_2 (k +:+ "" ∈ (∅ : gset string)))
    by apply not_elem_of_empty.
  reflexivity.
Qed.

(** X22. A call with a fresh visited set reads the registry anew: what the
    query builders return does not depend on what the module cache held
    before.  After such a call the cache holds the registry, the visited set
    holds the name of the root, and a further call for the root with that
    visited set returns no fragment and changes nothing. *)
Theorem createFragment_state registry k damEnabled cache :
  (forall cache',
     createSingleContentQuery registry cache k damEnabled
     = createSingleContentQuery registry cache' k damEnabled
     /\ createMultipleContentQuery registry cache k damEnabled
        = createMultipleContentQuery registry cache' k damEnabled)
  /\ forall fuel out st',
       createFragment registry fuel k "" true damEnabled (mkState ∅ cache)
         = Ok (out, st') ->
       allContentTypes st' = registry
       /\ k ∈ visited st'
       /\ forall fuel',
            createFragment registry (S fuel') k "" true damEnabled st' = Ok ([], st').
Proof.
  split.
  - intros cache'.
    unfold createSingleContentQuery, createMultipleContentQuery, createFragmentRoot.
    rewrite (createFragment_refreshes registry _ k damEnabled cache).
    rewrite (createFragment_refreshes registry _ k damEnabled cache').
    split; reflexivity.
  - intros fuel out st' H.
    apply (createFragment_composes registry damEnabled (k, Direct) fuel k Direct)
      in H as (N & (Hcache & _) & _ & Hvis & _); [|apply Reach_root|now left].
    unfold nodeName in Hvis. simpl in Hvis.
    split_and!; [exact Hcache|now rewrite string_app_nil_r in Hvis|].
    intros fuel'. now apply createFragment_visited.
Qed.



(* ================================================================= *)
(** * Resolving the allowed types                                     *)
(* ================================================================= *)

(** X24. [allPropertiesAreDisabled] holds exactly for a content type that
    has a property object with at least one property, all of them
    indexing-disabled; a type without properties is not skipped. *)
Theorem allPropertiesAreDisabled_iff ct :
  allPropertiesAreDisabled ct = true
  <-> exists ps,
        ct_properties ct = Some ps /\ ps <> []
        /\ forall np, np ∈ ps -> isDisabled (snd np) = true.
Proof.
  unfold allPropertiesAreDisabled.
  destruct (ct_properties ct) as [ps|].
  2:{ split; [discriminate|]. now intros (ps & H & _). }
  assert (forall (l : list (string * AnyProperty)) b,
            (fix loop (ps0 : list (string * AnyProperty)) (hasProperties : bool) :=
               match ps0 with
               | [] => hasProperties
               | (_, p) :: ps' => if isDisabled p then loop ps' true else false
               end) l b = true
            <-> (b = true \/ l <> []) /\ forall np, np ∈ l -> isDisabled (snd np) = true)
    as Hloop.
  { induction l as [|[name p] l IH]; intros b.
    - split.
      + intros ->. split; [now left|]. intros np Hnp. now apply elem_of_nil in Hnp.
      + intros [[-> |Hne] _]; [reflexivity|now destruct Hne].
    - destruct (isDisabled p) eqn:Hp.
      + rewrite IH. split.
        * intros [_ Hall]. split; [now right|].
          intros np Hnp. apply elem_of_cons in Hnp as [-> |Hnp]; [exact Hp|auto].
        * intros [_ Hall]. split; [now left|].
          intros np Hnp. apply Hall. now right.
      + split; [discriminate|]. intros [_ Hall].
        specialize (Hall (name, p) ltac:(left)). simpl in Hall. congruence. }
  rewrite Hloop. split.
  - intros [[H|H] Hall]; [discriminate|]. now exists ps.
  - intros (ps' & Heq & Hne & Hall). injection Heq as <-. split; [now right|exact Hall].
Qed.

Lemma foldl_flat_map {A B C} (f : C -> B -> C) (g : A -> list B) (l : list A) :
  forall acc, foldl f acc (flat_map g l) = foldl (fun acc x => foldl f acc (g x)) acc l.
Proof.
  induction l as [|x l IH]; intros acc; [reflexivity|].
  simpl. now rewrite foldl_app, IH.
Qed.

Lemma resolveFrom_candidates registry skip allowed :
  resolveFrom registry (hasLength allowed) skip
    (if hasLength allowed then default [] allowed else map PObject registry)
  = snd (foldl (add registry skip) (∅, []) (candidates registry allowed)).
Proof.
  unfold resolveFrom, candidates. f_equal.
  destruct (hasLength allowed).
  - rewrite foldl_flat_map. generalize (∅ : gset string, @nil PermittedTypes).
    induction (default [] allowed) as [|e es IH]; intros acc; [reflexivity|].
    simpl. rewrite <- IH. f_equal. rewrite foldl_app. simpl.
    now destruct (isBaseType (getKeyName e)).
  - reflexivity.
Qed.

Lemma add_keys registry skip acc t k :
  accOk skip acc ->
  k ∈ keysOf (snd (add registry skip acc t))
  <-> k ∈ keysOf (snd acc)
      \/ getKeyName t = k /\ admissible registry skip t = true.
Proof.
  destruct acc as [seen result]. intros (Hsync & _ & _).
  unfold add, admissible, definitionOf. cbn [fst snd] in *.
  destruct (match match t with
                  | PString _ => getContentType registry (getKeyName t)
                  | PObject o => Some o
                  end with
            | Some o => allPropertiesAreDisabled o
            | None => false
            end); cbn [negb andb snd].
  { split; [auto|]. intros [H|[_ H]]; [exact H|discriminate]. }
  destruct (bool_decide (getKeyName t ∈ skip)); cbn [negb andb orb snd].
  { split; [auto|]. intros [H|[_ H]]; [exact H|discriminate]. }
  destruct (bool_decide (getKeyName t ∈ MAIN_BASE_TYPES)) eqn:Hmain;
    rewrite ?orb_true_r, ?orb_false_r; cbn [negb andb orb snd].
  { split; [auto|]. intros [H|[_ H]]; [exact H|discriminate]. }
  destruct (bool_decide (getKeyName t ∈ seen)) eqn:Hseen; cbn [snd].
  - apply bool_decide_eq_true_1 in Hseen. split; [auto|].
    intros [H|[<- _]]; [exact H|]. now apply Hsync.
  - unfold keysOf. rewrite map_app, elem_of_app. simpl.
    rewrite list_elem_of_singleton. split.
    + intros [H|H]; [now left|right]. now split.
    + intros [H|[H _]]; [now left|now right].
Qed.

Lemma foldl_add_keys registry skip ts k : forall acc,
  accOk skip acc ->
  k ∈ keysOf (snd (foldl (add registry skip) acc ts))
  <-> k ∈ keysOf (snd acc)
      \/ exists t, t ∈ ts /\ getKeyName t = k /\ admissible registry skip t = true.
Proof.
  induction ts as [|t ts IH]; intros acc Hok; simpl.
  - split; [auto|]. intros [H|(t & Ht & _)]; [exact H|now apply elem_of_nil in Ht].
  - rewrite IH by now apply add_step. rewrite add_keys by exact Hok. split.
    + intros [[H|[H1 H2]]|(t' & Ht' & H)].
      * now left.
      * right. exists t. split; [left|auto].
      * right. exists t'. split; [now right|exact H].
    + intros [H|(t' & Ht' & H1 & H2)]; [now left; left|].
      apply elem_of_cons in Ht' as [-> |Ht'].
      * left. right. auto.
      * right. now exists t'.
Qed.

(** X25. The types [resolveAllowedTypes] returns, by key: a key is returned
    exactly when some candidate with that key (an entry of the allow-list
    or, where that entry is a base type, a registered type extending it;
    without allow-list every registered type) is not restricted, is not a
    main base type and has not all of its properties disabled.  No key is
    returned twice. *)
Theorem resolveAllowedTypes_keys registry allowed restricted st l st' :
  allContentTypes st = registry ->
  resolveAllowedTypes registry allowed restricted st = Ok (l, st') ->
  NoDup (keysOf l)
  /\ forall k,
       k ∈ keysOf l
       <-> exists t,
             t ∈ candidates registry allowed
             /\ getKeyName t = k
             /\ admissible registry (restrictedSkip registry restricted) t = true.
Proof.
  intros Hcache H.
  apply (resolveAllowedTypes_Ok registry) in H as [-> _]; [|exact Hcache].
  split; [apply resolved_NoDup|].
  intros k. unfold resolved. rewrite resolveFrom_candidates.
  rewrite foldl_add_keys by apply accOk_empty.
  split; [|auto]. intros [H|H]; [|exact H].
  simpl in H. now apply elem_of_nil in H.
Qed.

Lemma resolveAllowedTypes_keys_witness :
  exists l st',
    resolveAllowedTypes imageRegistry (Some [PString "_image"]) None
      (mkState ∅ imageRegistry) = Ok (l, st')
    /\ keysOf l = ["MyImage"; "_image"]
    /\ NoDup (keysOf l).
Proof.
  eexists _, _. split; [vm_compute; reflexivity|]. split; [reflexivity|].
  exact (proj1 (resolveAllowedTypes_keys imageRegistry (Some [PString "_image"]) None
                  (mkState ∅ imageRegistry) _ _ eq_refl
                  ltac:(vm_compute; reflexivity))).
Defined.

Lemma createFragment_closed_witness :
  exists out st',
    createFragment experienceRegistry (fragmentFuel experienceRegistry) "Landing" ""
      true false (mkState ∅ []) = Ok (out, st')
    /\ "fragment Hero on Hero { __typename Hero__heading:heading ..._IContent }" ∈ out.
Proof.
  eexists _, _. split; [vm_compute; reflexivity|].
  refine (proj2 (proj2 (createFragment_closed experienceRegistry false "Landing" []
                          (fragmentFuel experienceRegistry) _ _ eq_refl
                          ltac:(vm_compute; reflexivity)
                          ("Landing", Direct) (Reach_root _ _)))
            ("Hero", Direct) _).
  vm_compute. left.
Defined.

Lemma experience_fragments_witness :
  exists out st',
    createFragment experienceRegistry (fragmentFuel experienceRegistry) "Landing" ""
      true false (mkState ∅ []) = Ok (out, st')
    /\ "fragment _IComponent on _IComponent { __typename ...Hero }" ∈ out.
Proof.
  eexists _, _. split; [vm_compute; reflexivity|].
  exact (proj1 (proj2 (experience_fragments experienceRegistry false "Landing" []
                         (fragmentFuel experienceRegistry) _ _
                         (ContentType "Landing" "_experience"
                            (Some [("title", Property (TScalar "string") None)]) None)
                         eq_refl eq_refl eq_refl eq_refl
                         ltac:(vm_compute; reflexivity)))).
Defined.

Lemma fragment_definitions_once_witness :
  exists out st',
    createFragment experienceRegistry (fragmentFuel experienceRegistry) "Landing" ""
      true false (mkState ∅ []) = Ok (out, st')
    /\ NoDup (map declaredName out).
Proof.
  eexists _, _. split; [vm_compute; reflexivity|].
  exact (fragment_definitions_once experienceRegistry "Landing" false []
           (fragmentFuel experienceRegistry) _ _ eq_refl
           ltac:(vm_compute; reflexivity)).
Defined.

Lemma createFragment_state_witness :
  exists out st',
    createFragment pageRegistry (fragmentFuel pageRegistry) "Page1" "" true false
      (mkState ∅ []) = Ok (out, st')
    /\ createFragment pageRegistry 1 "Page1" "" true false st' = Ok ([], st').
Proof.
  eexists _, _. split; [vm_compute; reflexivity|].
  exact (proj2 (proj2 (proj2 (createFragment_state pageRegistry "Page1" false [])
                         (fragmentFuel pageRegistry) _ _
                         ltac:(vm_compute; reflexivity))) 0).
Defined.

(* ================================================================= *)
(** * DAM asset helpers                                               *)
(* ================================================================= *)

(** X26. The asset kinds are consistent: a reference is of at most one kind,
    [getDamAssetType] names the kind for which the guard holds, and it
    answers [unknown] exactly when [isDamAsset] fails, in particular for
    [null], [undefined] and a reference without item. *)
Theorem asset_kinds property :
  (getDamAssetType property = "image" <-> isDamImageAsset property = true)
  /\ (getDamAssetType property = "video" <-> isDamVideoAsset property = true)
  /\ (getDamAssetType property = "file" <-> isDamRawFileAsset property = true)
  /\ (getDamAssetType property = "unknown" <-> isDamAsset property = false)
  /\ (Value.truthy (Value.opt_member property "item") = false ->
      getDamAssetType property = "unknown").
Proof.
  assert (Value.truthy (Value.opt_member property "item") = false ->
          Value.opt_member (Value.opt_member property "item") "__typename" = JUndefined)
    as Hfalsy.
  { destruct (Value.opt_member property "item"); try reflexivity. discriminate. }
  unfold getDamAssetType, isDamAsset, isDamImageAsset, isDamVideoAsset,
    isDamRawFileAsset, itemTypeIs.
  destruct (Value.opt_member (Value.opt_member property "item") "__typename")
    as [| |b|n|s|es|props].
  1-4, 6-7: split_and!; try (split; discriminate); try (split; reflexivity);
    try reflexivity.
  repeat case_bool_decide; subst; simpl;
    split_and!; try (split; congruence); try discriminate.
  all: intros Hitem; specialize (Hfalsy Hitem); discriminate.
Qed.

(** X27. [getAlt] answers with the alternative text of the asset when that
    is not falsy, and with the fallback in every other case: for [null] and
    [undefined], for a reference without item, for an item without
    [AltText], and for an [AltText] that is [null] or empty.  With a
    fallback that is not empty the answer is never empty. *)
Theorem getAlt_result input fallback :
  (Value.truthy input = false -> getAlt input fallback = Ok (JString fallback))
  /\ (Value.truthy (Value.opt_member input "item") = false ->
      getAlt input fallback = Ok (JString fallback))
  /\ forall v,
       getAlt input fallback = Ok v ->
       (v = JString fallback
        \/ v = Value.opt_member (Value.opt_member input "item") "AltText"
           /\ Value.truthy v = true)
       /\ (fallback <> "" -> Value.truthy v = true).
Proof.
  assert (fallback <> "" -> Value.truthy (JString fallback) = true) as Hfb.
  { intros Hne. simpl. now rewrite bool_decide_eq_false_2. }
  unfold getAlt. split_and!.
  - now intros ->.
  - intros Hitem. destruct (Value.truthy input); [|reflexivity].
    cbn [negb]. now rewrite Hitem.
  - intros v. destruct (Value.truthy input); cbn [negb].
    2:{ intros [= <-]. split; [now left|exact Hfb]. }
    destruct (Value.truthy (Value.opt_member input "item")).
    2:{ cbn [rbind]. intros [= <-]. split; [now left|exact Hfb]. }
    destruct (hasProperty "AltText" (Value.opt_member input "item")) as [[|]| |];
      cbn [rbind]; try discriminate.
    2:{ intros [= <-]. split; [now left|exact Hfb]. }
    destruct (Value.truthy (Value.opt_member (Value.opt_member input "item") "AltText"))
      eqn:Halt; intros [= <-].
    + split; [right; now split|]. intros _. exact Halt.
    + split; [now left|exact Hfb].
Qed.

Lemma getAlt_result_witness :
  getAlt (imageReference (JString "") []) "Hero image" = Ok (JString "Hero image")
  /\ Value.truthy (JString "Hero image") = true.
Proof.
  split; [reflexivity|].
  exact (proj2 (proj2 (proj2 (getAlt_result (imageReference (JString "") [])
                                "Hero image"))
                  (JString "Hero image") eq_refl)
           ltac:(discriminate)).
Defined.

Lemma sameValueZero_sym a b : JsMap.sameValueZero a b = JsMap.sameValueZero b a.
Proof.
  destruct a, b; simpl; try reflexivity.
  - now destruct b, b0.
  - apply Z.eqb_sym.
  - apply bool_decide_ext. split; congruence.
Qed.



Section AssetProperties.

Variable appendToken : JsValue -> JsValue -> Result JsValue.


End AssetProperties.


Lemma get_has k (props : list (string * JsValue)) :
  Obj.get k props <> JUndefined -> Obj.has k props = true.
Proof.
  unfold Obj.has. induction props as [|[k' v] props IH]; simpl; [congruence|].
  destruct (bool_decide (k' = k)); [reflexivity|exact IH].
Qed.

Lemma has_set_same k v (props : list (string * JsValue)) :
  Obj.has k (Obj.set k v props) = true.
Proof.
  unfold Obj.has. induction props as [|[k' v'] props IH]; simpl.
  - now rewrite bool_decide_eq_true_2.
  - destruct (bool_decide (k' = k)) eqn:E; simpl; rewrite E; [reflexivity|exact IH].
Qed.

Lemma get_set_other k k' v (props : list (string * JsValue)) :
  k <> k' -> Obj.get k (Obj.set k' v props) = Obj.get k props.
Proof.
  intros Hne. induction props as [|[k'' v''] props IH]; simpl.
  - rewrite bool_decide_eq_false_2; [reflexivity|]. now intros ->.
  - destruct (bool_decide (k'' = k')) eqn:E; simpl; [|now rewrite IH].
    apply bool_decide_eq_true_1 in E. subst k''.
    assert (k' <> k) as Hne' by congruence.
    now rewrite !(bool_decide_eq_false_2 (k' = k)) by exact Hne'.
Qed.

Section AssetPreview.

Variable appendToken : JsValue -> JsValue -> Result JsValue.

Lemma withToken_object token rprops r' :
  withToken appendToken token (JObject rprops) = Ok r' ->
  widthOf r' = widthOf (JObject rprops)
  /\ if Value.truthy (urlOf (JObject rprops))
     then appendToken (urlOf (JObject rprops)) token = Ok (urlOf r')
     else urlOf r' = urlOf (JObject rprops).
Proof.
  unfold withToken, widthOf, urlOf. cbn [Value.member rbind Value.opt_member spreadOf].
  destruct (Value.truthy (Obj.get "Url" rprops)) eqn:Hu.
  - destruct (appendToken (Obj.get "Url" rprops) token) as [u| |]; cbn [rbind];
      try discriminate.
    intros [= <-]. cbn [Value.opt_member].
    rewrite get_set_other by discriminate. now rewrite get_set_same.
  - cbn [rbind]. intros [= <-]. cbn [Value.opt_member].
    rewrite get_set_other by discriminate. now rewrite get_set_same.
Qed.

(** X29. In preview (the content carries a preview token that is not falsy),
    for an asset whose renditions are objects, [getSrcset] answers with the
    srcset of the same renditions, in the same order and with the same
    widths, in which every [Url] that is not falsy is replaced by what
    [appendToken] returns for it and the token. *)
Theorem getSrcset_preview content token props iprops rs rs' :
  Value.opt_member (Value.opt_member content "__context") "preview_token" = token ->
  Value.truthy token = true ->
  Obj.get "item" props = JObject iprops ->
  Obj.get "Renditions" iprops = JArray rs ->
  Forall (fun r => exists rprops, r = JObject rprops) rs ->
  mapResult (withToken appendToken token) rs = Ok rs' ->
  getSrcset appendToken content (JObject props)
  = getSrcset appendToken JNull
      (JObject [("item", JObject [("Renditions", JArray rs')])])
  /\ Forall2 (fun r r' =>
                widthOf r' = widthOf r
                /\ if Value.truthy (urlOf r)
                   then appendToken (urlOf r) token = Ok (urlOf r')
                   else urlOf r' = urlOf r) rs rs'.
Proof.
  intros Htoken Htruthy Hitem Hrend Hobjects Hmap. split.
  - unfold getSrcset at 1. rewrite Htoken, Htruthy.
    unfold appendPreviewTokenToRenditions.
    cbn [Value.truthy negb orb spreadOf]. rewrite Htruthy. cbn [negb].
    rewrite Hitem. cbn [Value.truthy hasProperty Value.opt_member rbind].
    rewrite (get_has "Renditions" iprops) by (rewrite Hrend; discriminate).
    rewrite Hrend. cbn [Value.truthy andb]. rewrite Hmap. cbn [rbind Value.opt_member].
    rewrite get_set_same. cbn [Value.truthy negb hasProperty rbind].
    rewrite has_set_same. cbn [negb Value.opt_member]. rewrite get_set_same.
    unfold getSrcset. simpl. now destruct rs'.
  - clear Hrend. revert rs' Hmap. induction Hobjects as [|r rs (rprops & ->) _ IH]; intros rs' Hmap.
    + injection Hmap as <-. constructor.
    + cbn [mapResult] in Hmap.
      destruct (withToken appendToken token (JObject rprops)) as [r'| |] eqn:Hr;
        cbn [rbind] in Hmap; try discriminate.
      destruct (mapResult (withToken appendToken token) rs) as [rest| |] eqn:Hrest;
        cbn [rbind] in Hmap; try discriminate.
      injection Hmap as <-. apply Forall2_cons. split.
      * exact (withToken_object token rprops r' Hr).
      * apply IH; first [reflexivity|exact Hrest].
Qed.

End AssetPreview.

Lemma getSrcset_preview_witness :
  let tokenized := fun url token =>
                     match url, token with
                     | JString u, JString t => Ok (JString (u +:+ "?preview_token=" +:+ t))
                     | _, _ => Ok url
                     end in
  getSrcset tokenized
    (JObject [("__typename", JString "Page1");
              ("__context",
               JObject [("edit", JBool true); ("preview_token", JString "tok")])])
    (imageReference JNull
       [rendition "thumb" "https://assets.example/t.jpg" 100 100;
        rendition "large" "https://assets.example/l.jpg" 1920 1920])
  = Ok (JString "https://assets.example/t.jpg?preview_token=tok 100w, https://assets.example/l.jpg?preview_token=tok 1920w").
Proof.
  intros tokenized.
  refine (eq_trans
            (proj1 (getSrcset_preview tokenized
                      (JObject [("__typename", JString "Page1");
                                ("__context",
                                 JObject [("edit", JBool true);
                                          ("preview_token", JString "tok")])])
                      (JString "tok")
                      [("url", JObject [("default", JNull)]);
                       ("item",
                        JObject [("__typename", JString "cmp_PublicImageAsset");
                                 ("Url", JString "https://assets.example/a.jpg");
                                 ("AltText", JNull);
                                 ("Renditions",
                                  JArray [rendition "thumb" "https://assets.example/t.jpg" 100 100;
                                          rendition "large" "https://assets.example/l.jpg" 1920 1920])])]
                      _ [rendition "thumb" "https://assets.example/t.jpg" 100 100;
                         rendition "large" "https://assets.example/l.jpg" 1920 1920]
                      _ eq_refl eq_refl eq_refl eq_refl _ eq_refl)) _).
  - repeat constructor; eexists; reflexivity.
  - vm_compute. reflexivity.
Defined.
